(** * Task manager API: request pipeline, cache, rate limiter, CORS, archival

    A shallow embedding of the server side of the task-tracking
    application: the cache service ([CacheService]), the rate-limit
    wrapper ([checkRateLimit], in its two versions), the zod schema
    [TaskCreateSchema], the CORS header generator ([getCORSHeaders]), the
    route handlers of [/api/tasks], [/api/tasks/{id}] and
    [/api/admin/archive-tasks].

    The external collaborators (the Redis store, the Postgres table with
    its row-level security, the rate-limit library) are small executable
    models; every handler is a function on an explicit [World] that also
    records the trace of observable events. *)

From Stdlib Require Import ZArith Ascii String List Bool Lia.
From stdpp Require Import gmap strings list pretty.

Local Open Scope Z_scope.

(** ** Redis glob patterns

    [KEYS pattern] selects keys with glob-style patterns: [*] any run of
    characters, [?] one character, [[...]] a character class (with [^]
    negation, [a-z] ranges and backslash escapes), backslash to take the
    next character verbatim. *)

Module Glob.

Inductive citem :=
| CChar (c : ascii)
| CRange (lo hi : ascii).

Inductive tok :=
| TStar
| TAny
| TLit (c : ascii)
| TClass (neg : bool) (items : list citem).

Inductive pmode :=
| Normal
| InClass (neg : bool) (acc : list citem).

(** The pattern is read left to right; [InClass] is the inner loop of the
    matcher that runs between [[] and []]. An unterminated class ends with
    the pattern. *)
Fixpoint parse (m : pmode) (p : string) {struct p} : list tok :=
  match p with
  | EmptyString =>
      match m with
      | Normal => []
      | InClass neg acc => [TClass neg (rev acc)]
      end
  | String c p' =>
      match m with
      | Normal =>
          if Ascii.eqb c "*" then TStar :: parse Normal p'
          else if Ascii.eqb c "?" then TAny :: parse Normal p'
          else if Ascii.eqb c "\" then
            match p' with
            | EmptyString => [TLit c]
            | String d p'' => TLit d :: parse Normal p''
            end
          else if Ascii.eqb c "[" then
            match p' with
            | String "^" p'' => parse (InClass true []) p''
            | _ => parse (InClass false []) p'
            end
          else TLit c :: parse Normal p'
      | InClass neg acc =>
          match p' with
          | String d p'' =>
              if Ascii.eqb c "\" then parse (InClass neg (CChar d :: acc)) p''
              else if Ascii.eqb c "]" then TClass neg (rev acc) :: parse Normal p'
              else if Ascii.eqb d "-" then
                match p'' with
                | String hi p3 => parse (InClass neg (CRange c hi :: acc)) p3
                | EmptyString => parse (InClass neg (CChar c :: acc)) p'
                end
              else parse (InClass neg (CChar c :: acc)) p'
          | EmptyString =>
              if Ascii.eqb c "]" then [TClass neg (rev acc)]
              else [TClass neg (rev (CChar c :: acc))]
          end
      end
  end.

Definition code (c : ascii) : N := N_of_ascii c.

Definition item_match (c : ascii) (i : citem) : bool :=
  match i with
  | CChar d => Ascii.eqb d c
  | CRange lo hi =>
      let lo' := N.min (code lo) (code hi) in
      let hi' := N.max (code lo) (code hi) in
      (lo' <=? code c)%N && (code c <=? hi')%N
  end.

Fixpoint tmatch (ts : list tok) (s : string) {struct ts} : bool :=
  match ts with
  | [] => match s with EmptyString => true | _ => false end
  | TStar :: ts' =>
      (fix star (s : string) : bool :=
         tmatch ts' s ||
         match s with
         | EmptyString => false
         | String _ s' => star s'
         end) s
  | TAny :: ts' =>
      match s with
      | EmptyString => false
      | String _ s' => tmatch ts' s'
      end
  | TLit c :: ts' =>
      match s with
      | EmptyString => false
      | String d s' => Ascii.eqb c d && tmatch ts' s'
      end
  | TClass neg items :: ts' =>
      match s with
      | EmptyString => false
      | String d s' => xorb neg (existsb (item_match d) items) && tmatch ts' s'
      end
  end.

(** The tokens of a literal text. *)
Fixpoint lits (p : string) : list tok :=
  match p with
  | EmptyString => []
  | String c p' => TLit c :: lits p'
  end.

Definition glob_match (pattern key : string) : bool :=
  tmatch (parse Normal pattern) key.

(** Characters that the matcher does not compare verbatim. *)
Definition is_meta (c : ascii) : bool :=
  Ascii.eqb c "*" || Ascii.eqb c "?" || Ascii.eqb c "\" || Ascii.eqb c "[".

Fixpoint plain (s : string) : bool :=
  match s with
  | EmptyString => true
  | String c s' => negb (is_meta c) && plain s'
  end.

Fixpoint is_prefix (p s : string) : bool :=
  match p, s with
  | EmptyString, _ => true
  | String c p', String d s' => Ascii.eqb c d && is_prefix p' s'
  | String _ _, EmptyString => false
  end.

(** [contains sub s]: [sub] occurs in [s] as a contiguous substring. *)
Fixpoint contains (sub s : string) : bool :=
  is_prefix sub s ||
  match s with
  | EmptyString => false
  | String _ s' => contains sub s'
  end.

End Glob.

(** ** Data model, the world and its trace *)

Inductive Status := todo | in_progress | done_ | archived.

Definition Status_eqb (a b : Status) : bool :=
  match a, b with
  | todo, todo | in_progress, in_progress | done_, done_ | archived, archived => true
  | _, _ => false
  end.

(** A row of the [tasks] table. Timestamps are milliseconds since the
    epoch. [due_date] is kept as the text that was submitted: the column
    holds the date that [new Date(text)] denotes, and null when it denotes
    none. *)
Record Task := mkTask {
  id : string;
  user_id : string;
  title : string;
  description : option string;
  status : Status;
  due_date : option string;
  created_at : Z;
  updated_at : Z
}.

(** What a cache entry holds: a serialized task collection or one task. *)
Inductive CacheVal :=
| CTasks (ts : list Task)
| CTask (t : Task).

Record entry := mkEntry { expires : Z; value : CacheVal }.

Inductive ConsoleLevel := ConsoleLog | ConsoleWarn | ConsoleError.
Inductive LogLevel := DEBUG | INFO | WARN | ERROR.

Inductive RedisCmd :=
| RGet (key : string)
| RSetex (key : string) (ttl : Z)
| RKeys (pattern : string)
| RDel (keys : list string).

Inductive DbOp := SELECT | INSERT | UPDATE | DELETE_.

(** The two database clients: the session client acts as the signed-in
    user under row-level security, the service client bypasses it. *)
Inductive Role :=
| AsUser (uid : string)
| ServiceRole.

Inductive Event :=
| Console (lvl : ConsoleLevel) (msg : string)
| Logged (lvl : LogLevel) (msg : string)
| RedisCall (cmd : RedisCmd) (ok : bool)
| DbCall (role : Role) (op : DbOp) (ok : bool)
| Responded (code : Z).

(** What [limiter.limit(identifier)] of the rate-limit library resolves to. *)
Record RatelimitResponse := mkRatelimitResponse {
  rsp_success : bool;
  rsp_limit : Z;
  rsp_remaining : Z;
  rsp_reset : Z
}.

Inductive Limiter := readLimiter | writeLimiter | authLimiter.

Definition Limiter_eqb (a b : Limiter) : bool :=
  match a, b with
  | readLimiter, readLimiter | writeLimiter, writeLimiter | authLimiter, authLimiter => true
  | _, _ => false
  end.

(** The sliding window of the rate-limit library is not in the sources:
    what a limiter answers is given by [limiter_oracle], from the instants
    of the earlier calls of the same limiter with the same identifier and
    the instant of the call. The counters are the limiter's own state,
    apart from the cache entries. *)
Record World := mkWorld {
  tasks : list Task;            (* the tasks table, newest row first *)
  db_fault : option string;     (* Some msg: every query returns this error *)
  cache : gmap string entry;    (* the key-value store *)
  redis_up : bool;              (* false: every store command throws *)
  limiter_oracle : Limiter -> string -> list Z -> Z -> option RatelimitResponse;
                                (* the limiter's answer; None: it throws *)
  limiter_calls : list (Limiter * string * Z);
                                (* the calls of limiter.limit so far, oldest first *)
  now : Z;                      (* Date.now() *)
  next_id : nat;                (* source of generated task ids *)
  trace : list Event            (* events so far, oldest first *)
}.

(** The instants of the calls made so far with a limiter and an identifier. *)
Definition earlier_calls (l : Limiter) (identifier : string)
  (calls : list (Limiter * string * Z)) : list Z :=
  snd <$> filter (fun c => Limiter_eqb c.1.1 l && String.eqb c.1.2 identifier = true) calls.

(** What [limiter.limit(identifier)] answers when called in this state. *)
Definition limit_reply (w : World) (l : Limiter) (identifier : string)
  : option RatelimitResponse :=
  limiter_oracle w l identifier (earlier_calls l identifier (limiter_calls w)) (now w).

Definition M (A : Type) : Type := World -> A * World.

Definition ret {A} (a : A) : M A := fun w => (a, w).

Definition bind {A B} (c : M A) (k : A -> M B) : M B :=
  fun w => let '(a, w') := c w in k a w'.

Notation "x <- c ;; k" := (bind c (fun x => k))
  (at level 100, c at next level, right associativity).
Notation "c ;; k" := (bind c (fun _ => k))
  (at level 100, right associativity).

Definition emit (e : Event) : M unit :=
  fun w => (tt, mkWorld (tasks w) (db_fault w) (cache w) (redis_up w)
                        (limiter_oracle w) (limiter_calls w) (now w) (next_id w)
                        (trace w ++ [e])).

Definition get_now : M Z := fun w => (now w, w).

Definition set_cache (c : gmap string entry) : M unit :=
  fun w => (tt, mkWorld (tasks w) (db_fault w) c (redis_up w)
                        (limiter_oracle w) (limiter_calls w) (now w) (next_id w) (trace w)).

Definition set_tasks (ts : list Task) : M unit :=
  fun w => (tt, mkWorld ts (db_fault w) (cache w) (redis_up w)
                        (limiter_oracle w) (limiter_calls w) (now w) (next_id w) (trace w)).

Definition bump_id : M nat :=
  fun w => (next_id w, mkWorld (tasks w) (db_fault w) (cache w) (redis_up w)
                               (limiter_oracle w) (limiter_calls w) (now w)
                               (S (next_id w)) (trace w)).

(** The limiter takes note of a call. *)
Definition record_call (l : Limiter) (identifier : string) : M unit :=
  fun w => (tt, mkWorld (tasks w) (db_fault w) (cache w) (redis_up w)
                        (limiter_oracle w)
                        (limiter_calls w ++ [(l, identifier, now w)]) (now w)
                        (next_id w) (trace w)).

Definition console_error (msg : string) : M unit := emit (Console ConsoleError msg).
Definition console_warn (msg : string) : M unit := emit (Console ConsoleWarn msg).
Definition console_log (msg : string) : M unit := emit (Console ConsoleLog msg).

(** ** The Redis client

    A command returns [None] when it throws (store unreachable). Entries
    carry their expiry instant; an expired entry is not there any more. *)

Module Redis.

Definition alive (t : Z) (e : entry) : bool := t <? expires e.

Definition live (w : World) (k : string) : option CacheVal :=
  match cache w !! k with
  | Some e => if alive (now w) e then Some (value e) else None
  | None => None
  end.

Definition get (key : string) : M (option (option CacheVal)) :=
  fun w =>
    if redis_up w then (emit (RedisCall (RGet key) true) ;; ret (Some (live w key))) w
    else (emit (RedisCall (RGet key) false) ;; ret None) w.

Definition setex (key : string) (ttl : Z) (v : CacheVal) : M (option unit) :=
  fun w =>
    if redis_up w then
      (emit (RedisCall (RSetex key ttl) true) ;;
       set_cache (<[key := mkEntry (now w + ttl * 1000) v]> (cache w)) ;;
       ret (Some tt)) w
    else (emit (RedisCall (RSetex key ttl) false) ;; ret None) w.

Definition matching (pattern : string) (w : World) : list string :=
  filter (fun k => Glob.glob_match pattern k = true)
         (fst <$> map_to_list (filter (fun kv => alive (now w) kv.2 = true) (cache w))).

Definition keys (pattern : string) : M (option (list string)) :=
  fun w =>
    if redis_up w then
      (emit (RedisCall (RKeys pattern) true) ;; ret (Some (matching pattern w))) w
    else (emit (RedisCall (RKeys pattern) false) ;; ret None) w.

Definition del (ks : list string) : M (option unit) :=
  fun w =>
    if redis_up w then
      (emit (RedisCall (RDel ks) true) ;;
       set_cache (foldr delete (cache w) ks) ;;
       ret (Some tt)) w
    else (emit (RedisCall (RDel ks) false) ;; ret None) w.

End Redis.

(** ** CacheService *)

Module CacheService.

Definition TTL : Z := 60.

Definition get (key : string) : M (option CacheVal) :=
  r <- Redis.get key ;;
  match r with
  | Some data => ret data
  | None => console_error "Cache get error:" ;; ret None
  end.

Definition set (key : string) (v : CacheVal) : M unit :=
  r <- Redis.setex key TTL v ;;
  match r with
  | Some _ => ret tt
  | None => console_error "Cache set error:"
  end.

Definition del (key : string) : M unit :=
  r <- Redis.del [key] ;;
  match r with
  | Some _ => ret tt
  | None => console_error "Cache delete error:"
  end.

Definition invalidatePattern (pattern : string) : M unit :=
  r <- Redis.keys pattern ;;
  match r with
  | None => console_error "Cache invalidate pattern error:"
  | Some ks =>
      if (0 <? Z.of_nat (length ks)) then
        r' <- Redis.del ks ;;
        match r' with
        | Some _ => ret tt
        | None => console_error "Cache invalidate pattern error:"
        end
      else ret tt
  end.

Definition getUserTasksKey (userId : string) : string := "tasks:" +:+ userId.

Definition getUserTaskKey (userId taskId : string) : string :=
  "task:" +:+ userId +:+ ":" +:+ taskId.

Definition invalidateUserCache (userId : string) : M unit :=
  invalidatePattern ("*:" +:+ userId +:+ "*").

End CacheService.

(** ** Request bodies and the zod schemas

    A parsed JSON body. An object is the list of its members, keys
    distinct, in the order in which [for (key in object)] enumerates them,
    as [JSON.parse] produces it. Characters are code units below 256, and
    string length is the length zod compares ([.length], one unit per
    character of the model). Numbers are left as integers: no schema of
    the program looks into one. *)

#[local] Unset Elimination Schemes.
Inductive json :=
| JNull
| JBool (b : bool)
| JNum (n : Z)
| JStr (s : string)
| JArr (items : list json)
| JObj (members : list (string * json)).
#[local] Set Elimination Schemes.

(** [object[key]], [None] for [undefined]. *)
Fixpoint member (key : string) (members : list (string * json)) : option json :=
  match members with
  | [] => None
  | (k, v) :: rest => if String.eqb k key then Some v else member key rest
  end.

(** The schemas, with the issue codes, paths and default messages of
    zod 3. *)
Module Zod.

Inductive IssueCode :=
| invalid_type
| too_small
| too_big
| invalid_enum_value
| invalid_union
| unrecognized_keys (keys : list string).

Record Issue := mkIssue {
  code : IssueCode;
  path : list string;
  message : string
}.

(** The output of [TaskCreateSchema]: the four declared fields only.
    [tc_due_date] stands for the [Date] that the transform builds from the
    text. *)
Record TaskCreate := mkTaskCreate {
  tc_title : string;
  tc_description : option string;
  tc_status : Status;
  tc_due_date : option string
}.

Inductive SafeParse :=
| ParseOk (data : TaskCreate)
| ParseErr (issues : list Issue).

Definition strlen (s : string) : Z := Z.of_nat (String.length s).

(** zod's name for the type of a value that is there. *)
Definition parsed_type (v : json) : string :=
  match v with
  | JNull => "null"
  | JBool _ => "boolean"
  | JNum _ => "number"
  | JStr _ => "string"
  | JArr _ => "array"
  | JObj _ => "object"
  end.

(** [array.join(separator)] *)
Fixpoint join (separator : string) (l : list string) : string :=
  match l with
  | [] => EmptyString
  | [x] => x
  | x :: rest => x +:+ separator +:+ join separator rest
  end.

(** [util.joinValues]: each string between single quotes. *)
Definition joinValues (l : list string) (separator : string) : string :=
  join separator ((fun s => "'" +:+ s +:+ "'") <$> l).

(** The default message of an [invalid_type] issue on a value that is
    there; on [undefined] it is [Required]. *)
Definition expected (what : string) (v : json) : string :=
  "Expected " +:+ what +:+ ", received " +:+ parsed_type v.

(** [title: z.string().min(1, ...).max(120, ...)] *)
Definition parse_title (v : option json) : list Issue * option string :=
  match v with
  | None => ([mkIssue invalid_type ["title"] "Required"], None)
  | Some (JStr s) =>
      let small := if strlen s <? 1
                   then [mkIssue too_small ["title"] "Title is required"] else [] in
      let big := if 120 <? strlen s
                 then [mkIssue too_big ["title"] "Title must be less than 120 characters"]
                 else [] in
      (small ++ big, Some s)
  | Some v => ([mkIssue invalid_type ["title"] (expected "string" v)], None)
  end.

(** [description: z.string().max(2000, ...).optional()] *)
Definition parse_description (v : option json) : list Issue * option string :=
  match v with
  | None => ([], None)
  | Some (JStr s) =>
      (if 2000 <? strlen s
       then [mkIssue too_big ["description"] "Description must be less than 2000 characters"]
       else [], Some s)
  | Some v => ([mkIssue invalid_type ["description"] (expected "string" v)], None)
  end.

Definition status_of_string (s : string) : option Status :=
  if String.eqb s "todo" then Some todo
  else if String.eqb s "in_progress" then Some in_progress
  else if String.eqb s "done" then Some done_
  else if String.eqb s "archived" then Some archived
  else None.

Definition status_name (st : Status) : string :=
  match st with
  | todo => "todo"
  | in_progress => "in_progress"
  | done_ => "done"
  | archived => "archived"
  end.

Definition status_options : list string := ["todo"; "in_progress"; "done"; "archived"].

(** [status: z.enum(["todo", "in_progress", "done", "archived"])], with no
    [.optional()]: an absent status is an issue. *)
Definition parse_status (v : option json) : list Issue * option Status :=
  match v with
  | None => ([mkIssue invalid_type ["status"] "Required"], None)
  | Some (JStr s) =>
      match status_of_string s with
      | Some st => ([], Some st)
      | None =>
          ([mkIssue invalid_enum_value ["status"]
              ("Invalid enum value. Expected " +:+ joinValues status_options " | " +:+
               ", received '" +:+ s +:+ "'")], None)
      end
  | Some v =>
      ([mkIssue invalid_type ["status"] (expected (joinValues status_options " | ") v)],
       None)
  end.

(** [due_date: z.union([z.string(), z.date()]).optional().transform(...)]:
    a JSON body can only carry the string alternative; the transform maps
    the empty string to [undefined] and any other to a [Date]. *)
Definition parse_due_date (v : option json) : list Issue * option string :=
  match v with
  | None => ([], None)
  | Some (JStr s) => ([], if String.eqb s "" then None else Some s)
  | Some _ => ([mkIssue invalid_union ["due_date"] "Invalid input"], None)
  end.

Definition shape : list string := ["title"; "description"; "status"; "due_date"].

Definition in_shape (k : string) : bool := existsb (String.eqb k) shape.

(** [for (const key in data) if (!shapeKeys.includes(key)) extraKeys.push(key)] *)
Definition extra_keys (members : list (string * json)) : list string :=
  filter (fun k => in_shape k = false) (fst <$> members).

(** [.strict()]: keys outside the shape are one [unrecognized_keys] issue. *)
Definition strict_issues (members : list (string * json)) : list Issue :=
  match extra_keys members with
  | [] => []
  | ks => [mkIssue (unrecognized_keys ks) []
             ("Unrecognized key(s) in object: " +:+ joinValues ks ", ")]
  end.

(** Every field is checked and the issues are collected in the order of
    the shape, the unrecognized keys last. *)
Definition create_issues (members : list (string * json)) : list Issue :=
  (parse_title (member "title" members)).1 ++
  (parse_description (member "description" members)).1 ++
  (parse_status (member "status" members)).1 ++
  (parse_due_date (member "due_date" members)).1 ++
  strict_issues members.

Definition TaskCreateSchema_safeParse (body : json) : SafeParse :=
  match body with
  | JObj members =>
      match create_issues members,
            (parse_title (member "title" members)).2,
            (parse_status (member "status" members)).2 with
      | [], Some t, Some s =>
          ParseOk (mkTaskCreate t (parse_description (member "description" members)).2 s
                                (parse_due_date (member "due_date" members)).2)
      | issues, _, _ => ParseErr issues
      end
  | v => ParseErr [mkIssue invalid_type [] (expected "object" v)]
  end.

(** The output of [TaskUpdateSchema = TaskCreateSchema.partial().strict()]. *)
Record TaskUpdate := mkTaskUpdate {
  tu_title : option string;
  tu_description : option string;
  tu_status : option Status;
  tu_due_date : option string
}.

Inductive SafeParseUpdate :=
| UpdateOk (data : TaskUpdate)
| UpdateErr (issues : list Issue).

Definition optional {A} (p : option json -> list Issue * option A) (v : option json)
  : list Issue * option A :=
  match v with
  | None => ([], None)
  | Some _ => p v
  end.

Definition update_issues (members : list (string * json)) : list Issue :=
  (optional parse_title (member "title" members)).1 ++
  (parse_description (member "description" members)).1 ++
  (optional parse_status (member "status" members)).1 ++
  (parse_due_date (member "due_date" members)).1 ++
  strict_issues members.

Definition TaskUpdateSchema_safeParse (body : json) : SafeParseUpdate :=
  match body with
  | JObj members =>
      match update_issues members with
      | [] =>
          UpdateOk (mkTaskUpdate (optional parse_title (member "title" members)).2
                                 (parse_description (member "description" members)).2
                                 (optional parse_status (member "status" members)).2
                                 (parse_due_date (member "due_date" members)).2)
      | issues => UpdateErr issues
      end
  | v => UpdateErr [mkIssue invalid_type [] (expected "object" v)]
  end.

End Zod.

(** ** Rate limiting *)

Module Ratelimit.

(** [Ratelimit.slidingWindow(tokens, "60 s")] of each limiter. *)
Definition tokens (l : Limiter) : Z :=
  match l with
  | readLimiter => 60
  | writeLimiter => 20
  | authLimiter => 10
  end.

Definition window_ms : Z := 60000.

Definition prefix (l : Limiter) : string :=
  match l with
  | readLimiter => "rl:read"
  | writeLimiter => "rl:write"
  | authLimiter => "rl:auth"
  end.

Record RateLimitResult := mkRateLimitResult {
  success : bool;
  limit : Z;
  remaining : Z;
  reset : Z;
  retryAfter : option Z
}.

(** [Math.ceil(a / b)] on integers, [b > 0]. *)
Definition ceil_div (a b : Z) : Z := - ((- a) / b).

(** [limiter.limit(identifier)]: the library call. It is answered from the
    calls made before it and the clock, and counts as a call from then on,
    so that the same call made again need not get the same answer. *)
Definition limiter_limit (l : Limiter) (identifier : string) : M (option RatelimitResponse) :=
  fun w => (limit_reply w l identifier, (record_call l identifier w).2).

(** The version of [checkRateLimit] that talks to the store. *)
Definition checkRateLimit (l : Limiter) (identifier : string) : M RateLimitResult :=
  r <- limiter_limit l identifier ;;
  match r with
  | Some result =>
      t <- get_now ;;
      ret (mkRateLimitResult (rsp_success result) (rsp_limit result)
             (rsp_remaining result) (rsp_reset result)
             (if rsp_success result then None
              else Some (ceil_div (rsp_reset result - t) 1000)))
  | None =>
      console_error "Rate limit check error:" ;;
      t <- get_now ;;
      ret (mkRateLimitResult true 60 59 (t + 60000) None)
  end.

(** The version of [checkRateLimit] behind the mock store, "temporarily
    bypass rate limiting for debugging": the limiter is never consulted. *)
Definition checkRateLimit_bypass (l : Limiter) (identifier : string) : M RateLimitResult :=
  console_log "Rate limit bypassed for:" ;;
  t <- get_now ;;
  ret (mkRateLimitResult true 60 59 (t + 60000) None).

(** [n] checks in a row with the same limiter and identifier. *)
Fixpoint checks (check : Limiter -> string -> M RateLimitResult)
  (l : Limiter) (identifier : string) (n : nat) : M (list RateLimitResult) :=
  match n with
  | O => ret []
  | S n' =>
      r <- check l identifier ;;
      rs <- checks check l identifier n' ;;
      ret (r :: rs)
  end.

Definition createRateLimitKey (userId : option string) (ip : string) : string :=
  match userId with
  | Some u => if String.eqb u "" then ip else u +:+ ":" +:+ ip
  | None => ip
  end.

Definition logRateLimitHit (identifier path method : string) : M unit :=
  console_warn "Rate limit exceeded:".

End Ratelimit.

(** ** CORS headers *)

Module Csp.

(** [s.split(',')] *)
Fixpoint split_comma (s : string) : list string :=
  match s with
  | EmptyString => [EmptyString]
  | String c s' =>
      if Ascii.eqb c "," then EmptyString :: split_comma s'
      else match split_comma s' with
           | h :: t => String c h :: t
           | [] => [String c EmptyString]
           end
  end.

(** [process.env.CORS_ORIGINS?.split(',') || ['http://localhost:3000']] *)
Definition allowedOrigins (CORS_ORIGINS : option string) : list string :=
  match CORS_ORIGINS with
  | Some s => split_comma s
  | None => ["http://localhost:3000"]
  end.

Definition includes (l : list string) (x : string) : bool := existsb (String.eqb x) l.

(** JavaScript truthiness of a string. *)
Definition truthy (s : string) : bool := negb (String.eqb s "").

Definition base_headers : gmap string string :=
  <["Access-Control-Max-Age" := "86400"]>
  (<["Access-Control-Allow-Headers" := "Content-Type, Authorization, X-Requested-With"]>
  (<["Access-Control-Allow-Methods" := "GET, POST, PUT, DELETE, OPTIONS"]> ∅)).

Definition allow (o : string) (h : gmap string string) : gmap string string :=
  <["Access-Control-Allow-Credentials" := "true"]>
  (<["Access-Control-Allow-Origin" := o]> h).

Definition getCORSHeaders (CORS_ORIGINS : option string) (origin : option string)
  : gmap string string :=
  match origin with
  | Some o =>
      if String.eqb o "null" then allow "null" base_headers
      else if truthy o && includes (allowedOrigins CORS_ORIGINS) o then allow o base_headers
      else base_headers
  | None => base_headers
  end.

End Csp.

(** ** The tasks table behind PostgREST *)

Module Db.

Record PgError := mkPgError { pg_code : string; pg_message : string }.

(** [.single()] on a result that is not exactly one row. *)
Definition no_rows : PgError :=
  mkPgError "PGRST116" "JSON object requested, multiple (or no) rows returned".

Definition unavailable (msg : string) : PgError := mkPgError "08006" msg.

Definition rls_violation : PgError :=
  mkPgError "42501" "new row violates row-level security policy".

(** Modelled from the spec: the row-level security policies of the schema
    file ([tasks_select_own], [tasks_insert_own], [tasks_update_own],
    [tasks_delete_own]), which is not among the sources: a query of the
    session client sees and affects only the rows owned by its user; the
    service client sees every row. *)
Definition visible (r : Role) (t : Task) : bool :=
  match r with
  | AsUser u => String.eqb (user_id t) u
  | ServiceRole => true
  end.

Definition has_id (i : string) (t : Task) : bool := String.eqb (id t) i.

Definition single (rows : list Task) : PgError + Task :=
  match rows with
  | [t] => inr t
  | _ => inl no_rows
  end.

Definition is_ok {A} (r : PgError + A) : bool :=
  match r with inl _ => false | inr _ => true end.

Definition reply {A} (r : Role) (op : DbOp) (res : PgError + A) : M (PgError + A) :=
  emit (DbCall r op (is_ok res)) ;; ret res.

(** [from('tasks').select('*').eq('id', id).single()] *)
Definition select_single (r : Role) (i : string) : M (PgError + Task) :=
  fun w =>
    match db_fault w with
    | Some msg => reply r SELECT (inl (unavailable msg)) w
    | None =>
        reply r SELECT (single (filter (fun t => visible r t && has_id i t = true) (tasks w))) w
    end.

Definition apply_update (u : Zod.TaskUpdate) (t_now : Z) (t : Task) : Task :=
  mkTask (id t) (user_id t)
    (default (title t) (Zod.tu_title u))
    (match Zod.tu_description u with Some d => Some d | None => description t end)
    (default (status t) (Zod.tu_status u))
    (match Zod.tu_due_date u with Some d => Some d | None => due_date t end)
    (created_at t) t_now.

(** [from('tasks').update(data).eq('id', id).select().single()]: the
    matched rows are rewritten, [updated_at] is refreshed on the way (the
    timestamp trigger of the schema file, as the data model describes it);
    a result that is not one row is an error and changes nothing. *)
Definition update_single (r : Role) (u : Zod.TaskUpdate) (i : string) : M (PgError + Task) :=
  fun w =>
    match db_fault w with
    | Some msg => reply r UPDATE (inl (unavailable msg)) w
    | None =>
        let hit := fun t => visible r t && has_id i t in
        match filter (fun t => hit t = true) (tasks w) with
        | [t] =>
            (set_tasks (map (fun t => if hit t then apply_update u (now w) t else t) (tasks w)) ;;
             reply r UPDATE (inr (apply_update u (now w) t))) w
        | _ => reply r UPDATE (inl no_rows) w
        end
    end.

(** [from('tasks').delete().eq('id', id)]: no row matched is not an error. *)
Definition delete_eq (r : Role) (i : string) : M (PgError + unit) :=
  fun w =>
    match db_fault w with
    | Some msg => reply r DELETE_ (inl (unavailable msg)) w
    | None =>
        (set_tasks (filter (fun t => negb (visible r t && has_id i t) = true) (tasks w)) ;;
         reply r DELETE_ (inr tt)) w
    end.

(** The row sent by [insert([taskData])]. *)
Record TaskInsert := mkTaskInsert {
  ins_data : Zod.TaskCreate;
  ins_user_id : string
}.

(** [from('tasks').insert([taskData]).select().single()] *)
Definition insert_single (r : Role) (d : TaskInsert) : M (PgError + Task) :=
  fun w =>
    match db_fault w with
    | Some msg => reply r INSERT (inl (unavailable msg)) w
    | None =>
        let row := mkTask (pretty (next_id w)) (ins_user_id d)
                     (Zod.tc_title (ins_data d)) (Zod.tc_description (ins_data d))
                     (Zod.tc_status (ins_data d)) (Zod.tc_due_date (ins_data d))
                     (now w) (now w) in
        if visible r row then
          (bump_id ;; set_tasks (row :: tasks w) ;; reply r INSERT (inr row)) w
        else reply r INSERT (inl rls_violation) w
    end.

(** The columns returned by the archival queries:
    [select('id, title, user_id, updated_at')]. *)
Record ArchiveRow := mkArchiveRow {
  ar_id : string;
  ar_title : string;
  ar_user_id : string;
  ar_updated_at : Z
}.

Definition project (t : Task) : ArchiveRow :=
  mkArchiveRow (id t) (title t) (user_id t) (updated_at t).

(** [.eq('status', 'done').lt('updated_at', cutoff)] *)
Definition archivable (cutoff : Z) (t : Task) : bool :=
  Status_eqb (status t) done_ && (updated_at t <? cutoff).

Definition archive_row (t_now : Z) (t : Task) : Task :=
  mkTask (id t) (user_id t) (title t) (description t) archived (due_date t)
         (created_at t) t_now.

(** [update({status: 'archived', updated_at: now}).eq(...).lt(...).select(...)] *)
Definition archive_update (r : Role) (cutoff : Z) : M (PgError + list ArchiveRow) :=
  fun w =>
    match db_fault w with
    | Some msg => reply r UPDATE (inl (unavailable msg)) w
    | None =>
        let hit := fun t => visible r t && archivable cutoff t in
        (set_tasks (map (fun t => if hit t then archive_row (now w) t else t) (tasks w)) ;;
         reply r UPDATE
           (inr (project <$> (archive_row (now w) <$> filter (fun t => hit t = true) (tasks w))))) w
    end.

(** [select('id, title, user_id, updated_at').eq(...).lt(...)] *)
Definition archivable_select (r : Role) (cutoff : Z) : M (PgError + list ArchiveRow) :=
  fun w =>
    match db_fault w with
    | Some msg => reply r SELECT (inl (unavailable msg)) w
    | None =>
        reply r SELECT
          (inr (project <$> filter (fun t => (visible r t && archivable cutoff t) = true) (tasks w))) w
    end.

End Db.

(** ** Requests and responses *)

Record Req := mkReq {
  auth_user : option string;   (* user.id of supabase.auth.getUser(), None: no session *)
  ip : string;                 (* x-forwarded-for, else x-real-ip, else "unknown" *)
  body : option json           (* request.json(); None: it throws *)
}.

Inductive Payload :=
| PError (msg : string)
| PRateLimited (retry : option Z)
| PValidation (details : list Zod.Issue)
| PData (t : Task)
| PCachedData (v : CacheVal)
| PFetched (t : Task)
| PMessage (msg : string)
| PArchived (count : Z) (rows : list Db.ArchiveRow) (cutoff : Z)
| PArchivable (count : Z) (rows : list Db.ArchiveRow) (cutoff : Z).

Record Response := mkResponse {
  status_code : Z;
  payload : Payload;
  headers : list (string * string)
}.

(** [NextResponse.json(payload, { status, headers })] *)
Definition respond (code : Z) (p : Payload) (h : list (string * string)) : M Response :=
  emit (Responded code) ;; ret (mkResponse code p h).

Definition limit_headers (rl : Ratelimit.RateLimitResult) : list (string * string) :=
  [("X-RateLimit-Limit", pretty (Ratelimit.limit rl));
   ("X-RateLimit-Remaining", pretty (Ratelimit.remaining rl))].

Definition retry_header (rl : Ratelimit.RateLimitResult) : string * string :=
  ("Retry-After", match Ratelimit.retryAfter rl with Some n => pretty n | None => "60" end).

Definition logger (lvl : LogLevel) (msg : string) : M unit := emit (Logged lvl msg).

(** [logger.apiResponse]: the level follows the status code. *)
Definition apiResponse (code : Z) : M unit :=
  logger (if 400 <=? code then ERROR else if 300 <=? code then WARN else INFO) "API response".

(** ** /api/tasks/{id} *)

Module TaskRoute.

Definition GET (req : Req) (i : string) : M Response :=
  match auth_user req with
  | None => respond 401 (PError "Unauthorized") []
  | Some uid =>
      let rateLimitKey := Ratelimit.createRateLimitKey (Some uid) (ip req) in
      rl <- Ratelimit.checkRateLimit readLimiter rateLimitKey ;;
      if negb (Ratelimit.success rl) then
        Ratelimit.logRateLimitHit rateLimitKey ("/api/tasks/" +:+ i) "GET" ;;
        respond 429 (PRateLimited (Ratelimit.retryAfter rl)) (retry_header rl :: limit_headers rl)
      else
        let cacheKey := CacheService.getUserTaskKey uid i in
        cachedTask <- CacheService.get cacheKey ;;
        match cachedTask with
        | Some v => respond 200 (PCachedData v) (limit_headers rl ++ [("X-Cache", "HIT")])
        | None =>
            r <- Db.select_single (AsUser uid) i ;;
            match r with
            | inl e =>
                if String.eqb (Db.pg_code e) "PGRST116"
                then respond 404 (PError "Task not found") []
                else console_error "Database error:" ;;
                     respond 500 (PError "Failed to fetch task") []
            | inr task =>
                CacheService.set cacheKey (CTask task) ;;
                respond 200 (PFetched task) (limit_headers rl ++ [("X-Cache", "MISS")])
            end
        end
  end.

Definition PUT (req : Req) (i : string) : M Response :=
  match auth_user req with
  | None => respond 401 (PError "Unauthorized") []
  | Some uid =>
      let rateLimitKey := Ratelimit.createRateLimitKey (Some uid) (ip req) in
      rl <- Ratelimit.checkRateLimit writeLimiter rateLimitKey ;;
      if negb (Ratelimit.success rl) then
        Ratelimit.logRateLimitHit rateLimitKey ("/api/tasks/" +:+ i) "PUT" ;;
        respond 429 (PRateLimited (Ratelimit.retryAfter rl)) (retry_header rl :: limit_headers rl)
      else
        match body req with
        | None => console_error "API Error:" ;; respond 500 (PError "Internal server error") []
        | Some b =>
            match Zod.TaskUpdateSchema_safeParse b with
            | Zod.UpdateErr issues => respond 400 (PValidation issues) []
            | Zod.UpdateOk data =>
                r <- Db.update_single (AsUser uid) data i ;;
                match r with
                | inl e =>
                    if String.eqb (Db.pg_code e) "PGRST116"
                    then respond 404 (PError "Task not found") []
                    else console_error "Database error:" ;;
                         respond 500 (PError "Failed to update task") []
                | inr task =>
                    CacheService.invalidateUserCache uid ;;
                    respond 200 (PData task) (limit_headers rl)
                end
            end
        end
  end.

Definition DELETE (req : Req) (i : string) : M Response :=
  match auth_user req with
  | None => respond 401 (PError "Unauthorized") []
  | Some uid =>
      let rateLimitKey := Ratelimit.createRateLimitKey (Some uid) (ip req) in
      rl <- Ratelimit.checkRateLimit writeLimiter rateLimitKey ;;
      if negb (Ratelimit.success rl) then
        Ratelimit.logRateLimitHit rateLimitKey ("/api/tasks/" +:+ i) "DELETE" ;;
        respond 429 (PRateLimited (Ratelimit.retryAfter rl)) (retry_header rl :: limit_headers rl)
      else
        r <- Db.delete_eq (AsUser uid) i ;;
        match r with
        | inl e =>
            console_error "Database error:" ;;
            respond 500 (PError "Failed to delete task") []
        | inr _ =>
            CacheService.invalidateUserCache uid ;;
            respond 200 (PMessage "Task deleted successfully") (limit_headers rl)
        end
  end.

End TaskRoute.

(** ** POST /api/tasks *)

Module TasksRoute.

(** [{ ...validationResult.data, user_id: user.id }] *)
Definition taskData (data : Zod.TaskCreate) (uid : string) : Db.TaskInsert :=
  Db.mkTaskInsert data uid.

Definition POST (req : Req) : M Response :=
  logger INFO "API request" ;;
  match auth_user req with
  | None =>
      logger WARN "Authentication failed" ;;
      apiResponse 401 ;;
      respond 401 (PError "Unauthorized") []
  | Some uid =>
      logger INFO "User authenticated for task creation" ;;
      let rateLimitKey := Ratelimit.createRateLimitKey (Some uid) (ip req) in
      rl <- Ratelimit.checkRateLimit writeLimiter rateLimitKey ;;
      if negb (Ratelimit.success rl) then
        Ratelimit.logRateLimitHit rateLimitKey "/api/tasks" "POST" ;;
        logger WARN "Rate limit exceeded" ;;
        apiResponse 429 ;;
        respond 429 (PRateLimited (Ratelimit.retryAfter rl))
          (retry_header rl :: limit_headers rl ++
           [("X-RateLimit-Reset", pretty (Ratelimit.reset rl))])
      else
        match body req with
        | None =>
            logger ERROR "API Error in POST /api/tasks" ;;
            apiResponse 500 ;;
            respond 500 (PError "Internal server error") []
        | Some b =>
            logger DEBUG "Task creation request body" ;;
            match Zod.TaskCreateSchema_safeParse b with
            | Zod.ParseErr issues =>
                logger WARN "Task creation validation failed" ;;
                apiResponse 400 ;;
                respond 400 (PValidation issues) []
            | Zod.ParseOk data =>
                logger DEBUG "Database operation" ;;
                r <- Db.insert_single (AsUser uid) (taskData data uid) ;;
                match r with
                | inl e =>
                    logger ERROR "Database error" ;;
                    apiResponse 500 ;;
                    respond 500 (PError "Failed to create task") []
                | inr task =>
                    logger DEBUG "Database operation" ;;
                    logger INFO "Task created successfully" ;;
                    CacheService.invalidateUserCache uid ;;
                    logger INFO "Cache invalidated" ;;
                    apiResponse 201 ;;
                    respond 201 (PData task) (limit_headers rl)
                end
            end
        end
  end.

End TasksRoute.

(** ** /api/admin/archive-tasks *)

Module ArchiveRoute.

Definition day_ms : Z := 24 * 60 * 60 * 1000.

(** [d = new Date(); d.setDate(d.getDate() - 30)]: the same local time of
    day, 30 calendar days back. The server's zone is taken to have a
    constant offset, as UTC has; across a daylight saving shift the result
    differs from this one by the shift. *)
Definition thirtyDaysAgo (t : Z) : Z := t - 30 * day_ms.

(** [!isDemo && !authHeader?.includes('Bearer')] *)
Definition rejected (NODE_ENV : string) (authHeader : option string) : bool :=
  let isDemo := String.eqb NODE_ENV "development" in
  negb isDemo &&
  negb (match authHeader with Some h => Glob.contains "Bearer" h | None => false end).

(** The sweep itself, at a given cutoff, with the service client. *)
Definition sweep (cutoff : Z) : M Response :=
  r <- Db.archive_update ServiceRole cutoff ;;
  match r with
  | inl e =>
      console_error "Error archiving tasks:" ;;
      respond 500 (PError "Failed to archive tasks") []
  | inr data =>
      console_log "Manual task archiving completed:" ;;
      respond 200 (PArchived (Z.of_nat (length data)) data cutoff) []
  end.

Definition POST (NODE_ENV : string) (authHeader : option string) : M Response :=
  if rejected NODE_ENV authHeader then respond 401 (PError "Unauthorized") []
  else
    t <- get_now ;;
    sweep (thirtyDaysAgo t).

Definition GET (NODE_ENV : string) (authHeader : option string) : M Response :=
  t <- get_now ;;
  r <- Db.archivable_select ServiceRole (thirtyDaysAgo t) ;;
  match r with
  | inl e =>
      console_error "Error checking archivable tasks:" ;;
      respond 500 (PError "Failed to check archivable tasks") []
  | inr data =>
      respond 200 (PArchivable (Z.of_nat (length data)) data (thirtyDaysAgo t)) []
  end.

End ArchiveRoute.

(** ** Runs of the mutating handlers and their event order *)

Module Pipeline.

Inductive Mutation :=
| DoPOST
| DoPUT (i : string)
| DoDELETE (i : string).

Definition run (m : Mutation) (req : Req) : M Response :=
  match m with
  | DoPOST => TasksRoute.POST req
  | DoPUT i => TaskRoute.PUT req i
  | DoDELETE i => TaskRoute.DELETE req i
  end.

(** The events a run adds to the trace. *)
Definition new_events (w w' : World) : list Event :=
  drop (length (trace w)) (trace w').

Definition is_cache_event (e : Event) : bool :=
  match e with
  | RedisCall _ _ => true
  | _ => false
  end.




(** The rows that belong to somebody else than [uid]. *)
Definition others (uid : string) (ts : list Task) : list Task :=
  filter (fun t => negb (String.eqb (user_id t) uid) = true) ts.

(** No row with this id is visible to [uid]: the id does not exist or its
    row belongs to somebody else. *)
Definition not_own (uid i : string) (ts : list Task) : Prop :=
  forall t, In t ts -> id t = i -> user_id t <> uid.

End Pipeline.

(** ** The world at another instant *)

Definition at_time (t : Z) (w : World) : World :=
  mkWorld (tasks w) (db_fault w) (cache w) (redis_up w) (limiter_oracle w)
          (limiter_calls w) t (next_id w) (trace w).

(** ** Ordering newest first

    [order('created_at', { ascending: false })] and
    [sort((a, b) => b.time - a.time)]: a stable sort on a descending key. *)

Module Order.

Section ByKey.

Context {A : Type} (key : A -> Z).

Fixpoint insert_desc (x : A) (l : list A) : list A :=
  match l with
  | [] => [x]
  | y :: l' => if key y <=? key x then x :: l else y :: insert_desc x l'
  end.

Definition sort_desc (l : list A) : list A := foldr insert_desc [] l.

(** Every element is at least as new as the ones after it. *)
Fixpoint descending (l : list A) : Prop :=
  match l with
  | [] => True
  | x :: l' => Forall (fun y => key y <= key x) l' /\ descending l'
  end.

End ByKey.

End Order.

(** ** GET /api/tasks *)

Module TasksList.

Inductive ListPayload :=
| LError (msg : string)
| LRateLimited (retry : option Z)
| LCached (v : CacheVal)
| LFetched (ts : list Task).

Record ListResponse := mkListResponse {
  l_status : Z;
  l_payload : ListPayload;
  l_headers : list (string * string)
}.

Definition respond_list (code : Z) (p : ListPayload) (h : list (string * string))
  : M ListResponse :=
  emit (Responded code) ;; ret (mkListResponse code p h).

(** [from("tasks").select("*").order("created_at", { ascending: false })] *)
Definition select_ordered (r : Role) : M (Db.PgError + list Task) :=
  fun w =>
    match db_fault w with
    | Some msg => Db.reply r SELECT (inl (Db.unavailable msg)) w
    | None =>
        Db.reply r SELECT
          (inr (Order.sort_desc created_at
                  (filter (fun t => Db.visible r t = true) (tasks w)))) w
    end.

Definition GET (req : Req) : M ListResponse :=
  logger INFO "API request" ;;
  match auth_user req with
  | None =>
      logger WARN "Authentication failed" ;;
      apiResponse 401 ;;
      respond_list 401 (LError "Unauthorized") []
  | Some uid =>
      logger INFO "User authenticated for tasks fetch" ;;
      let rateLimitKey := Ratelimit.createRateLimitKey (Some uid) (ip req) in
      rl <- Ratelimit.checkRateLimit readLimiter rateLimitKey ;;
      if negb (Ratelimit.success rl) then
        Ratelimit.logRateLimitHit rateLimitKey "/api/tasks" "GET" ;;
        logger WARN "Rate limit exceeded" ;;
        apiResponse 429 ;;
        respond_list 429 (LRateLimited (Ratelimit.retryAfter rl))
          (retry_header rl :: limit_headers rl ++
           [("X-RateLimit-Reset", pretty (Ratelimit.reset rl))])
      else
        let cacheKey := CacheService.getUserTasksKey uid in
        cachedTasks <- CacheService.get cacheKey ;;
        match cachedTasks with
        | Some v =>
            logger DEBUG "Cache hit" ;;
            apiResponse 200 ;;
            respond_list 200 (LCached v) (limit_headers rl ++ [("X-Cache", "HIT")])
        | None =>
            logger DEBUG "Cache miss" ;;
            logger DEBUG "Database operation" ;;
            r <- select_ordered (AsUser uid) ;;
            match r with
            | inl e =>
                logger ERROR "Database error" ;;
                apiResponse 500 ;;
                respond_list 500 (LError "Failed to fetch tasks") []
            | inr ts =>
                logger DEBUG "Database operation" ;;
                logger INFO "Tasks fetched successfully" ;;
                CacheService.set cacheKey (CTasks ts) ;;
                logger DEBUG "Cache set" ;;
                apiResponse 200 ;;
                respond_list 200 (LFetched ts) (limit_headers rl ++ [("X-Cache", "MISS")])
            end
        end
  end.

End TasksList.

(** ** The dashboard counters *)

Module Dashboard.

Definition count_status (st : Status) (ts : list Task) : nat :=
  length (filter (fun t => Status_eqb (status t) st = true) ts).

Record TaskStats := mkTaskStats {
  total : nat;
  n_todo : nat;
  n_in_progress : nat;
  n_done : nat;
  n_archived : nat
}.

Definition taskStats (safeTaskList : list Task) : TaskStats :=
  mkTaskStats (length safeTaskList)
    (count_status todo safeTaskList) (count_status in_progress safeTaskList)
    (count_status done_ safeTaskList) (count_status archived safeTaskList).

End Dashboard.

(** ** The in-memory log buffer *)

Module LogBuffer.

Record LogEntry := mkLogEntry {
  timestamp : Z;
  level : LogLevel;
  message : string;
  userId : option string;
  requestId : option string;
  ip : option string;
  userAgent : option string
}.

Definition maxLogs : nat := 1000.

(** [this.logs.push(entry); if (this.logs.length > this.maxLogs)
    this.logs = this.logs.slice(-this.maxLogs)] *)
Definition addLog (e : LogEntry) (logs : list LogEntry) : list LogEntry :=
  let pushed := logs ++ [e] in
  if (maxLogs <? length pushed)%nat then drop (length pushed - maxLogs) pushed
  else pushed.

Definition Level_eqb (a b : LogLevel) : bool :=
  match a, b with
  | DEBUG, DEBUG | INFO, INFO | WARN, WARN | ERROR, ERROR => true
  | _, _ => false
  end.

Definition level_name (l : LogLevel) : string :=
  match l with
  | DEBUG => "DEBUG"
  | INFO => "INFO"
  | WARN => "WARN"
  | ERROR => "ERROR"
  end.

Definition getAllLogs (logs : list LogEntry) : list LogEntry := logs.

Definition getLogsByLevel (l : LogLevel) (logs : list LogEntry) : list LogEntry :=
  filter (fun e => Level_eqb (level e) l = true) logs.

Definition is_user (u : string) (e : LogEntry) : bool :=
  match userId e with
  | Some v => String.eqb v u
  | None => false
  end.

Definition getLogsByUser (u : string) (logs : list LogEntry) : list LogEntry :=
  filter (fun e => is_user u e = true) logs.

(** A bound is [None] when it is an invalid date: every comparison with it
    is false. *)
Definition in_range (startTime endTime : option Z) (e : LogEntry) : bool :=
  match startTime, endTime with
  | Some s, Some t => (s <=? timestamp e) && (timestamp e <=? t)
  | _, _ => false
  end.

Definition getLogsByTimeRange (startTime endTime : option Z) (logs : list LogEntry)
  : list LogEntry :=
  filter (fun e => in_range startTime endTime e = true) logs.

Definition entry (t : Z) (l : LogLevel) (msg : string) : LogEntry :=
  mkLogEntry t l msg None None None None.

Definition info (t : Z) (msg : string) (logs : list LogEntry) : list LogEntry :=
  addLog (entry t INFO msg) logs.

(** [this.logs = []; this.info("Logs cleared")] *)
Definition clearLogs (t : Z) (logs : list LogEntry) : list LogEntry :=
  info t "Logs cleared" [].

(** The level of [logger.apiResponse]. *)
Definition response_level (statusCode : Z) : LogLevel :=
  if 400 <=? statusCode then ERROR else if 300 <=? statusCode then WARN else INFO.

End LogBuffer.

(** ** The request logger *)

Module RequestLogger.

Import LogBuffer.

Record LoggedReq := mkLoggedReq {
  r_method : string;
  r_url : string;
  r_forwarded_for : option string;
  r_real_ip : option string;
  r_user_agent : option string;
  r_authorization : option string
}.

(** [a || b] on header values. *)
Definition or_else (a : option string) (b : string) : string :=
  match a with
  | Some v => if Csp.truthy v then v else b
  | None => b
  end.

Definition client_ip (r : LoggedReq) : string :=
  or_else (r_forwarded_for r) (or_else (r_real_ip r) "unknown").

Definition client_agent (r : LoggedReq) : string := or_else (r_user_agent r) "unknown".

Definition jwt_user (r : LoggedReq) : option string :=
  match r_authorization r with
  | Some h => if Glob.is_prefix "Bearer " h then Some "extracted-from-jwt" else None
  | None => None
  end.

Definition skipped (skipPaths : option (list string)) (url : string) : bool :=
  match skipPaths with
  | Some ps => existsb (fun p => Glob.contains p url) ps
  | None => false
  end.

(** What a handler does: the buffer it leaves and either the response or
    the error it throws. *)
Definition Handler (R : Type) : Type :=
  LoggedReq -> list LogEntry -> (string + R) * list LogEntry.

(** [withRequestLogger(handler, { skipPaths })], with [logBody] and
    [logHeaders] unset as at its call sites; [t] is the clock, [rid] the
    generated request id. *)
Definition withRequestLogger {R} (status_of : R -> Z) (handler : Handler R)
  (skipPaths : option (list string)) (t : Z) (rid : string) : Handler R :=
  fun req logs =>
    if skipped skipPaths (r_url req) then handler req logs
    else
      let logs1 :=
        addLog (mkLogEntry t INFO "API request" (jwt_user req) (Some rid)
                           (Some (client_ip req)) (Some (client_agent req))) logs in
      match handler req logs1 with
      | (inr response, logs2) =>
          (inr response,
           addLog (mkLogEntry t (response_level (status_of response)) "API response"
                              (jwt_user req) (Some rid) None None) logs2)
      | (inl error, logs2) =>
          (inl error,
           addLog (mkLogEntry t ERROR "API handler error" (jwt_user req) (Some rid)
                              (Some (client_ip req)) (Some (client_agent req))) logs2)
      end.

End RequestLogger.

(** ** /api/admin/logs *)

Module AdminLogs.

Import LogBuffer.

(** The white space that [parseInt] skips, among the code units below
    256: tab, line feed, vertical tab, form feed, carriage return, space
    and the no-break space. *)
Definition is_space (c : ascii) : bool :=
  let n := N_of_ascii c in
  ((9 <=? n) && (n <=? 13))%N || (n =? 32)%N || (n =? 160)%N.

Fixpoint skip_space (s : string) : string :=
  match s with
  | EmptyString => EmptyString
  | String c s' => if is_space c then skip_space s' else s
  end.

Definition digit_val (c : ascii) : option Z :=
  let n := Z.of_N (N_of_ascii c) in
  if (48 <=? n) && (n <=? 57) then Some (n - 48)
  else if (97 <=? n) && (n <=? 122) then Some (n - 87)
  else if (65 <=? n) && (n <=? 90) then Some (n - 55)
  else None.

(** The longest prefix of digits of the radix; [None] when there is none. *)
Fixpoint digits (radix : Z) (acc : option Z) (s : string) : option Z :=
  match s with
  | EmptyString => acc
  | String c s' =>
      match digit_val c with
      | Some d =>
          if d <? radix then digits radix (Some (default 0 acc * radix + d)) s'
          else acc
      | None => acc
      end
  end.

(** [parseInt(s)]: leading white space, a sign, [0x] for hexadecimal, then
    digits; [None] is [NaN]. *)
Definition parseInt (s : string) : option Z :=
  let s1 := skip_space s in
  let '(sign, s2) :=
    match s1 with
    | String c r =>
        if Ascii.eqb c "-" then (-1, r)
        else if Ascii.eqb c "+" then (1, r)
        else (1, s1)
    | EmptyString => (1, s1)
    end in
  let '(radix, s3) :=
    match s2 with
    | String z (String x r) =>
        if Ascii.eqb z "0" && (Ascii.eqb x "x" || Ascii.eqb x "X") then (16, r)
        else (10, s2)
    | _ => (10, s2)
    end in
  match digits radix None s3 with
  | Some n => Some (sign * n)
  | None => None
  end.

(** [l.slice(0, end)]: [NaN] counts as 0, a negative end counts from the
    back. *)
Definition slice0 {A} (end_ : option Z) (l : list A) : list A :=
  match end_ with
  | None => []
  | Some n =>
      if n <? 0 then take (Z.to_nat (Z.of_nat (length l) + n)) l
      else take (Z.to_nat n) l
  end.

Record Query := mkQuery {
  q_level : option string;
  q_userId : option string;
  q_startTime : option string;
  q_endTime : option string;
  q_limit : option string
}.

(** A query parameter that is present and not empty. *)
Definition given (p : option string) : option string :=
  match p with
  | Some v => if Csp.truthy v then Some v else None
  | None => None
  end.

Record Stats := mkStats {
  s_total : nat;
  s_debug : nat;
  s_info : nat;
  s_warn : nat;
  s_error : nat;
  s_filtered : nat
}.

Record LogsResponse := mkLogsResponse {
  lr_logs : list LogEntry;
  lr_stats : Stats
}.

Section WithDates.

(** [new Date(text).getTime()], [None] for an invalid date. *)
Variable parseDate : string -> option Z.

Definition selected (q : Query) (buffer : list LogEntry) : list LogEntry :=
  let logs0 := getAllLogs buffer in
  let logs1 :=
    match given (q_level q) with
    | Some l => filter (fun e => String.eqb (level_name (level e)) l = true) logs0
    | None => logs0
    end in
  let logs2 :=
    match given (q_userId q) with
    | Some u => filter (fun e => is_user u e = true) logs1
    | None => logs1
    end in
  match given (q_startTime q), given (q_endTime q) with
  | Some s, Some t => getLogsByTimeRange (parseDate s) (parseDate t) buffer
  | _, _ => logs2
  end.

Definition limit_of (q : Query) : option Z :=
  parseInt (RequestLogger.or_else (q_limit q) "100").

Definition GET (q : Query) (buffer : list LogEntry) : LogsResponse :=
  let logs := slice0 (limit_of q) (Order.sort_desc timestamp (selected q buffer)) in
  mkLogsResponse logs
    (mkStats (length (getAllLogs buffer))
             (length (getLogsByLevel DEBUG buffer)) (length (getLogsByLevel INFO buffer))
             (length (getLogsByLevel WARN buffer)) (length (getLogsByLevel ERROR buffer))
             (length logs)).

End WithDates.

(** [logger.clearLogs(); logger.info("All logs cleared by admin")] *)
Definition DELETE (t : Z) (buffer : list LogEntry) : list LogEntry :=
  info t "All logs cleared by admin" (clearLogs t buffer).

(** The exported handlers, wrapped by the request logger; both answer 200. *)
Definition wrappedGET (parseDate : string -> option Z) (q : Query) (t : Z) (rid : string)
  : RequestLogger.Handler LogsResponse :=
  RequestLogger.withRequestLogger (fun _ => 200)
    (fun _ logs => (inr (GET parseDate q logs), logs)) None t rid.

Definition wrappedDELETE (t : Z) (rid : string) : RequestLogger.Handler unit :=
  RequestLogger.withRequestLogger (fun _ => 200)
    (fun _ logs => (inr tt, DELETE t logs)) None t rid.

End AdminLogs.

(** ** Security headers and the perimeter *)

Module Security.

(** [parts.join('; ')] *)
Fixpoint join (parts : list string) : string :=
  match parts with
  | [] => EmptyString
  | [p] => p
  | p :: rest => p +:+ "; " +:+ join rest
  end.

Definition cspDirectives (nonce : string) : list string :=
  ["default-src 'self'";
   "script-src 'self' 'nonce-" +:+ nonce +:+ "'";
   "style-src 'self' 'unsafe-inline'";
   "img-src 'self' data: https:";
   "connect-src 'self' https:";
   "frame-ancestors 'none'";
   "base-uri 'self'";
   "form-action 'self'";
   "object-src 'none'"].

Definition getCSPHeader (nonce : string) : string := join (cspDirectives nonce).

(** The entries of the object, in the order they are written. *)
Definition getSecurityHeaders (nonce : string) : list (string * string) :=
  [("Content-Security-Policy",
    join ["default-src 'self'";
          "script-src 'self' 'nonce-" +:+ nonce +:+ "'";
          "style-src 'self' 'unsafe-inline'";
          "img-src 'self' data: https:";
          "connect-src 'self' https:";
          "frame-ancestors 'none'";
          "base-uri 'self'";
          "form-action 'self'";
          "object-src 'none'"]);
   ("X-Content-Type-Options", "nosniff");
   ("Referrer-Policy", "no-referrer");
   ("Permissions-Policy", "camera=(), microphone=(), geolocation=()");
   ("X-Frame-Options", "DENY");
   ("Strict-Transport-Security", "max-age=31536000; includeSubDomains")].

End Security.

Module Middleware.

Record MwReq := mkMwReq {
  url : string;
  method : string;
  pathname : string;
  origin : option string;       (* request.headers.get("origin") *)
  user : option string          (* the user of supabase.auth.getUser() *)
}.

(** What the middleware returns: [NextResponse.next()], a response of its
    own with a status, a redirect, or the session response with the headers
    set on it. *)
Inductive MwResult :=
| Next
| Own (code : Z) (hs : gmap string string)
| Redirect (location : string)
| Session (hs : gmap string string).

Definition lower_ascii (c : ascii) : ascii :=
  let n := N_of_ascii c in
  if ((65 <=? n) && (n <=? 90))%N then ascii_of_N (n + 32) else c.

Fixpoint lower (s : string) : string :=
  match s with
  | EmptyString => EmptyString
  | String c s' => String (lower_ascii c) (lower s')
  end.

(** [headers.set(name, value)]: header names are case-insensitive and kept
    in lower case. *)
Definition set (name value : string) (hs : gmap string string) : gmap string string :=
  <[lower name := value]> hs.

(** [Object.entries(o).forEach(([k, v]) => response.headers.set(k, v))] *)
Definition set_all (entries : list (string * string)) (hs : gmap string string)
  : gmap string string :=
  fold_left (fun h kv => set kv.1 kv.2 h) entries hs.

(** [origin || undefined] *)
Definition origin_or_undefined (o : option string) : option string :=
  match o with
  | Some v => if Csp.truthy v then Some v else None
  | None => None
  end.

(** The names that [getCORSHeaders] can set. *)
Definition cors_names : list string :=
  ["Access-Control-Allow-Credentials"; "Access-Control-Allow-Origin";
   "Access-Control-Max-Age"; "Access-Control-Allow-Headers";
   "Access-Control-Allow-Methods"].

Definition auth_page (u : string) : bool :=
  Glob.contains "/signup" u || Glob.contains "/login" u.

(** The middleware that sets the security and CORS headers; [session] are
    the headers of the response of the session client, [nonce] the
    generated nonce. *)
Definition middleware (CORS_ORIGINS : option string) (nonce : string)
  (session : gmap string string) (req : MwReq) : MwResult :=
  if auth_page (url req) then Next
  else
    let corsHeaders := Csp.getCORSHeaders CORS_ORIGINS (origin_or_undefined (origin req)) in
    if String.eqb (method req) "OPTIONS" then Own 204 corsHeaders
    else
      Session
        (set_all (map_to_list corsHeaders)
           (set_all (Security.getSecurityHeaders nonce) (set "x-nonce" nonce session))).

Definition isProtectedRoute (p : string) : bool :=
  Glob.is_prefix "/dashboard" p || Glob.is_prefix "/tasks" p ||
  Glob.is_prefix "/api/tasks" p.

(** The middleware that guards the protected routes. *)
Definition guard (session : gmap string string) (req : MwReq) : MwResult :=
  if auth_page (url req) then Next
  else if isProtectedRoute (pathname req) &&
          match user req with Some _ => false | None => true end
  then Redirect "/login"
  else Session session.

End Middleware.

(** ** POST /api/auth/logout *)

Module Logout.

(** The ternary binds looser than [||]:
    [(nextUrl.origin || host?.startsWith('localhost')) ? 'http://localhost:3000'
     : (`https://${host}` || 'http://localhost:3000')]. *)
Definition origin (nextUrl_origin : string) (host : option string) : string :=
  if Csp.truthy nextUrl_origin ||
     match host with
     | Some h => Glob.is_prefix "localhost" h
     | None => false
     end
  then "http://localhost:3000"
  else
    let d := "https://" +:+ match host with Some h => h | None => "null" end in
    if Csp.truthy d then d else "http://localhost:3000".

(** The redirect target; [signOutError] is the error of [auth.signOut()]. *)
Definition POST (nextUrl_origin : string) (host : option string)
  (signOutError : option string) : string :=
  match signOutError with
  | Some _ => origin nextUrl_origin host +:+ "/dashboard?error=Could not sign out"
  | None => origin nextUrl_origin host +:+ "/login"
  end.

(** The other version of the route takes [request.nextUrl.origin] as it is. *)
Definition POST_plain (nextUrl_origin : string) (signOutError : option string) : string :=
  match signOutError with
  | Some _ => nextUrl_origin +:+ "/dashboard?error=Could not sign out"
  | None => nextUrl_origin +:+ "/login"
  end.

End Logout.

(** ** The task endpoints side by side *)

Module Api.

Inductive Endpoint :=
| ListTasks
| CreateTask
| GetTask (i : string)
| UpdateTask (i : string)
| DeleteTask (i : string).

(** The status and the headers of the response of an endpoint. *)
Definition serve (e : Endpoint) (req : Req) : M (Z * list (string * string)) :=
  match e with
  | ListTasks =>
      r <- TasksList.GET req ;; ret (TasksList.l_status r, TasksList.l_headers r)
  | CreateTask => r <- TasksRoute.POST req ;; ret (status_code r, headers r)
  | GetTask i => r <- TaskRoute.GET req i ;; ret (status_code r, headers r)
  | UpdateTask i => r <- TaskRoute.PUT req i ;; ret (status_code r, headers r)
  | DeleteTask i => r <- TaskRoute.DELETE req i ;; ret (status_code r, headers r)
  end.

(** GET is limited as a read, the others as writes. *)
Definition limiter_of (e : Endpoint) : Limiter :=
  match e with
  | ListTasks | GetTask _ => readLimiter
  | _ => writeLimiter
  end.

(** A call to the table or to the cache store. *)
Definition is_backend_event (e : Event) : bool :=
  match e with
  | DbCall _ _ _ | RedisCall _ _ => true
  | _ => false
  end.

End Api.

(** ** Sample data

    A small world used by the closed examples: two owners with one task
    each, cache entries of three owners, a limiter that lets every request
    through. *)

Module Sample.

Definition task (i u : string) : Task :=
  mkTask i u "Buy milk" None todo None 0 0.

Definition store : gmap string entry :=
  <["tasks:u1" := mkEntry 60000 (CTasks [task "t1" "u1"])]>
  (<["task:u1:t1" := mkEntry 60000 (CTask (task "t1" "u1"))]>
  (<["tasks:u10" := mkEntry 60000 (CTasks [])]>
  (<["tasks:[x]" := mkEntry 60000 (CTasks [])]> ∅))).

Definition allow_all (l : Limiter) (key : string) (earlier : list Z) (t : Z)
  : option RatelimitResponse :=
  Some (mkRatelimitResponse true (Ratelimit.tokens l) (Ratelimit.tokens l - 1) 60000).

Definition world (up : bool) : World :=
  mkWorld [task "t1" "u1"; task "t2" "u2"] None store up
          allow_all [] 1000 7 [].

(** [{ title: "Buy milk", status: "todo" }] *)
Definition create_body : json :=
  JObj [("title", JStr "Buy milk"); ("status", JStr "todo")].

(** The same world with a limiter whose store call throws. *)
Definition limiter_down : World :=
  mkWorld [task "t1" "u1"; task "t2" "u2"] None store true
          (fun _ _ _ _ => None) [] 1000 7 [].

(** A table with tasks that are done and old, done and recent, and not
    done, of two owners; [now] is day 100, the cutoff of the sweep day 70. *)
Definition day (n : Z) : Z := n * 86400000.

Definition aged (i u : string) (st : Status) (d : Z) : Task :=
  mkTask i u "Buy milk" None st None (day d) (day d).

Definition archive_world : World :=
  mkWorld [aged "t1" "u1" done_ 10; aged "t2" "u2" done_ 69; aged "t3" "u1" done_ 70;
           aged "t4" "u2" todo 10; aged "t5" "u1" archived 10]
          None ∅ true allow_all [] (day 100) 7 [].

(** A title of [n] characters. *)
Fixpoint long (n : nat) : string :=
  match n with
  | O => EmptyString
  | S n' => String "a" (long n')
  end.

(** [{ title: "Buy milk", status: "todo", user_id: "u2" }] *)
Definition impersonating_fields : list (string * json) :=
  [("title", JStr "Buy milk"); ("status", JStr "todo"); ("user_id", JStr "u2")].

Definition impersonating_body : json := JObj impersonating_fields.

(** [{ title, status }] and [{ title }] *)
Definition titled (s : string) (st : Status) : json :=
  JObj [("title", JStr s); ("status", JStr (Zod.status_name st))].

Definition title_only (s : string) : json :=
  JObj [("title", JStr s)].

Definition req (uid : string) (b : option json) : Req :=
  mkReq (Some uid) "203.0.113.7" b.

End Sample.

(** ** Further sample data *)

Module Scenario.

(** A request without a session. *)
Definition anonymous : Req := mkReq None "203.0.113.7" None.

(** The sample world with limiters that have no token left until second 61. *)
Definition limited : World :=
  mkWorld [Sample.task "t1" "u1"; Sample.task "t2" "u2"] None Sample.store true
          (fun l _ _ _ => Some (mkRatelimitResponse false (Ratelimit.tokens l) 0 61000))
          [] 1000 7 [].

(** A limiter that refuses a call once its cap of calls has been made
    within the last 60 seconds. *)
Definition counting (l : Limiter) (key : string) (earlier : list Z) (t : Z)
  : option RatelimitResponse :=
  let used := Z.of_nat (length (filter (fun c => t - Ratelimit.window_ms < c) earlier)) in
  Some (mkRatelimitResponse (used <? Ratelimit.tokens l) (Ratelimit.tokens l)
          (Z.max 0 (Ratelimit.tokens l - used - 1)) (t + Ratelimit.window_ms)).

(** The sample world with that limiter, after [n] reads by [u2] at the
    current instant. *)
Definition counted (n : nat) : World :=
  mkWorld [Sample.task "t1" "u1"; Sample.task "t2" "u2"] None Sample.store true
          counting (repeat (readLimiter, "u2:203.0.113.7", 1000) n) 1000 7 [].

(** What the schema makes of [Sample.create_body]. *)
Definition created : Zod.TaskCreate := Zod.mkTaskCreate "Buy milk" None todo None.

(** [?level=ERROR&startTime=2024-01-01&endTime=2024-01-31] *)
Definition range_query : AdminLogs.Query :=
  AdminLogs.mkQuery (Some "ERROR") None (Some "2024-01-01") (Some "2024-01-31") None.

(** [?limit=abc] *)
Definition text_limit_query : AdminLogs.Query :=
  AdminLogs.mkQuery None None None None (Some "abc").

(** A page request from the application's own origin, with no session. *)
Definition page : Middleware.MwReq :=
  Middleware.mkMwReq "http://localhost:3000/dashboard" "GET" "/dashboard"
                     (Some "http://localhost:3000") None.

(** A request for a protected route whose query string mentions [/login]. *)
Definition disguised : Middleware.MwReq :=
  Middleware.mkMwReq "http://localhost:3000/api/tasks?next=/login" "GET" "/api/tasks"
                     None None.

End Scenario.

(** * Properties *)

#[local] Arguments String.append : simpl nomatch.

(** ** Glob patterns built from a literal *)

Section GlobFacts.

Import Glob.

Lemma tmatch_star ts s :
  tmatch (TStar :: ts) s =
  tmatch ts s || match s with
                 | EmptyString => false
                 | String _ s' => tmatch (TStar :: ts) s'
                 end.
Proof. destruct s; reflexivity. Qed.

Lemma tmatch_star_iff ts s :
  tmatch (TStar :: ts) s = true <->
  exists a b, s = a +:+ b /\ tmatch ts b = true.
Proof.
  induction s as [|c s IH]; rewrite tmatch_star.
  - rewrite orb_false_r. split.
    + intros H. exists EmptyString, EmptyString. auto.
    + intros (a & b & Hs & Hb). destruct a; simpl in Hs; [now subst b | discriminate].
  - rewrite orb_true_iff, IH. split.
    + intros [H | (a & b & -> & Hb)].
      * exists EmptyString, (String c s). auto.
      * exists (String c a), b. auto.
    + intros (a & b & Hs & Hb). destruct a as [|d a]; simpl in Hs.
      * left. now subst b.
      * right. injection Hs as -> ->. eauto.
Qed.

Lemma tmatch_only_star s : tmatch [TStar] s = true.
Proof.
  apply tmatch_star_iff. exists s, EmptyString. split; [|reflexivity].
  induction s as [|c s IH]; simpl; [reflexivity | now rewrite <- IH].
Qed.

Lemma tmatch_lits p ts s :
  tmatch (lits p ++ ts) s = true <->
  exists s', s = p +:+ s' /\ tmatch ts s' = true.
Proof.
  revert s. induction p as [|c p IH]; intros s; simpl.
  - split; [intros H; eauto | intros (s' & -> & H); exact H].
  - destruct s as [|d s].
    + split; [discriminate | intros (s' & Hs & _); discriminate].
    + rewrite andb_true_iff, IH, Ascii.eqb_eq. split.
      * intros (-> & s' & -> & H). eauto.
      * intros (s' & Hs & H). injection Hs as -> ->. eauto.
Qed.

Lemma not_meta c :
  is_meta c = false ->
  Ascii.eqb c "*" = false /\ Ascii.eqb c "?" = false /\
  Ascii.eqb c "\" = false /\ Ascii.eqb c "[" = false.
Proof.
  unfold is_meta. rewrite !orb_false_iff. tauto.
Qed.

Lemma parse_plain_app p q :
  plain p = true -> parse Normal (p +:+ q) = lits p ++ parse Normal q.
Proof.
  induction p as [|c p IH]; intros Hp; [reflexivity|].
  simpl in Hp. apply andb_true_iff in Hp as [Hc Hp].
  apply negb_true_iff, not_meta in Hc as (H1 & H2 & H3 & H4).
  change (String c p +:+ q) with (String c (p +:+ q)).
  cbn [parse]. rewrite H1, H2, H3, H4, (IH Hp). reflexivity.
Qed.

Lemma is_prefix_iff p s :
  is_prefix p s = true <-> exists b, s = p +:+ b.
Proof.
  revert s. induction p as [|c p IH]; intros s; simpl.
  - split; eauto.
  - destruct s as [|d s].
    + split; [discriminate | intros (b & Hb); discriminate].
    + rewrite andb_true_iff, Ascii.eqb_eq, IH. split.
      * intros (-> & b & ->). eauto.
      * intros (b & Hb). injection Hb as -> ->. eauto.
Qed.

Lemma contains_iff sub s :
  contains sub s = true <-> exists a b, s = a +:+ sub +:+ b.
Proof.
  induction s as [|c s IH]; simpl.
  - rewrite orb_false_r, is_prefix_iff. split.
    + intros (b & Hb). exists EmptyString, b. exact Hb.
    + intros (a & b & H). destruct a; simpl in H; [eauto | discriminate].
  - rewrite orb_true_iff, is_prefix_iff, IH. split.
    + intros [(b & Hb) | (a & b & ->)].
      * exists EmptyString, b. exact Hb.
      * exists (String c a), b. reflexivity.
    + intros (a & b & H). destruct a as [|d a]; simpl in H.
      * left. eauto.
      * right. injection H as -> ->. eauto.
Qed.

(** For a text [p] without pattern characters, [*p*] selects exactly the
    keys that contain [p]. *)
Lemma glob_star_plain_star p key :
  plain p = true ->
  glob_match ("*" +:+ p +:+ "*") key = contains p key.
Proof.
  intros Hp. unfold glob_match.
  change ("*" +:+ p +:+ "*") with (String "*" (p +:+ "*")).
  cbn [parse]. change (Ascii.eqb "*" "*") with true. cbn iota.
  rewrite (parse_plain_app _ _ Hp). cbn [parse].
  change (Ascii.eqb "*" "*") with true. cbn iota.
  apply eq_true_iff_eq.
  rewrite tmatch_star_iff, contains_iff. split.
  - intros (a & b & -> & Hb). apply tmatch_lits in Hb as (s' & -> & _). eauto.
  - intros (a & b & ->). exists a, (p +:+ b). split; [reflexivity|].
    apply tmatch_lits. exists b. split; [reflexivity | apply tmatch_only_star].
Qed.

Lemma plain_colon_app p : plain p = true -> plain (":" +:+ p) = true.
Proof. intros H. exact H. Qed.

End GlobFacts.

(** ** The cache service on the store *)

Section CacheFacts.

Lemma elem_of_matching pattern w k :
  k ∈ Redis.matching pattern w <->
  Glob.glob_match pattern k = true /\ is_Some (Redis.live w k).
Proof.
  unfold Redis.matching, Redis.live.
  rewrite list_elem_of_filter, list_elem_of_fmap. split.
  - intros (Hm & [k' e] & -> & Hin). split; [exact Hm|].
    apply elem_of_map_to_list, map_lookup_filter_Some in Hin as [Hl Ha].
    simpl in *. rewrite Hl, Ha. eauto.
  - intros (Hm & v & Hv). split; [exact Hm|].
    destruct (cache w !! k) as [e|] eqn:Hl; [|discriminate].
    destruct (Redis.alive (now w) e) eqn:Ha; [|discriminate].
    exists (k, e). split; [reflexivity|].
    apply elem_of_map_to_list, map_lookup_filter_Some. auto.
Qed.

(** With the store reachable, [invalidatePattern] removes the live keys
    that match and leaves every other key as it was. *)
Lemma invalidatePattern_live pattern w k :
  redis_up w = true ->
  Redis.live (CacheService.invalidatePattern pattern w).2 k =
  if Glob.glob_match pattern k then None else Redis.live w k.
Proof.
  intros Hup.
  pose proof (elem_of_matching pattern w k) as Hin.
  unfold CacheService.invalidatePattern, Redis.keys, Redis.del, bind, emit, ret, set_cache.
  cbv beta. rewrite Hup. cbn.
  destruct (Redis.matching pattern w) as [|k0 ks] eqn:Hks.
  - cbn. destruct (Glob.glob_match pattern k) eqn:Hm; [|reflexivity].
    destruct (Redis.live w k) eqn:Hl; [|unfold Redis.live in *; cbn; exact Hl].
    exfalso. assert (k ∈ @nil string) as Hk by (apply Hin; eauto).
    inversion Hk.
  - cbn [length]. replace (0 <? Z.of_nat (S (length ks))) with true
      by (symmetry; apply Z.ltb_lt; lia).
    cbn -[foldr]. unfold Redis.live at 1. cbn -[foldr].
    destruct (decide (k ∈ k0 :: ks)) as [Hk | Hk].
    + rewrite (lookup_foldr_delete _ (k0 :: ks) k Hk).
      apply Hin in Hk as [-> _]. reflexivity.
    + rewrite (lookup_foldr_delete_not_elem_of _ (k0 :: ks) k Hk).
      fold (Redis.live w k).
      destruct (Glob.glob_match pattern k) eqn:Hm; [|reflexivity].
      destruct (Redis.live w k) eqn:Hl; [|reflexivity].
      exfalso. apply Hk, Hin. eauto.
Qed.


(** The cache service touches neither the table nor the clock. *)
Lemma invalidatePattern_frame pattern w :
  let w' := (CacheService.invalidatePattern pattern w).2 in
  tasks w' = tasks w /\ now w' = now w /\ redis_up w' = redis_up w /\
  db_fault w' = db_fault w.
Proof.
  unfold CacheService.invalidatePattern, Redis.keys, Redis.del, bind, emit, ret,
    set_cache, console_error, emit.
  cbv beta. destruct (redis_up w) eqn:Hup; cbn; [|auto].
  destruct (0 <? Z.of_nat (length (Redis.matching pattern w))); cbn; auto.
Qed.

End CacheFacts.

(** ** Owner-wide invalidation *)

Section Invalidation.

Import Glob.



Lemma task_key_contains uid tid :
  contains (":" +:+ uid) (CacheService.getUserTaskKey uid tid) = true.
Proof.
  apply contains_iff. exists "task", (":" +:+ tid). reflexivity.
Qed.

Lemma owner_pattern uid key :
  plain uid = true ->
  glob_match ("*:" +:+ uid +:+ "*") key = contains (":" +:+ uid) key.
Proof.
  intros Hp. apply (glob_star_plain_star (":" +:+ uid) key). exact Hp.
Qed.

End Invalidation.




(** An owner id that is itself pattern text: [[x]] is a character class,
    so [*:[x]*] selects the keys that contain [:x] and leaves the key that
    contains [:[x]] in place. *)
Example invalidateUserCache_pattern_text :
  redis_up (Sample.world true) = true /\
  Glob.contains (":" +:+ "[x]") "tasks:[x]" = true /\
  Glob.glob_match ("*:" +:+ "[x]" +:+ "*") "tasks:[x]" = false /\
  is_Some (Redis.live (CacheService.invalidateUserCache "[x]" (Sample.world true)).2
                      "tasks:[x]").
Proof.
  split; [reflexivity|]. split; [reflexivity|]. split; [reflexivity|].
  vm_compute. eauto.
Qed.

(** ** Event order of a request *)

Section PhaseFacts.

Import Pipeline.







End PhaseFacts.

(** ** Runs of the handlers *)

Ltac unfold_handlers :=
  unfold Pipeline.run, TaskRoute.DELETE, TaskRoute.PUT, TaskRoute.GET, TasksRoute.POST,
    TasksRoute.taskData,
    Ratelimit.checkRateLimit, Ratelimit.limiter_limit, record_call, limit_reply,
    Ratelimit.logRateLimitHit,
    Db.delete_eq, Db.update_single, Db.insert_single, Db.select_single, Db.reply,
    Db.single, respond, apiResponse, logger, console_error, console_warn, console_log,
    get_now, set_tasks, set_cache, bump_id, bind, ret, emit.

Ltac unfold_cache :=
  unfold CacheService.invalidateUserCache, CacheService.invalidatePattern,
    CacheService.get, CacheService.set, Redis.keys, Redis.del, Redis.get, Redis.setex,
    console_error, set_cache, bind, ret, emit.

Ltac reduce_run :=
  cbn -[Redis.matching Redis.live Zod.TaskCreateSchema_safeParse
        Zod.TaskUpdateSchema_safeParse CacheService.invalidateUserCache
        Db.visible Db.has_id pretty foldr drop length String.eqb filter Z.ltb Z.of_nat
        String.append earlier_calls].

Ltac split_step :=
  match goal with
  | |- context [match auth_user ?r with _ => _ end] => destruct (auth_user r) eqn:?
  | |- context [match limiter_oracle ?w ?l ?k ?h ?t with _ => _ end] =>
      destruct (limiter_oracle w l k h t) eqn:?
  | |- context [match rsp_success ?r with _ => _ end] => destruct (rsp_success r) eqn:?
  | |- context [match body ?r with _ => _ end] => destruct (body r) eqn:?
  | |- context [match Zod.TaskCreateSchema_safeParse ?b with _ => _ end] =>
      destruct (Zod.TaskCreateSchema_safeParse b) eqn:?
  | |- context [match Zod.TaskUpdateSchema_safeParse ?b with _ => _ end] =>
      destruct (Zod.TaskUpdateSchema_safeParse b) eqn:?
  | |- context [match db_fault ?w with _ => _ end] => destruct (db_fault w) eqn:?
  | |- context [match filter ?P ?l with _ => _ end] =>
      destruct (filter P l) as [|? [|? ?]] eqn:?
  | |- context [match String.eqb ?a ?b with _ => _ end] => destruct (String.eqb a b) eqn:?
  | |- context [match Db.visible ?r ?t with _ => _ end] => destruct (Db.visible r t) eqn:?
  | |- context [match redis_up ?w with _ => _ end] => destruct (redis_up w) eqn:?
  | |- context [match Redis.live ?w ?k with _ => _ end] => destruct (Redis.live w k) eqn:?
  | |- context [match Z.ltb ?a ?b with _ => _ end] => destruct (Z.ltb a b) eqn:?
  | |- context [match CacheService.invalidateUserCache ?u ?w with _ => _ end] =>
      destruct (CacheService.invalidateUserCache u w) as [[] ?] eqn:?
  end.

Ltac split_run := repeat (reduce_run; split_step).

Ltac norm_events :=
  unfold Pipeline.new_events; reduce_run; rewrite <- ?app_assoc; rewrite drop_app_length.

Section HandlerFacts.

Import Pipeline.




Lemma live_ext w1 w2 k :
  cache w1 = cache w2 -> now w1 = now w2 -> Redis.live w1 k = Redis.live w2 k.
Proof. unfold Redis.live. now intros -> ->. Qed.



End HandlerFacts.




(** ** Single-task operations on a task that is not the caller's *)

Section Ownership.

Import Pipeline.

Lemma visible_user uid t :
  Db.visible (AsUser uid) t = true <-> user_id t = uid.
Proof. apply String.eqb_eq. Qed.

Lemma not_own_hit uid i ts :
  not_own uid i ts ->
  forall t, In t ts -> Db.visible (AsUser uid) t && Db.has_id i t = false.
Proof.
  intros H t Hin. apply andb_false_iff.
  destruct (Db.has_id i t) eqn:Hid; [left | now right].
  apply String.eqb_eq in Hid. apply not_true_is_false. rewrite visible_user.
  now apply H.
Qed.

Lemma filter_none {A} (f : A -> bool) (l : list A) :
  (forall x, In x l -> f x = false) -> filter (fun x => f x = true) l = [].
Proof.
  induction l as [|a l IH]; intros H; [reflexivity|].
  rewrite filter_cons. destruct (decide (f a = true)) as [Ha | Ha].
  - rewrite (H a) in Ha by now left. discriminate.
  - apply IH. intros x Hx. apply H. now right.
Qed.

Lemma filter_all {A} (f : A -> bool) (l : list A) :
  (forall x, In x l -> f x = true) -> filter (fun x => f x = true) l = l.
Proof.
  induction l as [|a l IH]; intros H; [reflexivity|].
  rewrite filter_cons. destruct (decide (f a = true)) as [Ha | Ha].
  - f_equal. apply IH. intros x Hx. apply H. now right.
  - contradiction Ha. apply H. now left.
Qed.

Lemma not_own_select uid i ts :
  not_own uid i ts ->
  filter (fun t => Db.visible (AsUser uid) t && Db.has_id i t = true) ts = [].
Proof. intros H. apply filter_none, (not_own_hit _ _ _ H). Qed.

Lemma not_own_delete uid i ts :
  not_own uid i ts ->
  filter (fun t => negb (Db.visible (AsUser uid) t && Db.has_id i t) = true) ts = ts.
Proof.
  intros H. apply filter_all. intros t Hin. now rewrite (not_own_hit _ _ _ H t Hin).
Qed.

(** GET answers 404 when the cache has nothing under the caller's key. *)
Lemma GET_not_own_404 (req : Req) (i uid : string) (w : World) :
  auth_user req = Some uid ->
  Ratelimit.success
    (Ratelimit.checkRateLimit readLimiter
       (Ratelimit.createRateLimitKey (Some uid) (ip req)) w).1 = true ->
  Redis.live w (CacheService.getUserTaskKey uid i) = None ->
  db_fault w = None ->
  not_own uid i (tasks w) ->
  status_code (TaskRoute.GET req i w).1 = 404 /\
  tasks (TaskRoute.GET req i w).2 = tasks w.
Proof.
  intros Hu Hrl Hmiss Hdb Hno. revert Hrl.
  unfold_handlers; unfold_cache; rewrite Hu.
  split_run; intros Hrl; try discriminate; try congruence; try (split; reflexivity).
  all: try match goal with
       | H : filter _ _ = _ |- _ => rewrite (not_own_select _ _ _ Hno) in H; discriminate
       end.
  all: match goal with
       | H : Redis.live ?w1 ?k = Some _ |- _ =>
           rewrite (live_ext w1 w k eq_refl eq_refl) in H; congruence
       end.
Qed.

(** PUT answers 404 for a body that passes validation. *)
Lemma PUT_not_own_404 (req : Req) (i uid : string) (b : json) (data : Zod.TaskUpdate)
  (w : World) :
  auth_user req = Some uid ->
  Ratelimit.success
    (Ratelimit.checkRateLimit writeLimiter
       (Ratelimit.createRateLimitKey (Some uid) (ip req)) w).1 = true ->
  body req = Some b ->
  Zod.TaskUpdateSchema_safeParse b = Zod.UpdateOk data ->
  db_fault w = None ->
  not_own uid i (tasks w) ->
  status_code (TaskRoute.PUT req i w).1 = 404 /\
  tasks (TaskRoute.PUT req i w).2 = tasks w.
Proof.
  intros Hu Hrl Hb Hparse Hdb Hno. revert Hrl.
  unfold_handlers; unfold_cache; rewrite Hu, Hb, Hparse.
  split_run; intros Hrl; try discriminate; try congruence; try (split; reflexivity).
  all: match goal with
       | H : filter _ _ = _ |- _ => rewrite (not_own_select _ _ _ Hno) in H; discriminate
       end.
Qed.

End Ownership.

(** C1, what DELETE does. For a task id that does not exist or belongs to
    another owner, an authenticated DELETE that passes the rate limit and
    reaches the table answers 200, not 404; the table is left as it was. *)
Theorem DELETE_not_own_200 (req : Req) (i uid : string) (w : World) :
  auth_user req = Some uid ->
  Ratelimit.success
    (Ratelimit.checkRateLimit writeLimiter
       (Ratelimit.createRateLimitKey (Some uid) (ip req)) w).1 = true ->
  db_fault w = None ->
  Pipeline.not_own uid i (tasks w) ->
  let run := TaskRoute.DELETE req i w in
  status_code run.1 = 200 /\
  payload run.1 = PMessage "Task deleted successfully" /\
  tasks run.2 = tasks w.
Proof.
  intros Hu Hrl Hdb Hno. revert Hrl.
  unfold_handlers; unfold_cache; rewrite Hu.
  split_run; intros Hrl; try discriminate; try congruence.
  all: rewrite (not_own_delete _ _ _ Hno); repeat split; reflexivity.
Qed.

Lemma DELETE_not_own_200_witness :
  let req := Sample.req "u1" None in
  let w := Sample.world true in
  auth_user req = Some "u1" /\
  db_fault w = None /\
  Pipeline.not_own "u1" "t2" (tasks w) /\
  status_code (TaskRoute.DELETE req "t2" w).1 = 200 /\
  tasks (TaskRoute.DELETE req "t2" w).2 = tasks w.
Proof.
  intros req w.
  assert (Hno : Pipeline.not_own "u1" "t2" (tasks w)).
  { intros t [<- | [<- | []]]; simpl; intros; discriminate. }
  destruct (DELETE_not_own_200 req "t2" "u1" w eq_refl eq_refl eq_refl Hno)
    as (H1 & _ & H3).
  split; [reflexivity|]. split; [reflexivity|]. split; [exact Hno|].
  split; [exact H1 | exact H3].
Defined.

(** ** Validation of a creation body *)

Ltac lookups :=
  repeat first [rewrite lookup_insert_eq | rewrite lookup_insert_ne by discriminate
               | rewrite lookup_empty].

Section ZodFacts.

Import Zod.

Lemma safeParse_issue members i :
  In i (create_issues members) ->
  TaskCreateSchema_safeParse (JObj members) = ParseErr (create_issues members).
Proof.
  intros Hin. unfold TaskCreateSchema_safeParse.
  destruct (create_issues members) as [|i0 rest]; [inversion Hin|].
  destruct (parse_title (member "title" members)).2,
    (parse_status (member "status" members)).2; reflexivity.
Qed.

Lemma status_of_name st : status_of_string (status_name st) = Some st.
Proof. destruct st; reflexivity. Qed.

Lemma status_of_string_Some s st : status_of_string s = Some st -> s = status_name st.
Proof.
  unfold status_of_string.
  destruct (String.eqb_spec s "todo") as [-> | _]; [now intros [= <-]|].
  destruct (String.eqb_spec s "in_progress") as [-> | _]; [now intros [= <-]|].
  destruct (String.eqb_spec s "done") as [-> | _]; [now intros [= <-]|].
  destruct (String.eqb_spec s "archived") as [-> | _]; [now intros [= <-] | discriminate].
Qed.

Lemma status_of_string_None s : ~ In s status_options -> status_of_string s = None.
Proof.
  intros H. destruct (status_of_string s) as [st|] eqn:E; [|reflexivity].
  apply status_of_string_Some in E. subst. exfalso. apply H.
  destruct st; cbn; tauto.
Qed.

Lemma in_shape_iff k : in_shape k = true <-> In k shape.
Proof.
  unfold in_shape. rewrite existsb_exists. split.
  - intros (x & Hx & He). apply String.eqb_eq in He. now subst.
  - intros H. exists k. split; [exact H | apply String.eqb_refl].
Qed.

Lemma member_key members k v : member k members = Some v -> In k (fst <$> members).
Proof.
  induction members as [|[k0 v0] rest IH]; cbn; [discriminate|].
  destruct (String.eqb_spec k0 k) as [-> | _]; [now left | right; auto].
Qed.

Lemma extra_key_listed members k :
  In k (fst <$> members) -> in_shape k = false -> In k (extra_keys members).
Proof.
  intros Hk Hs. apply list_elem_of_In. unfold extra_keys.
  apply list_elem_of_filter. split; [exact Hs | now apply list_elem_of_In].
Qed.

Lemma strict_issue members k :
  In k (fst <$> members) -> in_shape k = false ->
  exists ks, In k ks /\
    strict_issues members =
      [mkIssue (unrecognized_keys ks) []
         ("Unrecognized key(s) in object: " +:+ joinValues ks ", ")].
Proof.
  intros Hk Hs. pose proof (extra_key_listed members k Hk Hs) as Hin.
  unfold strict_issues. destruct (extra_keys members) as [|k0 ks]; [inversion Hin|].
  exists (k0 :: ks). auto.
Qed.

Lemma strict_issues_nil members :
  strict_issues members = [] <-> forall k, In k (fst <$> members) -> In k shape.
Proof.
  unfold strict_issues. destruct (extra_keys members) as [|k0 ks] eqn:E; split.
  - intros _ k Hk. apply in_shape_iff. destruct (in_shape k) eqn:Hs; [reflexivity|].
    pose proof (extra_key_listed members k Hk Hs) as Hin. rewrite E in Hin. inversion Hin.
  - reflexivity.
  - discriminate.
  - intros H. exfalso.
    assert (Hin : k0 ∈ extra_keys members) by (rewrite E; left).
    unfold extra_keys in Hin. apply list_elem_of_filter in Hin as [Hs Hk].
    apply list_elem_of_In, H, in_shape_iff in Hk. congruence.
Qed.

Lemma unknown_key_rejected members k :
  In k (fst <$> members) -> in_shape k = false ->
  exists ks i, In k ks /\
    TaskCreateSchema_safeParse (JObj members) = ParseErr (create_issues members) /\
    In i (create_issues members) /\ code i = unrecognized_keys ks /\ path i = [].
Proof.
  intros Hk Hs. destruct (strict_issue members k Hk Hs) as (ks & Hin & Hst).
  exists ks. eexists. split; [exact Hin|].
  assert (In (mkIssue (unrecognized_keys ks) []
                ("Unrecognized key(s) in object: " +:+ joinValues ks ", "))
             (create_issues members)) as Hi.
  { unfold create_issues. rewrite Hst, !in_app_iff. do 4 right. now left. }
  split; [exact (safeParse_issue _ _ Hi)|]. split; [exact Hi|]. split; reflexivity.
Qed.

(** What each field must be for its parser to raise no issue. *)
Lemma parse_title_ok v t :
  (parse_title v).1 = [] /\ (parse_title v).2 = Some t <->
  v = Some (JStr t) /\ 1 <= strlen t <= 120.
Proof.
  split.
  - intros [H1 H2]. destruct v as [[]|]; cbn in H1, H2; try discriminate.
    injection H2 as ->. apply app_eq_nil in H1 as [Ha Hb].
    destruct (Z.ltb_spec (strlen t) 1); [discriminate|].
    destruct (Z.ltb_spec 120 (strlen t)); [discriminate|]. split; [reflexivity | lia].
  - intros [-> H]. cbn.
    destruct (Z.ltb_spec (strlen t) 1); [lia|].
    destruct (Z.ltb_spec 120 (strlen t)); [lia|]. split; reflexivity.
Qed.

Lemma parse_status_ok v st :
  (parse_status v).1 = [] /\ (parse_status v).2 = Some st <->
  v = Some (JStr (status_name st)).
Proof.
  split.
  - intros [H1 H2]. destruct v as [[]|]; cbn in H1, H2; try discriminate.
    destruct (status_of_string s) as [st'|] eqn:E; cbn in H1, H2; [|discriminate].
    injection H2 as ->. now rewrite (status_of_string_Some _ _ E).
  - intros ->. cbn. rewrite status_of_name. split; reflexivity.
Qed.

Lemma parse_description_ok v d :
  (parse_description v).1 = [] /\ (parse_description v).2 = d <->
  (v = None /\ d = None) \/
  (exists s, v = Some (JStr s) /\ strlen s <= 2000 /\ d = Some s).
Proof.
  split.
  - intros [H1 H2]. destruct v as [[]|]; cbn in H1, H2; try discriminate; [|now left].
    right. exists s. destruct (Z.ltb_spec 2000 (strlen s)); [discriminate|]. auto.
  - intros [[-> ->] | (s & -> & H & ->)]; cbn; [split; reflexivity|].
    destruct (Z.ltb_spec 2000 (strlen s)); [lia | split; reflexivity].
Qed.

Lemma parse_due_date_ok v d :
  (parse_due_date v).1 = [] /\ (parse_due_date v).2 = d <->
  (v = None /\ d = None) \/
  (exists s, v = Some (JStr s) /\ d = if String.eqb s "" then None else Some s).
Proof.
  split.
  - intros [H1 H2]. destruct v as [[]|]; cbn in H1, H2; try discriminate; [|now left].
    right. exists s. auto.
  - intros [[-> ->] | (s & -> & ->)]; cbn; split; reflexivity.
Qed.

Lemma create_parts members :
  create_issues members = [] <->
  (parse_title (member "title" members)).1 = [] /\
  (parse_description (member "description" members)).1 = [] /\
  (parse_status (member "status" members)).1 = [] /\
  (parse_due_date (member "due_date" members)).1 = [] /\
  strict_issues members = [].
Proof.
  unfold create_issues. split.
  - intros H.
    apply app_eq_nil in H as [H1 H]. apply app_eq_nil in H as [H2 H].
    apply app_eq_nil in H as [H3 H]. apply app_eq_nil in H as [H4 H]. auto.
  - intros (-> & -> & -> & -> & ->). reflexivity.
Qed.

Lemma safeParse_ok members d :
  TaskCreateSchema_safeParse (JObj members) = ParseOk d <->
  create_issues members = [] /\
  (parse_title (member "title" members)).2 = Some (tc_title d) /\
  (parse_status (member "status" members)).2 = Some (tc_status d) /\
  (parse_description (member "description" members)).2 = tc_description d /\
  (parse_due_date (member "due_date" members)).2 = tc_due_date d.
Proof.
  unfold TaskCreateSchema_safeParse. split.
  - destruct (create_issues members); [|discriminate].
    destruct (parse_title (member "title" members)).2; [|discriminate].
    destruct (parse_status (member "status" members)).2; [|discriminate].
    intros [= <-]. cbn. auto.
  - intros (-> & -> & -> & Hd & Hdd). destruct d. cbn in *. now subst.
Qed.

(** The bodies that pass, and what the schema makes of them. *)
Lemma create_accepts members d :
  TaskCreateSchema_safeParse (JObj members) = ParseOk d <->
  (member "title" members = Some (JStr (tc_title d)) /\ 1 <= strlen (tc_title d) <= 120) /\
  member "status" members = Some (JStr (status_name (tc_status d))) /\
  ((member "description" members = None /\ tc_description d = None) \/
   (exists s, member "description" members = Some (JStr s) /\ strlen s <= 2000 /\
              tc_description d = Some s)) /\
  ((member "due_date" members = None /\ tc_due_date d = None) \/
   (exists s, member "due_date" members = Some (JStr s) /\
              tc_due_date d = if String.eqb s "" then None else Some s)) /\
  (forall k, In k (fst <$> members) -> In k shape).
Proof.
  rewrite safeParse_ok, create_parts, <- parse_title_ok, <- parse_status_ok,
    <- parse_description_ok, <- parse_due_date_ok, <- strict_issues_nil.
  tauto.
Qed.

Lemma title_too_small members s :
  member "title" members = Some (JStr s) -> strlen s = 0 ->
  In (mkIssue too_small ["title"] "Title is required") (create_issues members).
Proof.
  intros Ht Hlen. unfold create_issues. rewrite Ht. cbn -[strlen Z.ltb].
  rewrite !in_app_iff. left. left.
  destruct (Z.ltb_spec (strlen s) 1); [now left | lia].
Qed.

Lemma title_too_big members s :
  member "title" members = Some (JStr s) -> 121 <= strlen s ->
  In (mkIssue too_big ["title"] "Title must be less than 120 characters")
     (create_issues members).
Proof.
  intros Ht Hlen. unfold create_issues. rewrite Ht. cbn -[strlen Z.ltb].
  rewrite !in_app_iff. left. right.
  destruct (Z.ltb_spec 120 (strlen s)); [now left | lia].
Qed.

Lemma title_required members :
  member "title" members = None ->
  In (mkIssue invalid_type ["title"] "Required") (create_issues members).
Proof.
  intros Ht. unfold create_issues. rewrite Ht, !in_app_iff. left. now left.
Qed.

Lemma status_required members :
  member "status" members = None ->
  In (mkIssue invalid_type ["status"] "Required") (create_issues members).
Proof.
  intros Hs. unfold create_issues. rewrite Hs, !in_app_iff.
  right. right. left. now left.
Qed.

Lemma status_outside members s :
  member "status" members = Some (JStr s) -> ~ In s status_options ->
  exists i, In i (create_issues members) /\
            code i = invalid_enum_value /\ path i = ["status"].
Proof.
  intros Hs Hout. unfold create_issues. rewrite Hs. cbn [parse_status].
  rewrite (status_of_string_None s Hout). eexists. split.
  - rewrite !in_app_iff. right. right. left. now left.
  - split; reflexivity.
Qed.

Lemma titled_accepted s st :
  1 <= strlen s <= 120 ->
  TaskCreateSchema_safeParse (Sample.titled s st) = ParseOk (mkTaskCreate s None st None).
Proof.
  intros H. unfold Sample.titled. apply create_accepts. cbn [tc_title tc_status
    tc_description tc_due_date member String.eqb Ascii.eqb Bool.eqb].
  split; [auto|]. split; [reflexivity|]. split; [now left|]. split; [now left|].
  intros k [<- | [<- | []]]; cbn; tauto.
Qed.

End ZodFacts.

(** A request that is authenticated and within the rate limit, with a body
    that fails validation, is answered 400 with the issues; nothing is
    written. *)
Lemma POST_invalid_400 (req : Req) (uid : string) (b : json) (issues : list Zod.Issue)
  (w : World) :
  auth_user req = Some uid ->
  Ratelimit.success
    (Ratelimit.checkRateLimit writeLimiter
       (Ratelimit.createRateLimitKey (Some uid) (ip req)) w).1 = true ->
  body req = Some b ->
  Zod.TaskCreateSchema_safeParse b = Zod.ParseErr issues ->
  let run := TasksRoute.POST req w in
  status_code run.1 = 400 /\ payload run.1 = PValidation issues /\ tasks run.2 = tasks w.
Proof.
  intros Hu Hrl Hb Hparse. revert Hrl.
  unfold_handlers; unfold_cache; rewrite Hu, Hb, Hparse.
  split_run; intros Hrl; try discriminate; repeat split; reflexivity.
Qed.

(** C7 (as amended). A creation body passes exactly when it is an object
    in which [title] is a string of 1 to 120 characters, [status] is one
    of [todo], [in_progress], [done], [archived], [description] is absent
    or a string of at most 2000 characters, [due_date] is absent or a
    string, and there is no other key. So title and status are both
    required, description and due_date are optional, and a body of a valid
    title and a valid status passes. Each failure is reported on its
    field: a title of length 0 as [too_small] and one of 121 or more as
    [too_big] on [title], an absent title or status as [invalid_type] on
    it, a status outside the four as [invalid_enum_value] on [status], a
    key outside the shape as [unrecognized_keys] naming it. A rejected
    body is answered 400 with these issues as details, and nothing is
    written. *)
Theorem TaskCreateSchema_title_and_status :
  (forall members d,
      Zod.TaskCreateSchema_safeParse (JObj members) = Zod.ParseOk d <->
      (member "title" members = Some (JStr (Zod.tc_title d)) /\
       1 <= Zod.strlen (Zod.tc_title d) <= 120) /\
      member "status" members = Some (JStr (Zod.status_name (Zod.tc_status d))) /\
      ((member "description" members = None /\ Zod.tc_description d = None) \/
       (exists s, member "description" members = Some (JStr s) /\ Zod.strlen s <= 2000 /\
                  Zod.tc_description d = Some s)) /\
      ((member "due_date" members = None /\ Zod.tc_due_date d = None) \/
       (exists s, member "due_date" members = Some (JStr s) /\
                  Zod.tc_due_date d = if String.eqb s "" then None else Some s)) /\
      (forall k, In k (fst <$> members) -> In k ["title"; "description"; "status"; "due_date"])) /\
  (forall b d,
      Zod.TaskCreateSchema_safeParse b = Zod.ParseOk d -> exists members, b = JObj members) /\
  (forall members s,
      member "title" members = Some (JStr s) -> Zod.strlen s = 0 ->
      exists issues,
        Zod.TaskCreateSchema_safeParse (JObj members) = Zod.ParseErr issues /\
        In (Zod.mkIssue Zod.too_small ["title"] "Title is required") issues) /\
  (forall members s,
      member "title" members = Some (JStr s) -> 121 <= Zod.strlen s ->
      exists issues,
        Zod.TaskCreateSchema_safeParse (JObj members) = Zod.ParseErr issues /\
        In (Zod.mkIssue Zod.too_big ["title"] "Title must be less than 120 characters")
           issues) /\
  (forall members,
      member "title" members = None ->
      exists issues i,
        Zod.TaskCreateSchema_safeParse (JObj members) = Zod.ParseErr issues /\
        In i issues /\ Zod.code i = Zod.invalid_type /\ Zod.path i = ["title"]) /\
  (forall members,
      member "status" members = None ->
      exists issues i,
        Zod.TaskCreateSchema_safeParse (JObj members) = Zod.ParseErr issues /\
        In i issues /\ Zod.code i = Zod.invalid_type /\ Zod.path i = ["status"]) /\
  (forall members s,
      member "status" members = Some (JStr s) ->
      ~ In s ["todo"; "in_progress"; "done"; "archived"] ->
      exists issues i,
        Zod.TaskCreateSchema_safeParse (JObj members) = Zod.ParseErr issues /\
        In i issues /\ Zod.code i = Zod.invalid_enum_value /\ Zod.path i = ["status"]) /\
  (forall members k,
      In k (fst <$> members) -> ~ In k ["title"; "description"; "status"; "due_date"] ->
      exists issues i ks,
        Zod.TaskCreateSchema_safeParse (JObj members) = Zod.ParseErr issues /\
        In i issues /\ Zod.code i = Zod.unrecognized_keys ks /\ In k ks /\
        Zod.path i = []) /\
  (forall s st,
      1 <= Zod.strlen s <= 120 ->
      Zod.TaskCreateSchema_safeParse (Sample.titled s st) =
      Zod.ParseOk (Zod.mkTaskCreate s None st None)) /\
  (forall req uid b issues w,
      auth_user req = Some uid ->
      Ratelimit.success
        (Ratelimit.checkRateLimit writeLimiter
           (Ratelimit.createRateLimitKey (Some uid) (ip req)) w).1 = true ->
      body req = Some b ->
      Zod.TaskCreateSchema_safeParse b = Zod.ParseErr issues ->
      status_code (TasksRoute.POST req w).1 = 400 /\
      payload (TasksRoute.POST req w).1 = PValidation issues /\
      tasks (TasksRoute.POST req w).2 = tasks w).
Proof.
  split; [exact create_accepts|].
  split; [intros [] d H; try discriminate H; eauto|].
  split; [intros members s Ht Hlen; pose proof (title_too_small members s Ht Hlen) as Hin;
          exists (Zod.create_issues members);
          split; [exact (safeParse_issue _ _ Hin) | exact Hin]|].
  split; [intros members s Ht Hlen; pose proof (title_too_big members s Ht Hlen) as Hin;
          exists (Zod.create_issues members);
          split; [exact (safeParse_issue _ _ Hin) | exact Hin]|].
  split; [intros members Ht; pose proof (title_required members Ht) as Hin;
          exists (Zod.create_issues members); eexists;
          split; [exact (safeParse_issue _ _ Hin)|]; split; [exact Hin|];
          split; reflexivity|].
  split; [intros members Hs; pose proof (status_required members Hs) as Hin;
          exists (Zod.create_issues members); eexists;
          split; [exact (safeParse_issue _ _ Hin)|]; split; [exact Hin|];
          split; reflexivity|].
  split; [intros members s Hs Hout;
          destruct (status_outside members s Hs Hout) as (i & Hin & Hc & Hp);
          exists (Zod.create_issues members), i;
          split; [exact (safeParse_issue _ _ Hin) | auto]|].
  split; [intros members k Hk Hout;
          assert (Hs : Zod.in_shape k = false)
            by (destruct (Zod.in_shape k) eqn:E; [|reflexivity];
                apply in_shape_iff in E; contradiction);
          destruct (unknown_key_rejected members k Hk Hs) as (ks & i & H1 & H2 & H3 & H4 & H5);
          exists (Zod.create_issues members), i, ks; auto|].
  split; [intros s st Hlen; exact (titled_accepted s st Hlen)|].
  intros req uid b issues w Hu Hrl Hb Hparse.
  exact (POST_invalid_400 req uid b issues w Hu Hrl Hb Hparse).
Qed.

Lemma TaskCreateSchema_title_and_status_witness :
  (exists issues, Zod.TaskCreateSchema_safeParse (Sample.titled "" todo) = Zod.ParseErr issues) /\
  Zod.TaskCreateSchema_safeParse (Sample.titled (Sample.long 120) todo) =
    Zod.ParseOk (Zod.mkTaskCreate (Sample.long 120) None todo None) /\
  (exists issues,
      Zod.TaskCreateSchema_safeParse (Sample.titled (Sample.long 121) todo) =
      Zod.ParseErr issues) /\
  (exists issues,
      Zod.TaskCreateSchema_safeParse Sample.impersonating_body = Zod.ParseErr issues) /\
  (exists issues,
      Zod.TaskCreateSchema_safeParse
        (JObj [("title", JStr "Buy milk"); ("status", JStr "urgent")]) = Zod.ParseErr issues) /\
  (exists issues,
      Zod.TaskCreateSchema_safeParse (JObj [("status", JStr "todo")]) = Zod.ParseErr issues) /\
  status_code (TasksRoute.POST (Sample.req "u1" (Some Sample.impersonating_body))
                               (Sample.world true)).1 = 400.
Proof.
  destruct TaskCreateSchema_title_and_status
    as (_ & _ & Hsmall & Hbig & Hnotitle & _ & Henum & Hextra & Hok & Hpost).
  split; [|split; [|split; [|split; [|split; [|split]]]]].
  - destruct (Hsmall [("title", JStr ""); ("status", JStr "todo")] "")
      as (issues & H & _); [reflexivity | reflexivity | eauto].
  - apply Hok. vm_compute. split; discriminate.
  - destruct (Hbig [("title", JStr (Sample.long 121)); ("status", JStr "todo")]
                   (Sample.long 121))
      as (issues & H & _); [reflexivity | vm_compute; discriminate | eauto].
  - destruct (Hextra Sample.impersonating_fields "user_id")
      as (issues & i & ks & H & _); [cbn; tauto | | exists issues; exact H].
    cbn. intros H. decompose [or] H; try discriminate; contradiction.
  - destruct (Henum [("title", JStr "Buy milk"); ("status", JStr "urgent")] "urgent")
      as (issues & i & H & _); [reflexivity | | eauto].
    cbn. intros H. decompose [or] H; try discriminate; contradiction.
  - destruct (Hnotitle [("status", JStr "todo")]) as (issues & i & H & _);
      [reflexivity | eauto].
  - destruct (Hextra Sample.impersonating_fields "user_id")
      as (issues & i & ks & H & _); [cbn; tauto | |].
    + cbn. intros H. decompose [or] H; try discriminate; contradiction.
    + destruct (Hpost (Sample.req "u1" (Some Sample.impersonating_body)) "u1"
                  Sample.impersonating_body issues (Sample.world true)
                  eq_refl eq_refl eq_refl H) as (H1 & _).
      exact H1.
Defined.

(** C7 as stated fails on its last part: a body that consists of a valid
    title only is rejected, because the schema requires a status. *)
Lemma title_only_counterexample :
  Zod.TaskCreateSchema_safeParse (Sample.title_only "Buy milk") =
    Zod.ParseErr [Zod.mkIssue Zod.invalid_type ["status"] "Required"] /\
  status_code (TasksRoute.POST (Sample.req "u1" (Some (Sample.title_only "Buy milk")))
                               (Sample.world true)).1 = 400.
Proof. split; vm_compute; reflexivity. Qed.

(** ** The owner of a created task *)

Section Creation.

Import Pipeline.

Lemma POST_table (req : Req) (w : World) :
  tasks (TasksRoute.POST req w).2 = tasks w \/
  exists row, tasks (TasksRoute.POST req w).2 = row :: tasks w /\
              auth_user req = Some (user_id row).
Proof.
  unfold_handlers; unfold_cache; split_run;
    first [left; reflexivity | right; eexists; split; reflexivity].
Qed.

Lemma POST_db_calls (req : Req) (w : World) r op ok :
  In (DbCall r op ok) (new_events w (TasksRoute.POST req w).2) ->
  op = INSERT /\ exists uid, auth_user req = Some uid /\ r = AsUser uid /\
  (ok = true -> exists row, tasks (TasksRoute.POST req w).2 = row :: tasks w /\
                            user_id row = uid).
Proof.
  unfold_handlers; unfold_cache; split_run; norm_events; simpl; intros Hin;
    decompose [or] Hin; try discriminate; try contradiction;
    match goal with
    | H : DbCall _ _ _ = DbCall _ _ _ |- _ => injection H as <- <- <-
    end;
    (split; [reflexivity|]); eexists; (split; [reflexivity|]); (split; [reflexivity|]);
    intros Hok; try discriminate; eexists; split; reflexivity.
Qed.

(** A valid request on a table that answers: the row that is stored and
    returned carries the validated fields and the session identity. *)
Lemma POST_stores (req : Req) (uid : string) (b : json) (data : Zod.TaskCreate)
  (w : World) :
  auth_user req = Some uid ->
  Ratelimit.success
    (Ratelimit.checkRateLimit writeLimiter
       (Ratelimit.createRateLimitKey (Some uid) (ip req)) w).1 = true ->
  body req = Some b ->
  Zod.TaskCreateSchema_safeParse b = Zod.ParseOk data ->
  db_fault w = None ->
  let run := TasksRoute.POST req w in
  status_code run.1 = 201 /\
  exists row,
    payload run.1 = PData row /\ tasks run.2 = row :: tasks w /\
    user_id row = uid /\ title row = Zod.tc_title data /\
    description row = Zod.tc_description data /\ status row = Zod.tc_status data /\
    In (DbCall (AsUser uid) INSERT true) (new_events w run.2).
Proof.
  intros Hu Hrl Hb Hparse Hdb. revert Hrl.
  unfold_handlers; unfold_cache; rewrite Hu, Hb, Hparse.
  split_run; intros Hrl; try discriminate; try congruence.
  all: try match goal with
       | H : Db.visible _ _ = false |- _ =>
           cbn in H; rewrite String.eqb_refl in H; discriminate
       end.
  all: reduce_run; (split; [reflexivity|]); eexists;
       do 6 (split; [reflexivity|]); norm_events; simpl; tauto.
Qed.

Lemma POST_rejected_no_db (req : Req) (b : json) (issues : list Zod.Issue) (w : World) :
  body req = Some b ->
  Zod.TaskCreateSchema_safeParse b = Zod.ParseErr issues ->
  let run := TasksRoute.POST req w in
  (status_code run.1 = 401 \/ status_code run.1 = 429 \/ status_code run.1 = 400) /\
  tasks run.2 = tasks w /\
  forall r op ok, ~ In (DbCall r op ok) (new_events w run.2).
Proof.
  intros Hb Hparse.
  unfold_handlers; unfold_cache; rewrite Hb, Hparse; split_run;
    (split; [first [left; reflexivity | right; left; reflexivity
                   | right; right; reflexivity]|]);
    (split; [reflexivity|]);
    intros ? ? ?; norm_events; simpl; intros Hin;
    decompose [or] Hin; try discriminate; try contradiction.
Qed.

End Creation.

(** C3. A POST /api/tasks with a valid body, on a table that answers,
    stores and returns one new row whose owner is the session identity and
    whose title, description and status are the validated ones, and
    answers 201. Whatever the body holds, the table changes at most by one
    new row owned by the session identity, and the only database call is an
    insert made as the session identity. A body that carries a [user_id]
    key is rejected at validation as an unrecognized key: it is answered
    without any database call and stores nothing. *)
Theorem POST_owner_is_session_identity (req : Req) (w : World) :
  let run := TasksRoute.POST req w in
  let evs := Pipeline.new_events w run.2 in
  (forall uid b data,
      auth_user req = Some uid ->
      Ratelimit.success
        (Ratelimit.checkRateLimit writeLimiter
           (Ratelimit.createRateLimitKey (Some uid) (ip req)) w).1 = true ->
      body req = Some b ->
      Zod.TaskCreateSchema_safeParse b = Zod.ParseOk data ->
      db_fault w = None ->
      status_code run.1 = 201 /\
      exists row,
        payload run.1 = PData row /\ tasks run.2 = row :: tasks w /\
        user_id row = uid /\ title row = Zod.tc_title data /\
        description row = Zod.tc_description data /\ status row = Zod.tc_status data /\
        In (DbCall (AsUser uid) INSERT true) evs) /\
  (tasks run.2 = tasks w \/
   exists row, tasks run.2 = row :: tasks w /\ auth_user req = Some (user_id row)) /\
  (forall r op ok,
      In (DbCall r op ok) evs ->
      op = INSERT /\
      exists uid, auth_user req = Some uid /\ r = AsUser uid /\
        (ok = true -> exists row, tasks run.2 = row :: tasks w /\ user_id row = uid)) /\
  (forall members,
      body req = Some (JObj members) ->
      In "user_id" (fst <$> members) ->
      (exists issues i ks,
          Zod.TaskCreateSchema_safeParse (JObj members) = Zod.ParseErr issues /\
          In i issues /\ Zod.code i = Zod.unrecognized_keys ks /\ In "user_id" ks) /\
      (status_code run.1 = 401 \/ status_code run.1 = 429 \/ status_code run.1 = 400) /\
      tasks run.2 = tasks w /\
      forall r op ok, ~ In (DbCall r op ok) evs).
Proof.
  intros run evs.
  split; [intros uid b data Hu Hrl Hb Hparse Hdb;
          exact (POST_stores req uid b data w Hu Hrl Hb Hparse Hdb)|].
  split; [apply POST_table|]. split; [intros r op ok; apply POST_db_calls|].
  intros members Hb Hk.
  destruct (unknown_key_rejected members "user_id" Hk eq_refl)
    as (ks & i & Hin & Hparse & Hissue & Hcode & _).
  split; [exists (Zod.create_issues members), i, ks; auto|].
  exact (POST_rejected_no_db req (JObj members) _ w Hb Hparse).
Qed.

Lemma POST_owner_is_session_identity_witness :
  let stored := TasksRoute.POST (Sample.req "u1" (Some Sample.create_body))
                                (Sample.world true) in
  let refused := TasksRoute.POST (Sample.req "u1" (Some Sample.impersonating_body))
                                 (Sample.world true) in
  Zod.TaskCreateSchema_safeParse Sample.create_body =
    Zod.ParseOk (Zod.mkTaskCreate "Buy milk" None todo None) /\
  status_code stored.1 = 201 /\
  (exists row, tasks stored.2 = row :: tasks (Sample.world true) /\ user_id row = "u1" /\
               title row = "Buy milk") /\
  In "user_id" (fst <$> Sample.impersonating_fields) /\
  status_code refused.1 = 400 /\
  tasks refused.2 = tasks (Sample.world true).
Proof.
  intros stored refused.
  assert (Hparse : Zod.TaskCreateSchema_safeParse Sample.create_body =
                   Zod.ParseOk (Zod.mkTaskCreate "Buy milk" None todo None))
    by (vm_compute; reflexivity).
  destruct (POST_owner_is_session_identity (Sample.req "u1" (Some Sample.create_body))
              (Sample.world true)) as (Hs & _).
  destruct (Hs "u1" Sample.create_body _ eq_refl eq_refl eq_refl Hparse eq_refl)
    as (H201 & row & _ & Ht & Hu & Htitle & _).
  destruct (POST_owner_is_session_identity
              (Sample.req "u1" (Some Sample.impersonating_body)) (Sample.world true))
    as (_ & _ & _ & H).
  assert (Hk : In "user_id" (fst <$> Sample.impersonating_fields)) by (cbn; tauto).
  destruct (H Sample.impersonating_fields eq_refl Hk) as (_ & Hst & Htab & _).
  split; [exact Hparse|]. split; [exact H201|].
  split; [exists row; auto|]. split; [exact Hk|]. split; [|exact Htab].
  destruct Hst as [Hst | [Hst | Hst]]; [| | exact Hst];
    exfalso; clear -Hst; revert Hst; vm_compute; discriminate.
Defined.

(** ** The rate-limit check *)

Section RatelimitFacts.

Import Ratelimit.

Lemma ceil_div_pos a : 0 < a -> 0 < ceil_div a 1000.
Proof.
  intros Ha. unfold ceil_div.
  assert (- a / 1000 < 0) by (apply Z.div_lt_upper_bound; lia). lia.
Qed.

(** The store-backed check hands on the limiter's decision; on a denial
    [retryAfter] is the time to the reset, rounded up to seconds. *)
Lemma checkRateLimit_relays l key w r :
  limit_reply w l key = Some r ->
  let res := (checkRateLimit l key w).1 in
  success res = rsp_success r /\
  limit res = rsp_limit r /\
  remaining res = rsp_remaining r /\
  reset res = rsp_reset r /\
  (rsp_success r = true -> retryAfter res = None) /\
  (rsp_success r = false ->
   retryAfter res = Some (ceil_div (rsp_reset r - now w) 1000) /\
   (now w < rsp_reset r -> 0 < ceil_div (rsp_reset r - now w) 1000)).
Proof.
  intros Hr. unfold checkRateLimit, limiter_limit, bind, get_now, ret. rewrite Hr. cbn.
  do 4 (split; [reflexivity|]). split.
  - intros ->. reflexivity.
  - intros ->. split; [reflexivity|]. intros Hlt. apply ceil_div_pos. lia.
Qed.

Lemma checks_succ check l key n w :
  checks check l key (S n) w =
  (((check l key w).1 :: (checks check l key n (check l key w).2).1),
   (checks check l key n (check l key w).2).2).
Proof.
  cbn [checks]. unfold bind, ret.
  destruct (check l key w) as [r w1]. cbn.
  destruct (checks check l key n w1) as [rs w2]. reflexivity.
Qed.

Lemma bypass_result l key w :
  (checkRateLimit_bypass l key w).1 = mkRateLimitResult true 60 59 (now w + 60000) None /\
  now (checkRateLimit_bypass l key w).2 = now w.
Proof. split; reflexivity. Qed.

End RatelimitFacts.

(** C2, what the bypassing version does. However many checks are made
    with one limiter and one identifier, every one of them returns
    [success = true] with no [retryAfter], limit 60 and remaining 59: the
    check after the cap is not denied. *)
Theorem checkRateLimit_bypass_never_denies
  (l : Limiter) (identifier : string) (n : nat) (w : World) :
  let results := (Ratelimit.checks Ratelimit.checkRateLimit_bypass l identifier n w).1 in
  length results = n /\
  Forall (fun r => Ratelimit.success r = true /\ Ratelimit.retryAfter r = None /\
                   Ratelimit.limit r = 60 /\ Ratelimit.remaining r = 59) results.
Proof.
  revert w. induction n as [|n IH]; intros w; [split; [reflexivity | constructor]|].
  cbv zeta. rewrite checks_succ. cbn [fst length].
  destruct (IH (Ratelimit.checkRateLimit_bypass l identifier w).2) as [Hlen Hall].
  split; [now rewrite Hlen|].
  constructor; [|exact Hall].
  destruct (bypass_result l identifier w) as [-> _]. auto.
Qed.

(** The 21st write check with one identifier in one instant. *)
Example bypass_write_21st :
  (Ratelimit.checks Ratelimit.checkRateLimit_bypass writeLimiter "u1:203.0.113.7" 21
     (Sample.world true)).1 !! 20%nat =
  Some (Ratelimit.mkRateLimitResult true 60 59 61000 None).
Proof. vm_compute. reflexivity. Qed.

(** The store-backed version hands on what the limiter decides: with a
    limiter that counts the calls of the last 60 seconds, the 20th write
    check in one instant passes and the 21st is refused, with a
    [retryAfter] of 60 seconds. *)
Example relayed_write_21st :
  let results := (Ratelimit.checks Ratelimit.checkRateLimit writeLimiter "u2:203.0.113.7" 21
                    (Scenario.counted 0)).1 in
  Ratelimit.success <$> results !! 19%nat = Some true /\
  results !! 20%nat = Some (Ratelimit.mkRateLimitResult false 20 0 61000 (Some 60)).
Proof. vm_compute. split; reflexivity. Qed.

(** C9 (as amended). When the limiter's store call throws, the check
    returns the default result (success, limit 60, remaining 59, reset in
    60 seconds, no retryAfter), writes one entry with [console.error], and
    changes nothing else; the caller gets a result, not an error. *)
Theorem checkRateLimit_fails_open (l : Limiter) (identifier : string) (w : World) :
  limit_reply w l identifier = None ->
  let run := Ratelimit.checkRateLimit l identifier w in
  run.1 = Ratelimit.mkRateLimitResult true 60 59 (now w + 60000) None /\
  trace run.2 = trace w ++ [Console ConsoleError "Rate limit check error:"] /\
  tasks run.2 = tasks w /\ cache run.2 = cache w.
Proof.
  intros Hr. unfold Ratelimit.checkRateLimit, Ratelimit.limiter_limit, bind, get_now,
    ret, console_error, emit.
  rewrite Hr. cbn. auto.
Qed.

Lemma checkRateLimit_fails_open_witness :
  limit_reply Sample.limiter_down readLimiter "u1:203.0.113.7" = None /\
  Ratelimit.success
    (Ratelimit.checkRateLimit readLimiter "u1:203.0.113.7" Sample.limiter_down).1 = true.
Proof.
  split; [reflexivity|].
  destruct (checkRateLimit_fails_open readLimiter "u1:203.0.113.7" Sample.limiter_down
              eq_refl) as (H & _).
  rewrite H. reflexivity.
Defined.

(** C9 as stated fails on the level of the log entry: the only entry is
    written with [console.error], none at warning level. *)
Lemma fails_open_log_level_counterexample :
  let run := Ratelimit.checkRateLimit readLimiter "u1:203.0.113.7" Sample.limiter_down in
  trace run.2 = [Console ConsoleError "Rate limit check error:"] /\
  (forall msg, ~ In (Console ConsoleWarn msg) (trace run.2)) /\
  (forall msg, ~ In (Logged WARN msg) (trace run.2)).
Proof.
  split; [reflexivity|].
  split; intros msg [H | []]; discriminate.
Qed.

(** ** The archival sweep *)

Section Archival.

Import Db.

Lemma archivable_archived cutoff n t : archivable cutoff (archive_row n t) = false.
Proof. reflexivity. Qed.

Lemma archivable_after cutoff n t :
  archivable cutoff (if archivable cutoff t then archive_row n t else t) = false.
Proof. destruct (archivable cutoff t) eqn:H; [reflexivity | exact H]. Qed.

Lemma map_id_on {A} (f : A -> A) (l : list A) :
  (forall x, In x l -> f x = x) -> map f l = l.
Proof.
  induction l as [|a l IH]; intros H; [reflexivity|].
  simpl. rewrite (H a) by now left. f_equal. apply IH. intros x Hx. apply H. now right.
Qed.

(** After a sweep at [cutoff], nothing in the table matches the sweep's
    predicate at that cutoff any more. *)
Lemma swept_none cutoff n (ts : list Task) :
  forall t, In t (map (fun t => if archivable cutoff t then archive_row n t else t) ts) ->
            archivable cutoff t = false.
Proof.
  intros t Hin. apply in_map_iff in Hin as (t0 & <- & _). apply archivable_after.
Qed.

Lemma sweep_run cutoff w :
  db_fault w = None ->
  let hits := filter (fun t => archivable cutoff t = true) (tasks w) in
  tasks (ArchiveRoute.sweep cutoff w).2 =
    map (fun t => if archivable cutoff t then archive_row (now w) t else t) (tasks w) /\
  (ArchiveRoute.sweep cutoff w).1 =
    mkResponse 200
      (PArchived (Z.of_nat (length hits)) (project <$> (archive_row (now w) <$> hits)) cutoff)
      [].
Proof.
  intros Hdb. unfold ArchiveRoute.sweep, archive_update, reply, respond, console_log,
    set_tasks, bind, ret, emit.
  rewrite Hdb. cbn -[filter]. rewrite !length_fmap. split; reflexivity.
Qed.

End Archival.

Lemma Status_eqb_eq a b : Status_eqb a b = true <-> a = b.
Proof. destruct a, b; cbn; split; intros; congruence. Qed.

Lemma archivable_iff cutoff t :
  Db.archivable cutoff t = true <-> status t = done_ /\ updated_at t < cutoff.
Proof.
  unfold Db.archivable. now rewrite andb_true_iff, Status_eqb_eq, Z.ltb_lt.
Qed.

Lemma Forall2_map_self {A} (R : A -> A -> Prop) (f : A -> A) (l : list A) :
  (forall x, R x (f x)) -> Forall2 R l (map f l).
Proof. intros H. induction l; constructor; auto. Qed.

Lemma project_archived n (l : list Task) :
  Db.project <$> (Db.archive_row n <$> l) =
  (fun t => Db.mkArchiveRow (id t) (title t) (user_id t) n) <$> l.
Proof. induction l as [|x l IH]; [reflexivity|]. cbn. f_equal. exact IH. Qed.

(** C5. With the table reachable, the sweep at a cutoff changes exactly
    the rows with status [done] and [updated_at] earlier than the cutoff:
    each of them gets status [archived] and [updated_at] set to the instant
    of the sweep and keeps its other columns, and every other row stays as
    it is. The sweep answers 200 and reports these rows (id, title, owner,
    new [updated_at]), in table order, and their number. Afterwards no row
    with status [done] is older than the cutoff, so a second sweep with
    the same cutoff on the resulting table, at whatever instant, reports
    [archived_count = 0] with no rows and changes nothing. The POST
    handler, once past its credential check, is this sweep at its cutoff
    of 30 days before the request. *)
Theorem sweep_archives_once (cutoff : Z) (w : World) :
  db_fault w = None ->
  let run := ArchiveRoute.sweep cutoff w in
  Forall2 (fun t t' =>
             (status t = done_ /\ updated_at t < cutoff ->
              status t' = archived /\ updated_at t' = now w /\
              id t' = id t /\ user_id t' = user_id t /\ title t' = title t /\
              description t' = description t /\ due_date t' = due_date t /\
              created_at t' = created_at t) /\
             (~ (status t = done_ /\ updated_at t < cutoff) -> t' = t))
          (tasks w) (tasks run.2) /\
  status_code run.1 = 200 /\
  (exists hits,
      payload run.1 =
        PArchived (Z.of_nat (length hits))
                  ((fun t => Db.mkArchiveRow (id t) (title t) (user_id t) (now w)) <$> hits)
                  cutoff /\
      hits = filter (fun t => Status_eqb (status t) done_ && (updated_at t <? cutoff) = true)
                    (tasks w) /\
      forall t, In t hits <-> In t (tasks w) /\ status t = done_ /\ updated_at t < cutoff) /\
  Forall (fun t' => status t' = done_ -> cutoff <= updated_at t') (tasks run.2) /\
  (forall w2,
      tasks w2 = tasks run.2 -> db_fault w2 = None ->
      status_code (ArchiveRoute.sweep cutoff w2).1 = 200 /\
      payload (ArchiveRoute.sweep cutoff w2).1 = PArchived 0 [] cutoff /\
      tasks (ArchiveRoute.sweep cutoff w2).2 = tasks w2) /\
  (forall NODE_ENV authHeader,
      ArchiveRoute.rejected NODE_ENV authHeader = false ->
      ArchiveRoute.POST NODE_ENV authHeader w =
      ArchiveRoute.sweep (ArchiveRoute.thirtyDaysAgo (now w)) w).
Proof.
  intros Hdb run.
  destruct (sweep_run cutoff w Hdb) as [Ht Hr]. fold run in Ht, Hr.
  assert (Hnone : forall t, In t (tasks run.2) -> Db.archivable cutoff t = false)
    by (rewrite Ht; apply swept_none).
  split; [|split; [now rewrite Hr|split; [|split; [|split]]]].
  - rewrite Ht. apply Forall2_map_self. intros t.
    destruct (Db.archivable cutoff t) eqn:E.
    + split; [intros _; cbn; repeat split; reflexivity|].
      intros Hn. apply archivable_iff in E. contradiction.
    + split; [|reflexivity]. intros Hy. apply archivable_iff in Hy. congruence.
  - exists (filter (fun t => Db.archivable cutoff t = true) (tasks w)).
    split; [rewrite Hr; cbn [payload]; now rewrite project_archived|].
    split; [reflexivity|].
    intros t. rewrite <- !list_elem_of_In, list_elem_of_filter.
    fold (Db.archivable cutoff t). rewrite archivable_iff. tauto.
  - apply Forall_forall. intros t Hin Hst. apply list_elem_of_In, Hnone in Hin.
    destruct (Z.le_gt_cases cutoff (updated_at t)) as [Hle | Hgt]; [exact Hle|].
    assert (Db.archivable cutoff t = true) by (apply archivable_iff; split; [exact Hst | lia]).
    congruence.
  - intros w2 Hw2 Hdb2.
    destruct (sweep_run cutoff w2 Hdb2) as [Ht2 Hr2].
    assert (Hnone2 : forall t, In t (tasks w2) -> Db.archivable cutoff t = false)
      by (rewrite Hw2; exact Hnone).
    rewrite (filter_none _ _ Hnone2) in Hr2.
    rewrite Hr2, Ht2. repeat split.
    apply map_id_on. intros t Hin. now rewrite (Hnone2 t Hin).
  - intros NODE_ENV authHeader Hrej. unfold ArchiveRoute.POST. rewrite Hrej.
    reflexivity.
Qed.

Lemma sweep_archives_once_witness :
  let w := Sample.archive_world in
  let cutoff := ArchiveRoute.thirtyDaysAgo (now w) in
  let run := ArchiveRoute.sweep cutoff w in
  db_fault w = None /\
  payload run.1 =
    PArchived 2 [Db.mkArchiveRow "t1" "Buy milk" "u1" (now w);
                 Db.mkArchiveRow "t2" "Buy milk" "u2" (now w)] cutoff /\
  status <$> tasks run.2 = [archived; archived; done_; todo; archived] /\
  payload (ArchiveRoute.sweep cutoff run.2).1 = PArchived 0 [] cutoff.
Proof.
  intros w cutoff run.
  destruct (sweep_archives_once cutoff w eq_refl) as (_ & _ & (hits & H1 & -> & _) & _ & H2 & _).
  destruct (H2 run.2 eq_refl eq_refl) as (_ & H3 & _).
  split; [reflexivity|]. split; [exact H1|]. split; [reflexivity | exact H3].
Defined.

(** ** Credentials of the archival endpoint *)

(** POST, outside development mode and without a header that contains
    [Bearer], answers 401 and makes no database call. *)
Lemma archive_POST_requires_bearer (NODE_ENV : string) (authHeader : option string)
  (w : World) :
  ArchiveRoute.rejected NODE_ENV authHeader = true ->
  let run := ArchiveRoute.POST NODE_ENV authHeader w in
  status_code run.1 = 401 /\ tasks run.2 = tasks w /\
  Pipeline.new_events w run.2 = [Responded 401].
Proof.
  intros Hrej. unfold ArchiveRoute.POST. rewrite Hrej.
  unfold respond, bind, ret, emit, Pipeline.new_events. cbn.
  now rewrite drop_app_length.
Qed.

Lemma rejected_without_header NODE_ENV :
  NODE_ENV <> "development" -> ArchiveRoute.rejected NODE_ENV None = true.
Proof.
  intros H. unfold ArchiveRoute.rejected.
  destruct (String.eqb_spec NODE_ENV "development"); [contradiction | reflexivity].
Qed.

(** C6, what GET does. Whatever the runtime mode and the Authorization
    header, GET /api/admin/archive-tasks never answers 401: it queries the
    table with the service client and, when the table answers, returns 200
    with the archivable rows of every owner. *)
Theorem archive_GET_checks_no_credential
  (NODE_ENV : string) (authHeader : option string) (w : World) :
  let run := ArchiveRoute.GET NODE_ENV authHeader w in
  status_code run.1 <> 401 /\
  (exists ok, In (DbCall ServiceRole SELECT ok) (Pipeline.new_events w run.2)) /\
  (db_fault w = None ->
   status_code run.1 = 200 /\
   exists rows,
     payload run.1 =
       PArchivable (Z.of_nat (length rows)) rows (ArchiveRoute.thirtyDaysAgo (now w)) /\
     rows = Db.project <$>
              filter (fun t => Db.archivable (ArchiveRoute.thirtyDaysAgo (now w)) t = true)
                     (tasks w)).
Proof.
  unfold ArchiveRoute.GET, Db.archivable_select, Db.reply, respond, console_error,
    get_now, bind, ret, emit, Pipeline.new_events.
  destruct (db_fault w) as [msg|] eqn:Hdb; cbn -[filter drop length].
  - rewrite <- !app_assoc, drop_app_length.
    split; [discriminate|]. split; [|discriminate].
    exists false. now left.
  - rewrite <- !app_assoc, drop_app_length.
    split; [discriminate|]. split; [exists true; now left|].
    intros _. split; [reflexivity|]. eexists. split; reflexivity.
Qed.

(** In production, without any Authorization header, on the sample table. *)
Example archive_GET_unauthenticated :
  let run := ArchiveRoute.GET "production" None Sample.archive_world in
  ArchiveRoute.rejected "production" None = true /\
  status_code run.1 = 200 /\
  payload run.1 =
    PArchivable 2 [Db.mkArchiveRow "t1" "Buy milk" "u1" (Sample.day 10);
                   Db.mkArchiveRow "t2" "Buy milk" "u2" (Sample.day 69)]
                (Sample.day 70) /\
  trace run.2 = [DbCall ServiceRole SELECT true; Responded 200].
Proof. vm_compute. repeat split; reflexivity. Qed.

(** ** CORS headers *)

Section CorsFacts.

Import Csp.

Lemma includes_In l x : includes l x = true <-> In x l.
Proof.
  unfold includes. rewrite existsb_exists. split.
  - intros (y & Hy & He). apply String.eqb_eq in He. now subst.
  - intros H. exists x. split; [exact H | apply String.eqb_refl].
Qed.

Lemma truthy_iff s : truthy s = true <-> s <> "".
Proof.
  unfold truthy. destruct (String.eqb_spec s ""); cbn; split; intros; congruence.
Qed.

Lemma base_fixed :
  base_headers !! "Access-Control-Allow-Methods" = Some "GET, POST, PUT, DELETE, OPTIONS" /\
  base_headers !! "Access-Control-Allow-Headers" =
    Some "Content-Type, Authorization, X-Requested-With" /\
  base_headers !! "Access-Control-Max-Age" = Some "86400" /\
  base_headers !! "Access-Control-Allow-Origin" = None /\
  base_headers !! "Access-Control-Allow-Credentials" = None.
Proof. unfold base_headers. repeat split; now lookups. Qed.

Lemma allow_fixed o :
  allow o base_headers !! "Access-Control-Allow-Methods" =
    Some "GET, POST, PUT, DELETE, OPTIONS" /\
  allow o base_headers !! "Access-Control-Allow-Headers" =
    Some "Content-Type, Authorization, X-Requested-With" /\
  allow o base_headers !! "Access-Control-Max-Age" = Some "86400" /\
  allow o base_headers !! "Access-Control-Allow-Origin" = Some o /\
  allow o base_headers !! "Access-Control-Allow-Credentials" = Some "true".
Proof. unfold allow, base_headers. repeat split; now lookups. Qed.

(** The three outcomes of [getCORSHeaders]. *)
Lemma getCORSHeaders_cases env origin :
  getCORSHeaders env origin =
  match origin with
  | Some o =>
      if String.eqb o "null" then allow "null" base_headers
      else if truthy o && includes (allowedOrigins env) o then allow o base_headers
      else base_headers
  | None => base_headers
  end.
Proof. reflexivity. Qed.

End CorsFacts.

(** C8 (as amended). For every configured allow-list and every Origin
    value, the result carries the allowed methods, the allowed request
    headers and a max-age of 86400; for the Origin [null] it carries
    Allow-Origin [null] and Allow-Credentials [true]; for a non-empty
    Origin that is in the allow-list it carries that origin as Allow-Origin
    and Allow-Credentials [true]; for an absent Origin, an empty one, and
    any other one not in the allow-list it carries neither. *)
Theorem getCORSHeaders_policy (CORS_ORIGINS : option string) (origin : option string) :
  let h := Csp.getCORSHeaders CORS_ORIGINS origin in
  (h !! "Access-Control-Allow-Methods" = Some "GET, POST, PUT, DELETE, OPTIONS" /\
   h !! "Access-Control-Allow-Headers" = Some "Content-Type, Authorization, X-Requested-With" /\
   h !! "Access-Control-Max-Age" = Some "86400") /\
  (origin = Some "null" ->
   h !! "Access-Control-Allow-Origin" = Some "null" /\
   h !! "Access-Control-Allow-Credentials" = Some "true") /\
  (forall o,
      origin = Some o -> o <> "" -> In o (Csp.allowedOrigins CORS_ORIGINS) ->
      h !! "Access-Control-Allow-Origin" = Some o /\
      h !! "Access-Control-Allow-Credentials" = Some "true") /\
  (forall o,
      origin = Some o -> o <> "null" ->
      o = "" \/ ~ In o (Csp.allowedOrigins CORS_ORIGINS) ->
      h !! "Access-Control-Allow-Origin" = None /\
      h !! "Access-Control-Allow-Credentials" = None) /\
  (origin = None ->
   h !! "Access-Control-Allow-Origin" = None /\
   h !! "Access-Control-Allow-Credentials" = None).
Proof.
  intros h. unfold h. rewrite getCORSHeaders_cases.
  pose proof base_fixed as (B1 & B2 & B3 & B4 & B5).
  split; [|split; [|split; [|split]]].
  - destruct origin as [o|]; [|auto].
    destruct (String.eqb o "null"); [|destruct (Csp.truthy o && _)];
      try (pose proof (allow_fixed "null") as (A1 & A2 & A3 & _));
      try (pose proof (allow_fixed o) as (A1' & A2' & A3' & _)); auto.
  - intros ->. cbn. pose proof (allow_fixed "null") as (_ & _ & _ & A4 & A5). auto.
  - intros o -> Hne Hin.
    destruct (String.eqb_spec o "null") as [-> | Hnull].
    + pose proof (allow_fixed "null") as (_ & _ & _ & A4 & A5). auto.
    + apply truthy_iff in Hne. apply includes_In in Hin. rewrite Hne, Hin. cbn.
      pose proof (allow_fixed o) as (_ & _ & _ & A4 & A5). auto.
  - intros o -> Hnull Hor.
    destruct (String.eqb_spec o "null") as [? | _]; [contradiction|].
    assert (Csp.truthy o && Csp.includes (Csp.allowedOrigins CORS_ORIGINS) o = false) as ->;
      [|auto].
    apply andb_false_iff. destruct Hor as [-> | Hnot]; [left; reflexivity | right].
    apply not_true_is_false. now rewrite includes_In.
  - intros ->. auto.
Qed.

Lemma getCORSHeaders_policy_witness :
  let h := Csp.getCORSHeaders (Some "http://localhost:3000,https://tasks.example")
                              (Some "https://tasks.example") in
  In "https://tasks.example"
     (Csp.allowedOrigins (Some "http://localhost:3000,https://tasks.example")) /\
  h !! "Access-Control-Allow-Origin" = Some "https://tasks.example" /\
  h !! "Access-Control-Allow-Credentials" = Some "true".
Proof.
  intros h.
  assert (Hin : In "https://tasks.example"
                   (Csp.allowedOrigins (Some "http://localhost:3000,https://tasks.example")))
    by (vm_compute; tauto).
  destruct (getCORSHeaders_policy (Some "http://localhost:3000,https://tasks.example")
              (Some "https://tasks.example")) as (_ & _ & H & _).
  destruct (H "https://tasks.example" eq_refl ltac:(discriminate) Hin) as (H1 & H2).
  split; [exact Hin|]. split; [exact H1 | exact H2].
Defined.

(** C8 as stated fails for the empty Origin when the allow-list has an
    empty entry ([CORS_ORIGINS] set to the empty text, or with a trailing
    comma): the origin is in the allow-list and no Allow-Origin is set. *)
Lemma empty_origin_counterexample :
  In "" (Csp.allowedOrigins (Some "")) /\
  Csp.getCORSHeaders (Some "") (Some "") !! "Access-Control-Allow-Origin" = None /\
  In "" (Csp.allowedOrigins (Some "https://tasks.example,")) /\
  Csp.getCORSHeaders (Some "https://tasks.example,") (Some "")
    !! "Access-Control-Allow-Origin" = None.
Proof. vm_compute. tauto. Qed.

(** * Further properties *)

(** ** The five task endpoints at once *)

Ltac unfold_api :=
  unfold Api.serve, TasksList.GET, TasksList.respond_list, TasksList.select_ordered.

(** X1. Without a session, every task endpoint (list, create, read,
    update, delete) answers 401 with no headers and issues no database and
    no cache call: the table and the cache are what they were. *)
Theorem serve_unauthenticated (e : Api.Endpoint) (req : Req) (w : World) :
  auth_user req = None ->
  let run := Api.serve e req w in
  run.1 = (401, []) /\
  tasks run.2 = tasks w /\ cache run.2 = cache w /\
  Forall (fun ev => Api.is_backend_event ev = false) (Pipeline.new_events w run.2).
Proof.
  intros Hu. destruct e; unfold_api; unfold_handlers; unfold_cache; rewrite Hu;
    reduce_run; (split; [reflexivity|]); (split; [reflexivity|]); (split; [reflexivity|]);
    norm_events; repeat constructor.
Qed.

Lemma serve_unauthenticated_witness :
  auth_user Scenario.anonymous = None /\
  (Api.serve (Api.DeleteTask "t1") Scenario.anonymous (Sample.world true)).1 = (401, []).
Proof.
  split; [reflexivity|].
  destruct (serve_unauthenticated (Api.DeleteTask "t1") Scenario.anonymous
              (Sample.world true) eq_refl) as (H & _).
  exact H.
Defined.

(** X2. When the limiter of the endpoint's kind (the read limiter for
    the list and the single read, the write limiter for create, update and
    delete) refuses the caller's key, the endpoint answers 429 with
    Retry-After set to the seconds until the reset, rounded up, and the
    X-RateLimit-Limit and X-RateLimit-Remaining of the limiter's reply; the
    hit is logged with [console.warn], and no database or cache call is
    issued. *)
Theorem serve_rate_limited (e : Api.Endpoint) (req : Req) (uid : string)
  (r : RatelimitResponse) (w : World) :
  auth_user req = Some uid ->
  limit_reply w (Api.limiter_of e) (Ratelimit.createRateLimitKey (Some uid) (ip req)) = Some r ->
  rsp_success r = false ->
  let run := Api.serve e req w in
  run.1.1 = 429 /\
  In ("Retry-After", pretty (Ratelimit.ceil_div (rsp_reset r - now w) 1000)) run.1.2 /\
  In ("X-RateLimit-Limit", pretty (rsp_limit r)) run.1.2 /\
  In ("X-RateLimit-Remaining", pretty (rsp_remaining r)) run.1.2 /\
  tasks run.2 = tasks w /\ cache run.2 = cache w /\
  In (Console ConsoleWarn "Rate limit exceeded:") (Pipeline.new_events w run.2) /\
  Forall (fun ev => Api.is_backend_event ev = false) (Pipeline.new_events w run.2).
Proof.
  intros Hu Hr Hs. destruct e; unfold_api; unfold_handlers; unfold_cache; rewrite Hu;
    cbn [Api.limiter_of] in Hr; unfold Ratelimit.createRateLimitKey, limit_reply in Hr;
    reduce_run; rewrite Hr; reduce_run; rewrite Hs; reduce_run;
    (split; [reflexivity|]); (split; [now left|]);
    (split; [right; now left|]); (split; [right; right; now left|]);
    (split; [reflexivity|]); (split; [reflexivity|]);
    norm_events; (split; [simpl; tauto | repeat constructor]).
Qed.

Lemma serve_rate_limited_witness :
  auth_user (Sample.req "u1" None) = Some "u1" /\
  (Api.serve Api.ListTasks (Sample.req "u1" None) Scenario.limited).1.1 = 429.
Proof.
  split; [reflexivity|].
  destruct (serve_rate_limited Api.ListTasks (Sample.req "u1" None) "u1"
              (mkRatelimitResponse false 60 0 61000) Scenario.limited
              eq_refl eq_refl eq_refl) as (H & _).
  exact H.
Defined.

(** ** What a request leaves alone *)

Section Isolation.
Import Pipeline.

Lemma others_cons_own uid (t : Task) ts :
  user_id t = uid -> others uid (t :: ts) = others uid ts.
Proof.
  intros H. unfold others. rewrite filter_cons.
  destruct (decide _) as [Hd | Hd]; [|reflexivity].
  apply negb_true_iff, String.eqb_neq in Hd. contradiction.
Qed.

Lemma others_delete uid i ts :
  others uid (filter (fun t => negb (Db.visible (AsUser uid) t && Db.has_id i t) = true) ts)
  = others uid ts.
Proof.
  unfold others. induction ts as [|t ts IH]; [reflexivity|].
  rewrite !filter_cons.
  destruct (decide (negb (Db.visible (AsUser uid) t && Db.has_id i t) = true)) as [Hk | Hk].
  - rewrite filter_cons. now rewrite IH.
  - rewrite IH. destruct (decide _) as [Ho | Ho]; [|reflexivity].
    exfalso. apply Hk. apply negb_true_iff, andb_false_iff. left. cbn.
    now apply negb_true_iff in Ho.
Qed.

Lemma others_map_update uid i (f : Task -> Task) ts :
  (forall t, user_id (f t) = user_id t) ->
  others uid (map (fun t => if Db.visible (AsUser uid) t && Db.has_id i t then f t else t) ts)
  = others uid ts.
Proof.
  intros Hf. unfold others. induction ts as [|t ts IH]; [reflexivity|].
  cbn [map]. rewrite !filter_cons, IH.
  destruct (Db.visible (AsUser uid) t && Db.has_id i t) eqn:Hhit; [|reflexivity].
  apply andb_true_iff in Hhit as [Hv _]. cbn in Hv.
  destruct (decide _) as [Ho | Ho].
  - apply negb_true_iff in Ho. rewrite Hf in Ho. congruence.
  - destruct (decide _) as [Ho' | Ho']; [|reflexivity].
    apply negb_true_iff in Ho'. congruence.
Qed.

End Isolation.

Lemma serve_frame (e : Api.Endpoint) (req : Req) (w : World) :
  let w' := (Api.serve e req w).2 in
  db_fault w' = db_fault w /\ redis_up w' = redis_up w /\
  limiter_oracle w' = limiter_oracle w /\ now w' = now w.
Proof.
  destruct e; unfold_api; unfold_handlers; unfold_cache; split_run; repeat split; reflexivity.
Qed.

(** An endpoint calls the limiter of its kind at most once, with the
    caller's key, and no other. *)
Lemma serve_calls (e : Api.Endpoint) (req : Req) (w : World) :
  let w' := (Api.serve e req w).2 in
  limiter_calls w' = limiter_calls w \/
  exists uid,
    auth_user req = Some uid /\
    limiter_calls w' =
      limiter_calls w ++
      [(Api.limiter_of e, Ratelimit.createRateLimitKey (Some uid) (ip req), now w)].
Proof.
  destruct e; unfold_api; unfold_handlers; unfold_cache; split_run; reduce_run.
  all: try (left; reflexivity).
  all: right; eexists; (split; [reflexivity|]); unfold Ratelimit.createRateLimitKey;
       cbn [Api.limiter_of];
       repeat match goal with
              | H : String.eqb _ "" = _ |- _ => rewrite H
              end; reflexivity.
Qed.

Lemma earlier_calls_app l k a b :
  earlier_calls l k (a ++ b) = earlier_calls l k a ++ earlier_calls l k b.
Proof. unfold earlier_calls. now rewrite filter_app, fmap_app. Qed.

(** The calls of one limiter do not count for another. *)
Lemma serve_other_limiter (e : Api.Endpoint) (req : Req) (w : World) l k :
  l <> Api.limiter_of e ->
  earlier_calls l k (limiter_calls (Api.serve e req w).2) = earlier_calls l k (limiter_calls w).
Proof.
  intros Hl. destruct (serve_calls e req w) as [-> | (uid & _ & ->)]; [reflexivity|].
  rewrite earlier_calls_app. unfold earlier_calls at 2. rewrite filter_cons.
  destruct (decide _) as [Hd | _]; [|cbn; apply app_nil_r].
  cbn in Hd. apply andb_true_iff in Hd as [Hd _]. exfalso. apply Hl.
  destruct (Api.limiter_of e), l; cbn in Hd; congruence.
Qed.

(** X3. Whatever an authenticated caller asks of whichever task
    endpoint, the rows of every other owner are the same after the request
    as before it (with the row-level security of [Db.visible]). *)
Theorem serve_isolation (e : Api.Endpoint) (req : Req) (uid : string) (w : World) :
  auth_user req = Some uid ->
  Pipeline.others uid (tasks (Api.serve e req w).2) = Pipeline.others uid (tasks w).
Proof.
  intros Hu. destruct e; unfold_api; unfold_handlers; unfold_cache; rewrite Hu; split_run;
    try reflexivity.
  all: try (apply others_cons_own; reflexivity).
  all: try (apply others_map_update; reflexivity).
  all: try apply others_delete.
Qed.

Lemma serve_isolation_witness :
  auth_user (Sample.req "u1" None) = Some "u1" /\
  Pipeline.others "u1"
    (tasks (Api.serve (Api.DeleteTask "t2") (Sample.req "u1" None) (Sample.world true)).2)
  = Pipeline.others "u1" (tasks (Sample.world true)).
Proof.
  split; [reflexivity|].
  exact (serve_isolation (Api.DeleteTask "t2") (Sample.req "u1" None) "u1"
           (Sample.world true) eq_refl).
Defined.

(** ** The cache service on its own *)

Section CacheRoundTrips.

Lemma live_insert_eq w key e c :
  cache w = <[key := e]> c -> Redis.live w key = if Redis.alive (now w) e then Some (value e) else None.
Proof. intros H. unfold Redis.live. now rewrite H, lookup_insert_eq. Qed.

End CacheRoundTrips.

(** X4. On a store that answers, a value set under a key is read
    back under that key at every instant before 60 seconds have passed and
    no longer from then on; the entries of the other keys are not touched. *)
Theorem cache_set_then_get (key : string) (v : CacheVal) (t : Z) (w : World) :
  redis_up w = true ->
  let w1 := (CacheService.set key v w).2 in
  (CacheService.get key (at_time t w1)).1 = (if t <? now w + 60000 then Some v else None) /\
  (forall k, k <> key -> Redis.live w1 k = Redis.live w k).
Proof.
  intros Hup. unfold CacheService.set, CacheService.get, Redis.setex, Redis.get,
    CacheService.TTL, at_time, bind, ret, emit, set_cache, console_error.
  cbv beta. rewrite Hup. cbn. unfold Redis.live. cbn. split.
  - rewrite lookup_insert_eq. unfold Redis.alive. cbn.
    replace (now w + 60 * 1000) with (now w + 60000) by lia. reflexivity.
  - intros k Hk. now rewrite lookup_insert_ne by congruence.
Qed.

Lemma cache_set_then_get_witness :
  redis_up (Sample.world true) = true /\
  (CacheService.get "tasks:u2"
     (at_time 60999 (CacheService.set "tasks:u2" (CTasks []) (Sample.world true)).2)).1
  = Some (CTasks []) /\
  (CacheService.get "tasks:u2"
     (at_time 61000 (CacheService.set "tasks:u2" (CTasks []) (Sample.world true)).2)).1
  = None.
Proof.
  split; [reflexivity|]. split.
  - destruct (cache_set_then_get "tasks:u2" (CTasks []) 60999 (Sample.world true) eq_refl)
      as (H & _). exact H.
  - destruct (cache_set_then_get "tasks:u2" (CTasks []) 61000 (Sample.world true) eq_refl)
      as (H & _). exact H.
Defined.

(** X5. On a store that answers, a key that was deleted reads as
    absent, and the entries of the other keys are not touched. *)
Theorem cache_del_then_get (key : string) (w : World) :
  redis_up w = true ->
  let w1 := (CacheService.del key w).2 in
  (CacheService.get key w1).1 = None /\
  (forall k, k <> key -> Redis.live w1 k = Redis.live w k).
Proof.
  intros Hup. unfold CacheService.del, CacheService.get, Redis.del, Redis.get,
    bind, ret, emit, set_cache, console_error.
  cbv beta. rewrite Hup. cbn. unfold Redis.live. cbn. split.
  - now rewrite lookup_delete_eq.
  - intros k Hk. now rewrite lookup_delete_ne by congruence.
Qed.

Lemma cache_del_then_get_witness :
  redis_up (Sample.world true) = true /\
  (CacheService.get "tasks:u1" (CacheService.del "tasks:u1" (Sample.world true)).2).1 = None.
Proof.
  split; [reflexivity|].
  destruct (cache_del_then_get "tasks:u1" (Sample.world true) eq_refl) as (H & _). exact H.
Defined.

(** X6. When the store does not answer, [get] returns null and
    [set], [del] and [invalidatePattern] change nothing; each of [get],
    [set] and [del] issues its one command and logs the failure with
    [console.error], and none of them throws. *)
Theorem cache_fails_soft (key pattern : string) (v : CacheVal) (w : World) :
  redis_up w = false ->
  (CacheService.get key w).1 = None /\
  cache (CacheService.get key w).2 = cache w /\
  cache (CacheService.set key v w).2 = cache w /\
  cache (CacheService.del key w).2 = cache w /\
  cache (CacheService.invalidatePattern pattern w).2 = cache w /\
  trace (CacheService.get key w).2 =
    trace w ++ [RedisCall (RGet key) false; Console ConsoleError "Cache get error:"] /\
  trace (CacheService.set key v w).2 =
    trace w ++ [RedisCall (RSetex key 60) false; Console ConsoleError "Cache set error:"] /\
  trace (CacheService.del key w).2 =
    trace w ++ [RedisCall (RDel [key]) false; Console ConsoleError "Cache delete error:"].
Proof.
  intros Hup. unfold CacheService.del, CacheService.get, CacheService.set,
    CacheService.invalidatePattern, Redis.del, Redis.get, Redis.setex, Redis.keys,
    CacheService.TTL, bind, ret, emit, set_cache, console_error, emit.
  cbv beta. rewrite Hup. cbn. rewrite <- !app_assoc. repeat split; reflexivity.
Qed.

Lemma cache_fails_soft_witness :
  redis_up (Sample.world false) = false /\
  (CacheService.get "tasks:u1" (Sample.world false)).1 = None.
Proof.
  split; [reflexivity|].
  destruct (cache_fails_soft "tasks:u1" "*" (CTasks []) (Sample.world false) eq_refl)
    as (H & _). exact H.
Defined.

(** ** Read-through caching *)

Section Compose.

Lemma serve_world_get req i w : (Api.serve (Api.GetTask i) req w).2 = (TaskRoute.GET req i w).2.
Proof. unfold Api.serve, bind, ret. now destruct (TaskRoute.GET req i w). Qed.
Lemma serve_world_put req i w : (Api.serve (Api.UpdateTask i) req w).2 = (TaskRoute.PUT req i w).2.
Proof. unfold Api.serve, bind, ret. now destruct (TaskRoute.PUT req i w). Qed.
Lemma serve_world_delete req i w : (Api.serve (Api.DeleteTask i) req w).2 = (TaskRoute.DELETE req i w).2.
Proof. unfold Api.serve, bind, ret. now destruct (TaskRoute.DELETE req i w). Qed.
Lemma serve_world_list req w : (Api.serve Api.ListTasks req w).2 = (TasksList.GET req w).2.
Proof. unfold Api.serve, bind, ret. now destruct (TasksList.GET req w). Qed.

Lemma rate_ext l k w1 w :
  limit_reply w1 l k = limit_reply w l k -> now w1 = now w ->
  (Ratelimit.checkRateLimit l k w1).1 = (Ratelimit.checkRateLimit l k w).1.
Proof.
  intros Hl Hn. unfold Ratelimit.checkRateLimit, Ratelimit.limiter_limit, record_call,
    bind, get_now, ret, console_error, emit. cbv beta. rewrite Hl.
  destruct (limit_reply w l k); cbn; rewrite ?Hn; reflexivity.
Qed.

(** A request leaves the answers of the limiters of the other kinds as
    they were. *)
Lemma serve_other_reply (e : Api.Endpoint) (req : Req) (w : World) l k :
  l <> Api.limiter_of e ->
  limit_reply (Api.serve e req w).2 l k = limit_reply w l k.
Proof.
  intros Hl. destruct (serve_frame e req w) as (_ & _ & Fo & Fn).
  unfold limit_reply. now rewrite Fo, Fn, (serve_other_limiter e req w l k Hl).
Qed.

(** A check made after a request that used another limiter gets the answer
    it would have got before the request. *)
Lemma rate_after_other (e : Api.Endpoint) (req : Req) (w : World) l k :
  l <> Api.limiter_of e ->
  (Ratelimit.checkRateLimit l k (Api.serve e req w).2).1 =
  (Ratelimit.checkRateLimit l k w).1.
Proof.
  intros Hl. destruct (serve_frame e req w) as (_ & _ & _ & Fn).
  apply rate_ext; [now apply serve_other_reply | exact Fn].
Qed.

Lemma GET_fetch (req : Req) (i uid : string) (t : Task) (w : World) :
  auth_user req = Some uid ->
  Ratelimit.success
    (Ratelimit.checkRateLimit readLimiter
       (Ratelimit.createRateLimitKey (Some uid) (ip req)) w).1 = true ->
  redis_up w = true ->
  Redis.live w (CacheService.getUserTaskKey uid i) = None ->
  db_fault w = None ->
  filter (fun t => Db.visible (AsUser uid) t && Db.has_id i t = true) (tasks w) = [t] ->
  let run := TaskRoute.GET req i w in
  status_code run.1 = 200 /\ payload run.1 = PFetched t /\
  In ("X-Cache", "MISS") (headers run.1) /\
  tasks run.2 = tasks w /\
  forall t', Redis.live (at_time t' run.2) (CacheService.getUserTaskKey uid i) =
             if t' <? now w + 60000 then Some (CTask t) else None.
Proof.
  intros Hu Hrl Hup Hmiss Hdb Hrow. revert Hrl.
  unfold_handlers; unfold_cache; rewrite Hu.
  split_run; intros Hrl; try discriminate; try congruence.
  all: try match goal with
       | H : Redis.live ?w1 ?k = Some _ |- _ =>
           rewrite (live_ext w1 w k eq_refl eq_refl) in H; congruence
       end.
  all: try (injection Hrow as ->); try discriminate.
  all: reduce_run.
  all: (split; [reflexivity|]); (split; [reflexivity|]);
       (split; [simpl; tauto|]); (split; [reflexivity|]).
  all: intros t'; unfold Redis.live, at_time; cbn; rewrite lookup_insert_eq;
       unfold Redis.alive; cbn; unfold CacheService.TTL;
       change (60 * 1000) with 60000; destruct (t' <? now w + 60000); reflexivity.
Qed.


Lemma GET_cached (req : Req) (i uid : string) (v : CacheVal) (w : World) :
  auth_user req = Some uid ->
  Ratelimit.success
    (Ratelimit.checkRateLimit readLimiter
       (Ratelimit.createRateLimitKey (Some uid) (ip req)) w).1 = true ->
  redis_up w = true ->
  Redis.live w (CacheService.getUserTaskKey uid i) = Some v ->
  let run := TaskRoute.GET req i w in
  status_code run.1 = 200 /\ payload run.1 = PCachedData v /\
  In ("X-Cache", "HIT") (headers run.1) /\
  tasks run.2 = tasks w /\
  (forall r op ok, ~ In (DbCall r op ok) (Pipeline.new_events w run.2)).
Proof.
  intros Hu Hrl Hup Hhit. revert Hrl.
  unfold_handlers; unfold_cache; rewrite Hu.
  split_run; intros Hrl; try discriminate; try congruence.
  all: try match goal with
       | H : Redis.live ?w1 ?k = _ |- _ =>
           rewrite (live_ext w1 w k eq_refl eq_refl) in H; try congruence
       end.
  all: repeat match goal with
       | H1 : Redis.live ?w0 ?k = Some _, H2 : Redis.live ?w0 ?k = Some _ |- _ =>
           rewrite H1 in H2
       | H : Some _ = Some _ |- _ => injection H as H; subst
       end.
  all: reduce_run.
  all: (split; [reflexivity|]); (split; [reflexivity|]);
       (split; [simpl; tauto|]); (split; [reflexivity|]).
  all: intros ? ? ?; norm_events; simpl; intros Hin;
       decompose [or] Hin; try discriminate; try contradiction.
Qed.

End Compose.

(** X7. A read of one's own task that misses the cache answers 200
    with the row of the table and X-Cache MISS, and stores it. The same
    read repeated at a later instant, when the read limiter lets that one
    through as well, answers 200: from the cache (X-Cache HIT, no database
    call) as long as fewer than 60 seconds have passed since the first
    read, and from the table again (X-Cache MISS) from 60 seconds on. *)
Theorem GET_reads_through (req : Req) (i uid : string) (t : Task) (w : World) (later : Z) :
  auth_user req = Some uid ->
  Ratelimit.success
    (Ratelimit.checkRateLimit readLimiter
       (Ratelimit.createRateLimitKey (Some uid) (ip req)) w).1 = true ->
  Ratelimit.success
    (Ratelimit.checkRateLimit readLimiter
       (Ratelimit.createRateLimitKey (Some uid) (ip req))
       (at_time later (TaskRoute.GET req i w).2)).1 = true ->
  redis_up w = true ->
  Redis.live w (CacheService.getUserTaskKey uid i) = None ->
  db_fault w = None ->
  filter (fun t => Db.visible (AsUser uid) t && Db.has_id i t = true) (tasks w) = [t] ->
  let first := TaskRoute.GET req i w in
  let second := TaskRoute.GET req i (at_time later first.2) in
  status_code first.1 = 200 /\ payload first.1 = PFetched t /\
  In ("X-Cache", "MISS") (headers first.1) /\
  status_code second.1 = 200 /\
  (later < now w + 60000 ->
   payload second.1 = PCachedData (CTask t) /\
   In ("X-Cache", "HIT") (headers second.1) /\
   forall r op ok, ~ In (DbCall r op ok) (Pipeline.new_events (at_time later first.2) second.2)) /\
  (now w + 60000 <= later ->
   payload second.1 = PFetched t /\ In ("X-Cache", "MISS") (headers second.1)).
Proof.
  intros Hu Hrl Hrl2 Hup Hmiss Hdb Hrow first second.
  destruct (GET_fetch req i uid t w Hu Hrl Hup Hmiss Hdb Hrow) as (H1 & H2 & H3 & H4 & H5).
  fold first in H1, H2, H3, H4, H5, Hrl2. specialize (H5 later).
  destruct (serve_frame (Api.GetTask i) req w) as (Fdb & Fup & _ & _).
  rewrite serve_world_get in Fdb, Fup. fold first in Fdb, Fup.
  assert (Hup2 : redis_up (at_time later first.2) = true)
    by (unfold at_time; cbn [redis_up]; congruence).
  assert (Hdb2 : db_fault (at_time later first.2) = None)
    by (unfold at_time; cbn [db_fault]; congruence).
  assert (Hrow2 : filter (fun t => Db.visible (AsUser uid) t && Db.has_id i t = true)
                    (tasks (at_time later first.2)) = [t])
    by (unfold at_time; cbn [tasks]; rewrite H4; exact Hrow).
  do 3 (split; [assumption|]).
  destruct (Z.ltb_spec later (now w + 60000)) as [Hlt | Hge].
  - destruct (GET_cached req i uid (CTask t) _ Hu Hrl2 Hup2 H5) as (G1 & G2 & G3 & _ & G5).
    fold second in G1, G2, G3, G5.
    split; [exact G1|]. split; [intros _; auto | intros; lia].
  - destruct (GET_fetch req i uid t _ Hu Hrl2 Hup2 H5 Hdb2 Hrow2) as (G1 & G2 & G3 & _).
    fold second in G1, G2, G3.
    split; [exact G1|]. split; [intros; lia | intros _; auto].
Qed.

Lemma GET_reads_through_witness :
  let req := Sample.req "u2" None in
  let first := TaskRoute.GET req "t2" (Scenario.counted 0) in
  auth_user req = Some "u2" /\
  Redis.live (Scenario.counted 0) (CacheService.getUserTaskKey "u2" "t2") = None /\
  payload first.1 = PFetched (Sample.task "t2" "u2") /\
  status_code (TaskRoute.GET req "t2" (at_time 2000 first.2)).1 = 200 /\
  payload (TaskRoute.GET req "t2" (at_time 2000 first.2)).1
    = PCachedData (CTask (Sample.task "t2" "u2")).
Proof.
  intros req first.
  assert (Hmiss : Redis.live (Scenario.counted 0) (CacheService.getUserTaskKey "u2" "t2")
                  = None) by (vm_compute; reflexivity).
  assert (Hrl2 : Ratelimit.success
            (Ratelimit.checkRateLimit readLimiter
               (Ratelimit.createRateLimitKey (Some "u2") (ip req))
               (at_time 2000 (TaskRoute.GET req "t2" (Scenario.counted 0)).2)).1 = true)
    by (vm_compute; reflexivity).
  destruct (GET_reads_through req "t2" "u2" (Sample.task "t2" "u2") (Scenario.counted 0) 2000
              eq_refl eq_refl Hrl2 eq_refl Hmiss eq_refl eq_refl)
    as (_ & H2 & _ & H4 & H5 & _).
  destruct H5 as (H6 & _); [vm_compute; reflexivity|].
  split; [reflexivity|]. split; [exact Hmiss|]. split; [exact H2|].
  split; [exact H4 | exact H6].
Defined.

(** The limiter counts the first read: with one token left, the first read
    is answered 200 and the same read a second later 429. *)
Example GET_second_read_refused :
  let req := Sample.req "u2" None in
  let first := TaskRoute.GET req "t2" (Scenario.counted 59) in
  status_code first.1 = 200 /\
  status_code (TaskRoute.GET req "t2" (at_time 2000 first.2)).1 = 429.
Proof. vm_compute. split; reflexivity. Qed.

(** ** A write followed by a read *)

Section Effects.

Lemma live_after_invalidate u w1 w2 w k :
  CacheService.invalidateUserCache u w1 = (tt, w2) ->
  redis_up w1 = true -> cache w1 = cache w -> now w1 = now w ->
  Redis.live w2 k =
  if Glob.glob_match ("*:" +:+ u +:+ "*") k then None else Redis.live w k.
Proof.
  intros Hinv Hup Hc Hn.
  pose proof (invalidatePattern_live ("*:" +:+ u +:+ "*") w1 k Hup) as Hl.
  change (CacheService.invalidatePattern ("*:" +:+ u +:+ "*") w1)
    with (CacheService.invalidateUserCache u w1) in Hl.
  rewrite Hinv in Hl. cbn [snd] in Hl. rewrite Hl.
  destruct (Glob.glob_match _ k); [reflexivity | now apply live_ext].
Qed.

Lemma tasks_after_invalidate u w1 w2 :
  CacheService.invalidateUserCache u w1 = (tt, w2) -> tasks w2 = tasks w1.
Proof.
  intros H. pose proof (invalidatePattern_frame ("*:" +:+ u +:+ "*") w1) as F.
  change (CacheService.invalidatePattern ("*:" +:+ u +:+ "*") w1)
    with (CacheService.invalidateUserCache u w1) in F.
  rewrite H in F. apply F.
Qed.

Lemma DELETE_effect (req : Req) (i uid : string) (w : World) :
  auth_user req = Some uid ->
  Ratelimit.success
    (Ratelimit.checkRateLimit writeLimiter
       (Ratelimit.createRateLimitKey (Some uid) (ip req)) w).1 = true ->
  db_fault w = None ->
  redis_up w = true ->
  let run := TaskRoute.DELETE req i w in
  status_code run.1 = 200 /\
  tasks run.2 =
    filter (fun t => negb (Db.visible (AsUser uid) t && Db.has_id i t) = true) (tasks w) /\
  forall k, Redis.live run.2 k =
            if Glob.glob_match ("*:" +:+ uid +:+ "*") k then None else Redis.live w k.
Proof.
  intros Hu Hrl Hdb Hup. revert Hrl.
  unfold_handlers; rewrite Hu.
  split_run; intros Hrl; try discriminate; try congruence.
  all: reduce_run; (split; [reflexivity|]).
  all: split; [match goal with
               | H : CacheService.invalidateUserCache _ _ = _ |- _ =>
                   rewrite (tasks_after_invalidate _ _ _ H); reflexivity
               end|]; intros k.
  all: match goal with
       | H : CacheService.invalidateUserCache _ _ = _ |- _ =>
           rewrite <- (live_after_invalidate _ _ _ w k H Hup eq_refl eq_refl)
       end; apply live_ext; reflexivity.
Qed.


Lemma Forall2_same {A} (R : A -> A -> Prop) (l : list A) :
  (forall x, R x x) -> Forall2 R l l.
Proof. intros H. induction l; constructor; auto. Qed.

End Effects.

(** X8. After a DELETE that answered 200, a GET of the same id by
    the same caller answers 404: the row is gone from the table and the
    caller's cache entries were invalidated (store reachable, owner id
    without glob metacharacters). *)
Theorem DELETE_then_GET_404 (req : Req) (i uid : string) (w : World) :
  auth_user req = Some uid ->
  Ratelimit.success
    (Ratelimit.checkRateLimit writeLimiter
       (Ratelimit.createRateLimitKey (Some uid) (ip req)) w).1 = true ->
  Ratelimit.success
    (Ratelimit.checkRateLimit readLimiter
       (Ratelimit.createRateLimitKey (Some uid) (ip req)) w).1 = true ->
  db_fault w = None ->
  redis_up w = true ->
  Glob.plain uid = true ->
  let deleted := TaskRoute.DELETE req i w in
  status_code deleted.1 = 200 /\
  status_code (TaskRoute.GET req i deleted.2).1 = 404.
Proof.
  intros Hu Hw Hr Hdb Hup Hp deleted.
  destruct (DELETE_effect req i uid w Hu Hw Hdb Hup) as (H1 & H2 & H3).
  fold deleted in H1, H2, H3. split; [exact H1|].
  destruct (serve_frame (Api.DeleteTask i) req w) as (Fdb & Fup & Fl & Fn).
  rewrite serve_world_delete in Fdb, Fup, Fl, Fn. fold deleted in Fdb, Fup, Fl, Fn.
  apply (GET_not_own_404 req i uid deleted.2 Hu).
  - unfold deleted. rewrite <- serve_world_delete, rate_after_other by (cbn; discriminate).
    exact Hr.
  - rewrite H3, (owner_pattern uid _ Hp), task_key_contains. reflexivity.
  - congruence.
  - intros t Hin Hid Hown. rewrite H2 in Hin.
    apply list_elem_of_In, list_elem_of_filter in Hin as [Hk _].
    apply negb_true_iff, andb_false_iff in Hk as [Hk | Hk].
    + cbn in Hk. apply String.eqb_neq in Hk. contradiction.
    + unfold Db.has_id in Hk. apply String.eqb_neq in Hk. contradiction.
Qed.

Lemma DELETE_then_GET_404_witness :
  let req := Sample.req "u1" None in
  auth_user req = Some "u1" /\
  Glob.plain "u1" = true /\
  status_code (TaskRoute.DELETE req "t1" (Sample.world true)).1 = 200 /\
  status_code (TaskRoute.GET req "t1" (TaskRoute.DELETE req "t1" (Sample.world true)).2).1 = 404.
Proof.
  intros req. split; [reflexivity|]. split; [reflexivity|].
  exact (DELETE_then_GET_404 req "t1" "u1" (Sample.world true)
           eq_refl eq_refl eq_refl eq_refl eq_refl eq_refl).
Defined.



(** X10. PUT never adds or removes a row and never changes the id,
    the owner or the creation time of one; a row that differs afterwards is
    owned by the caller, has the id of the request, and has [updated_at] set
    to the instant of the request. *)
Theorem PUT_keeps_identity (req : Req) (i : string) (w : World) :
  Forall2 (fun t t' =>
             id t' = id t /\ user_id t' = user_id t /\ created_at t' = created_at t /\
             (t' = t \/
              (auth_user req = Some (user_id t) /\ id t = i /\ updated_at t' = now w)))
          (tasks w) (tasks (TaskRoute.PUT req i w).2).
Proof.
  unfold_handlers; unfold_cache; split_run; reduce_run.
  all: try (apply Forall2_same; intros; repeat split; auto).
  all: apply Forall2_map_self; intros x;
       destruct (Db.visible _ x && Db.has_id i x) eqn:Hhit;
       [|repeat split; auto].
  all: apply andb_true_iff in Hhit as [Hv Hid]; cbn in Hv;
       apply String.eqb_eq in Hv; apply String.eqb_eq in Hid;
       repeat split; try reflexivity; right; subst; auto.
Qed.

(** ** The list *)

Section OrderFacts.

Context {A : Type} (key : A -> Z).

Lemma insert_desc_perm (x : A) (l : list A) :
  Order.insert_desc key x l ≡ₚ x :: l.
Proof.
  induction l as [|y l IH]; [reflexivity|]. cbn.
  destruct (key y <=? key x); [reflexivity|].
  rewrite IH. apply Permutation_swap.
Qed.

Lemma sort_desc_perm (l : list A) : Order.sort_desc key l ≡ₚ l.
Proof.
  induction l as [|x l IH]; [reflexivity|]. cbn.
  rewrite insert_desc_perm. now rewrite IH.
Qed.

Lemma descending_bound (x : A) (l : list A) :
  Order.descending key l ->
  match l with [] => True | y :: _ => key y <= key x end ->
  Forall (fun z => key z <= key x) l.
Proof.
  destruct l as [|y l]; [constructor|].
  intros [Hall Hd] Hy. constructor; [exact Hy|].
  eapply Forall_impl; [exact Hall|]. cbn. intros; lia.
Qed.

Lemma insert_desc_descending (x : A) (l : list A) :
  Order.descending key l -> Order.descending key (Order.insert_desc key x l).
Proof.
  induction l as [|y l IH]; intros Hd.
  - cbn. split; [constructor | exact I].
  - cbn. destruct (Z.leb_spec (key y) (key x)) as [Hle | Hgt].
    + split; [|exact Hd]. apply descending_bound; assumption.
    + destruct Hd as [Hall Hd]. split; [|auto].
      rewrite insert_desc_perm. constructor; [lia | exact Hall].
Qed.

Lemma sort_desc_descending (l : list A) : Order.descending key (Order.sort_desc key l).
Proof.
  induction l as [|x l IH]; [exact I|]. cbn. now apply insert_desc_descending.
Qed.

End OrderFacts.

Section ListFacts.

Lemma list_GET_fetch (req : Req) (uid : string) (w : World) :
  auth_user req = Some uid ->
  Ratelimit.success
    (Ratelimit.checkRateLimit readLimiter
       (Ratelimit.createRateLimitKey (Some uid) (ip req)) w).1 = true ->
  redis_up w = true ->
  Redis.live w (CacheService.getUserTasksKey uid) = None ->
  db_fault w = None ->
  let run := TasksList.GET req w in
  TasksList.l_status run.1 = 200 /\
  TasksList.l_payload run.1 =
    TasksList.LFetched
      (Order.sort_desc created_at
         (filter (fun t => Db.visible (AsUser uid) t = true) (tasks w))) /\
  In ("X-Cache", "MISS") (TasksList.l_headers run.1) /\
  tasks run.2 = tasks w /\
  forall t', Redis.live (at_time t' run.2) (CacheService.getUserTasksKey uid) =
             if t' <? now w + 60000
             then Some (CTasks (Order.sort_desc created_at
                    (filter (fun t => Db.visible (AsUser uid) t = true) (tasks w))))
             else None.
Proof.
  intros Hu Hrl Hup Hmiss Hdb. revert Hrl.
  unfold_api; unfold_handlers; unfold_cache; rewrite Hu.
  split_run; intros Hrl; try discriminate; try congruence.
  all: try match goal with
       | H : Redis.live ?w1 ?k = Some _ |- _ =>
           rewrite (live_ext w1 w k eq_refl eq_refl) in H; congruence
       end.
  all: reduce_run.
  all: (split; [reflexivity|]); (split; [reflexivity|]);
       (split; [simpl; tauto|]); (split; [reflexivity|]).
  all: intros t'; unfold Redis.live, at_time; cbn; rewrite lookup_insert_eq;
       unfold Redis.alive; cbn; unfold CacheService.TTL;
       change (60 * 1000) with 60000; destruct (t' <? now w + 60000); reflexivity.
Qed.


End ListFacts.

(** X11. A list request that misses the cache answers 200 with
    exactly the caller's rows of the table, each once, ordered by creation
    time, newest first. *)
Theorem list_GET_own_newest_first (req : Req) (uid : string) (w : World) :
  auth_user req = Some uid ->
  Ratelimit.success
    (Ratelimit.checkRateLimit readLimiter
       (Ratelimit.createRateLimitKey (Some uid) (ip req)) w).1 = true ->
  redis_up w = true ->
  Redis.live w (CacheService.getUserTasksKey uid) = None ->
  db_fault w = None ->
  exists ts,
    TasksList.l_status (TasksList.GET req w).1 = 200 /\
    TasksList.l_payload (TasksList.GET req w).1 = TasksList.LFetched ts /\
    (forall t, In t ts <-> In t (tasks w) /\ user_id t = uid) /\
    length ts = length (filter (fun t => user_id t = uid) (tasks w)) /\
    Order.descending created_at ts.
Proof.
  intros Hu Hrl Hup Hmiss Hdb.
  destruct (list_GET_fetch req uid w Hu Hrl Hup Hmiss Hdb) as (H1 & H2 & _).
  eexists. split; [exact H1|]. split; [exact H2|].
  split; [|split].
  - intros t. rewrite <- !list_elem_of_In, sort_desc_perm, list_elem_of_filter.
    cbn. rewrite String.eqb_eq. tauto.
  - rewrite sort_desc_perm. f_equal. apply list_filter_iff. intros t. cbn.
    now rewrite String.eqb_eq.
  - apply sort_desc_descending.
Qed.

Lemma list_GET_own_newest_first_witness :
  let req := Sample.req "u2" None in
  auth_user req = Some "u2" /\
  Redis.live (Sample.world true) (CacheService.getUserTasksKey "u2") = None /\
  exists ts,
    TasksList.l_payload (TasksList.GET req (Sample.world true)).1 = TasksList.LFetched ts /\
    length ts = 1%nat.
Proof.
  intros req.
  assert (Hmiss : Redis.live (Sample.world true) (CacheService.getUserTasksKey "u2") = None)
    by (vm_compute; reflexivity).
  destruct (list_GET_own_newest_first req "u2" (Sample.world true)
              eq_refl eq_refl eq_refl Hmiss eq_refl) as (ts & _ & H2 & _ & H4 & _).
  split; [reflexivity|]. split; [exact Hmiss|].
  exists ts. split; [exact H2 | exact H4].
Defined.



(** ** The log buffer, the admin log route and the dashboard *)

Section BufferFacts.

Import LogBuffer.

Lemma addLog_bounded (m : nat) (e : LogEntry) (logs : list LogEntry) :
  (0 < m)%nat ->
  let pushed := logs ++ [e] in
  let kept := if (m <? length pushed)%nat then drop (length pushed - m) pushed else pushed in
  length kept = Nat.min (S (length logs)) m /\
  last kept = Some e /\
  pushed = take (S (length logs) - m) pushed ++ kept.
Proof.
  intros Hm pushed kept. subst kept pushed. rewrite length_app. cbn [length].
  replace (length logs + 1)%nat with (S (length logs)) by lia.
  destruct (Nat.ltb_spec m (S (length logs))) as [Hlt | Hge].
  - split; [rewrite length_drop, length_app; cbn [length]; lia|]. split.
    + rewrite drop_app_le by lia. apply last_snoc.
    + now rewrite take_drop.
  - split; [rewrite length_app; cbn [length]; lia|]. split; [apply last_snoc|].
    replace (S (length logs) - m)%nat with 0%nat by lia. reflexivity.
Qed.

Lemma addLog_small (e : LogEntry) (logs : list LogEntry) :
  (length logs < maxLogs)%nat -> addLog e logs = logs ++ [e].
Proof.
  intros H. unfold addLog. rewrite length_app. cbn [length].
  destruct (Nat.ltb_spec maxLogs (length logs + 1)); [lia | reflexivity].
Qed.

Lemma levels_partition (logs : list LogEntry) :
  (length (getLogsByLevel DEBUG logs) + length (getLogsByLevel INFO logs) +
   length (getLogsByLevel WARN logs) + length (getLogsByLevel ERROR logs))%nat
  = length logs.
Proof.
  unfold getLogsByLevel. induction logs as [|a l IH]; [reflexivity|].
  rewrite !filter_cons. destruct (level a); cbn;
    repeat case_decide; try discriminate; try congruence; cbn [length]; lia.
Qed.

End BufferFacts.

Section OrderMore.

Context {A : Type} (key : A -> Z).

Lemma descending_take (n : nat) (l : list A) :
  Order.descending key l -> Order.descending key (take n l).
Proof.
  revert n. induction l as [|x l IH]; intros [|n] Hd; cbn; auto.
  destruct Hd as [Hall Hd]. split; [now apply Forall_take | auto].
Qed.

End OrderMore.

(** X13. The log buffer keeps the newest 1000 entries: after
    [addLog] its length is the smaller of the old length plus one and 1000,
    its last entry is the one just added, and it is what is left of the old
    buffer followed by the new entry once the oldest entries in excess of
    1000 are dropped. *)
Theorem addLog_keeps_newest (e : LogBuffer.LogEntry) (logs : list LogBuffer.LogEntry) :
  length (LogBuffer.addLog e logs) = Nat.min (S (length logs)) 1000 /\
  last (LogBuffer.addLog e logs) = Some e /\
  exists evicted,
    logs ++ [e] = evicted ++ LogBuffer.addLog e logs /\
    length evicted = (S (length logs) - 1000)%nat.
Proof.
  assert (Hm : (0 < LogBuffer.maxLogs)%nat) by (unfold LogBuffer.maxLogs; lia).
  destruct (addLog_bounded LogBuffer.maxLogs e logs Hm) as (H1 & H2 & H3).
  fold (LogBuffer.addLog e logs) in H1, H2, H3.
  change 1000%nat with LogBuffer.maxLogs.
  split; [exact H1|]. split; [exact H2|].
  eexists. split; [exact H3|].
  rewrite length_take, length_app. cbn [length]. lia.
Qed.

Section AdminFacts.

Import LogBuffer AdminLogs.

Variable parseDate : string -> option Z.

Lemma selected_from_buffer q buffer e :
  e ∈ selected parseDate q buffer -> e ∈ buffer.
Proof.
  unfold selected, getLogsByTimeRange, getAllLogs.
  destruct (given (q_level q)), (given (q_userId q)), (given (q_startTime q)),
    (given (q_endTime q)); rewrite ?list_elem_of_filter; tauto.
Qed.

Lemma selected_length q buffer :
  (length (selected parseDate q buffer) <= length buffer)%nat.
Proof.
  unfold selected, getLogsByTimeRange, getAllLogs.
  destruct (given (q_level q)), (given (q_userId q)), (given (q_startTime q)),
    (given (q_endTime q));
    repeat (etransitivity; [apply length_filter|]); reflexivity.
Qed.

Lemma slice0_length {A} (n : option Z) (l : list A) :
  (length (slice0 n l) <= length l)%nat.
Proof.
  unfold slice0. destruct n as [n|]; [|cbn; lia].
  destruct (n <? 0); rewrite length_take; lia.
Qed.

Lemma slice0_sub {A} (n : option Z) (l : list A) x : x ∈ slice0 n l -> x ∈ l.
Proof.
  unfold slice0. destruct n as [n|]; [|intros H; inversion H].
  destruct (n <? 0); apply subseteq_take.
Qed.

Lemma slice0_descending {A} (key : A -> Z) (n : option Z) (l : list A) :
  Order.descending key l -> Order.descending key (slice0 n l).
Proof.
  unfold slice0. destruct n as [n|]; [|intros; exact I].
  destruct (n <? 0); apply descending_take.
Qed.

End AdminFacts.

(** X14. The logs returned by GET /api/admin/logs are entries of
    the buffer, ordered by timestamp, newest first, and at most [limit] of
    them when the limit parses to a number that is not negative; with no
    limit parameter at most 100. *)
Theorem admin_logs_newest_first (parseDate : string -> option Z) (q : AdminLogs.Query)
  (buffer : list LogBuffer.LogEntry) :
  let r := AdminLogs.GET parseDate q buffer in
  Order.descending LogBuffer.timestamp (AdminLogs.lr_logs r) /\
  (forall e, In e (AdminLogs.lr_logs r) -> In e buffer) /\
  (forall n, AdminLogs.limit_of q = Some n -> 0 <= n ->
             Z.of_nat (length (AdminLogs.lr_logs r)) <= n) /\
  (AdminLogs.q_limit q = None -> (length (AdminLogs.lr_logs r) <= 100)%nat).
Proof.
  intros r. subst r. unfold AdminLogs.GET. cbn [AdminLogs.lr_logs].
  split; [|split; [|split]].
  - apply slice0_descending, sort_desc_descending.
  - intros e. rewrite <- !list_elem_of_In. intros H.
    apply slice0_sub in H. rewrite sort_desc_perm in H.
    now apply selected_from_buffer in H.
  - intros n -> Hn. unfold AdminLogs.slice0.
    destruct (Z.ltb_spec n 0); [lia|]. rewrite length_take. lia.
  - intros Hq. unfold AdminLogs.limit_of. rewrite Hq.
    replace (AdminLogs.parseInt (RequestLogger.or_else None "100")) with (Some 100)
      by (vm_compute; reflexivity).
    unfold AdminLogs.slice0. cbn [Z.ltb Z.compare]. rewrite length_take. lia.
Qed.

(** X15. In the statistics of GET /api/admin/logs the counts by
    level add up to the total, the total is the length of the buffer, and
    the filtered count is at most the total. *)
Theorem admin_logs_stats_add_up (parseDate : string -> option Z) (q : AdminLogs.Query)
  (buffer : list LogBuffer.LogEntry) :
  let s := AdminLogs.lr_stats (AdminLogs.GET parseDate q buffer) in
  (AdminLogs.s_debug s + AdminLogs.s_info s + AdminLogs.s_warn s + AdminLogs.s_error s)%nat
    = AdminLogs.s_total s /\
  AdminLogs.s_total s = length buffer /\
  (AdminLogs.s_filtered s <= AdminLogs.s_total s)%nat.
Proof.
  cbn. split; [apply levels_partition|]. split; [reflexivity|].
  etransitivity; [apply slice0_length|].
  rewrite sort_desc_perm. apply selected_length.
Qed.

(** X16. When both startTime and endTime are given (not
    empty), the level and userId filters of GET /api/admin/logs have no
    effect: the result is the same for every value of them, every returned
    entry lies in the range, and the result is empty when one of the two
    bounds is not a valid date. *)
Theorem admin_logs_range_overrides (parseDate : string -> option Z) (q : AdminLogs.Query)
  (buffer : list LogBuffer.LogEntry) (s e : string) :
  AdminLogs.q_startTime q = Some s -> s <> "" ->
  AdminLogs.q_endTime q = Some e -> e <> "" ->
  (forall lvl usr,
     AdminLogs.lr_logs (AdminLogs.GET parseDate q buffer) =
     AdminLogs.lr_logs
       (AdminLogs.GET parseDate
          (AdminLogs.mkQuery lvl usr (Some s) (Some e) (AdminLogs.q_limit q)) buffer)) /\
  (forall x, In x (AdminLogs.lr_logs (AdminLogs.GET parseDate q buffer)) ->
     exists a b, parseDate s = Some a /\ parseDate e = Some b /\
                 a <= LogBuffer.timestamp x <= b) /\
  (parseDate s = None \/ parseDate e = None ->
   AdminLogs.lr_logs (AdminLogs.GET parseDate q buffer) = []).
Proof.
  intros Hs Hs0 He He0.
  assert (Hgs : AdminLogs.given (Some s) = Some s).
  { unfold AdminLogs.given, Csp.truthy. apply String.eqb_neq in Hs0. now rewrite Hs0. }
  assert (Hge : AdminLogs.given (Some e) = Some e).
  { unfold AdminLogs.given, Csp.truthy. apply String.eqb_neq in He0. now rewrite He0. }
  assert (Hsel : AdminLogs.selected parseDate q buffer =
                 LogBuffer.getLogsByTimeRange (parseDate s) (parseDate e) buffer).
  { unfold AdminLogs.selected. now rewrite Hs, He, Hgs, Hge. }
  split; [|split].
  - intros lvl usr. unfold AdminLogs.GET. cbn [AdminLogs.lr_logs].
    rewrite Hsel. unfold AdminLogs.selected, AdminLogs.limit_of. cbn [AdminLogs.q_startTime
      AdminLogs.q_endTime AdminLogs.q_limit]. now rewrite Hgs, Hge.
  - intros x. unfold AdminLogs.GET. cbn [AdminLogs.lr_logs]. rewrite Hsel.
    rewrite <- list_elem_of_In. intros H. apply slice0_sub in H.
    rewrite sort_desc_perm in H. unfold LogBuffer.getLogsByTimeRange in H.
    apply list_elem_of_filter in H as [H _]. unfold LogBuffer.in_range in H.
    destruct (parseDate s) as [a|], (parseDate e) as [b|]; try discriminate.
    exists a, b. apply andb_true_iff in H as [H1 H2]. split; [reflexivity|].
    split; [reflexivity|]. lia.
  - intros Hbad. unfold AdminLogs.GET. cbn [AdminLogs.lr_logs]. rewrite Hsel.
    replace (LogBuffer.getLogsByTimeRange (parseDate s) (parseDate e) buffer) with
      (@nil LogBuffer.LogEntry).
    + cbn. unfold AdminLogs.slice0. destruct (AdminLogs.limit_of q) as [n|]; [|reflexivity].
      destruct (n <? 0); apply take_nil.
    + symmetry. apply filter_none. intros x _. unfold LogBuffer.in_range.
      destruct Hbad as [-> | ->]; [reflexivity | now destruct (parseDate s)].
Qed.

Lemma admin_logs_range_overrides_witness :
  AdminLogs.lr_logs
    (AdminLogs.GET (fun _ => Some 0) Scenario.range_query
       [LogBuffer.entry 0 INFO "API request"])
  = AdminLogs.lr_logs
      (AdminLogs.GET (fun _ => Some 0)
         (AdminLogs.mkQuery None None (Some "2024-01-01") (Some "2024-01-31") None)
         [LogBuffer.entry 0 INFO "API request"]).
Proof.
  destruct (admin_logs_range_overrides (fun _ => Some 0) Scenario.range_query
              [LogBuffer.entry 0 INFO "API request"] "2024-01-01" "2024-01-31"
              eq_refl ltac:(discriminate) eq_refl ltac:(discriminate)) as (H & _).
  exact (H None None).
Defined.

(** X17. After DELETE /api/admin/logs the buffer holds
    exactly three entries whatever it held before: [Logs cleared],
    [All logs cleared by admin], and the response entry of the request
    logger; the request entry logged before the handler ran is cleared with
    the rest. *)
Theorem admin_logs_DELETE_leaves_three (t : Z) (rid : string) (req : RequestLogger.LoggedReq)
  (buffer : list LogBuffer.LogEntry) :
  AdminLogs.wrappedDELETE t rid req buffer =
  (inr tt,
   [LogBuffer.entry t INFO "Logs cleared";
    LogBuffer.entry t INFO "All logs cleared by admin";
    LogBuffer.mkLogEntry t INFO "API response" (RequestLogger.jwt_user req) (Some rid)
                         None None]).
Proof.
  unfold AdminLogs.wrappedDELETE, RequestLogger.withRequestLogger, RequestLogger.skipped,
    AdminLogs.DELETE, LogBuffer.clearLogs, LogBuffer.info.
  cbv beta iota.
  rewrite (addLog_small _ []) by (unfold LogBuffer.maxLogs; cbn; lia).
  rewrite (addLog_small _ ([] ++ _)) by (unfold LogBuffer.maxLogs; cbn; lia).
  rewrite addLog_small by (unfold LogBuffer.maxLogs; cbn; lia).
  reflexivity.
Qed.

(** X18. The counters of the dashboard by status add up to the
    total, and a list with a task that is done has a [done] counter of at
    least one. *)
Theorem taskStats_add_up (ts : list Task) :
  let s := Dashboard.taskStats ts in
  (Dashboard.n_todo s + Dashboard.n_in_progress s + Dashboard.n_done s +
   Dashboard.n_archived s)%nat = Dashboard.total s /\
  (forall t, In t ts -> status t = done_ -> (1 <= Dashboard.n_done s)%nat).
Proof.
  cbn. unfold Dashboard.count_status. split.
  - induction ts as [|a l IH]; [reflexivity|].
    rewrite !filter_cons. destruct (status a); cbn;
      repeat case_decide; try discriminate; try congruence; cbn [length]; lia.
  - intros t Hin Hst.
    assert (t ∈ filter (fun t => Status_eqb (status t) done_ = true) ts) as Hf.
    { apply list_elem_of_filter. split; [now rewrite Hst | now apply list_elem_of_In]. }
    destruct (filter _ ts); [inversion Hf | cbn; lia].
Qed.

(** ** Validation and the rate-limit key *)

(** X19. A limit parameter whose first character is an ASCII character
    other than white space, a sign and a decimal digit parses to NaN, and
    GET /api/admin/logs then returns no log at all, with a filtered count of
    0. *)
Theorem admin_logs_non_numeric_limit (parseDate : string -> option Z) (q : AdminLogs.Query)
  (buffer : list LogBuffer.LogEntry) (c : ascii) (s : string) :
  AdminLogs.q_limit q = Some (String c s) ->
  (N_of_ascii c < 128)%N ->
  AdminLogs.is_space c = false ->
  c <> "-"%char -> c <> "+"%char ->
  (forall d, AdminLogs.digit_val c = Some d -> 10 <= d) ->
  AdminLogs.limit_of q = None /\
  AdminLogs.lr_logs (AdminLogs.GET parseDate q buffer) = [] /\
  AdminLogs.s_filtered (AdminLogs.lr_stats (AdminLogs.GET parseDate q buffer)) = 0%nat.
Proof.
  intros Hq _ Hsp Hm Hp Hd.
  assert (Hl : AdminLogs.limit_of q = None).
  { unfold AdminLogs.limit_of. rewrite Hq.
    unfold RequestLogger.or_else, Csp.truthy. cbn [String.eqb negb].
    unfold AdminLogs.parseInt. cbn [AdminLogs.skip_space]. rewrite Hsp.
    apply Ascii.eqb_neq in Hm, Hp. rewrite Hm, Hp.
    assert (H0 : Ascii.eqb c "0" = false).
    { apply Ascii.eqb_neq. intros ->. specialize (Hd 0 eq_refl). lia. }
    assert (Hdig : forall r, AdminLogs.digits 10 None (String c r) = None).
    { intros r. cbn [AdminLogs.digits]. destruct (AdminLogs.digit_val c) as [d|]; [|reflexivity].
      specialize (Hd d eq_refl). destruct (Z.ltb_spec d 10); [lia | reflexivity]. }
    destruct s as [|x r]; [now rewrite Hdig|]. rewrite H0. cbn [andb]. now rewrite Hdig. }
  split; [exact Hl|]. unfold AdminLogs.GET. cbn [AdminLogs.lr_logs AdminLogs.lr_stats
    AdminLogs.s_filtered]. rewrite Hl. split; reflexivity.
Qed.

Lemma admin_logs_non_numeric_limit_witness :
  AdminLogs.q_limit Scenario.text_limit_query = Some "abc" /\
  AdminLogs.lr_logs
    (AdminLogs.GET (fun _ => None) Scenario.text_limit_query
       [LogBuffer.entry 0 INFO "API request"]) = [].
Proof.
  split; [reflexivity|].
  destruct (admin_logs_non_numeric_limit (fun _ => None) Scenario.text_limit_query
              [LogBuffer.entry 0 INFO "API request"] "a" "bc"
              eq_refl eq_refl eq_refl ltac:(discriminate) ltac:(discriminate))
    as (_ & H & _).
  - intros d. vm_compute. intros [= <-]. discriminate.
  - exact H.
Defined.

Section ZodMore.

Import Zod.

Lemma update_parts fields :
  update_issues fields = [] ->
  (optional parse_title (member "title" fields)).1 = [] /\
  (parse_description (member "description" fields)).1 = [] /\
  (optional parse_status (member "status" fields)).1 = [] /\
  (parse_due_date (member "due_date" fields)).1 = [] /\
  strict_issues fields = [].
Proof.
  unfold update_issues. intros H.
  apply app_eq_nil in H as [H1 H]. apply app_eq_nil in H as [H2 H].
  apply app_eq_nil in H as [H3 H]. apply app_eq_nil in H as [H4 H]. auto.
Qed.

Lemma parse_title_bounds v s :
  (parse_title v).1 = [] -> (parse_title v).2 = Some s -> 1 <= strlen s <= 120.
Proof.
  destruct v as [[]|]; cbn; try discriminate.
  intros H Hs. injection Hs as <-.
  apply app_eq_nil in H as [H1 H2].
  destruct (Z.ltb_spec (strlen s0) 1); [discriminate|].
  destruct (Z.ltb_spec 120 (strlen s0)); [discriminate|]. lia.
Qed.

Lemma parse_description_bounds v s :
  (parse_description v).1 = [] -> (parse_description v).2 = Some s -> strlen s <= 2000.
Proof.
  destruct v as [[]|]; cbn; try discriminate.
  intros H Hs. injection Hs as <-.
  destruct (Z.ltb_spec 2000 (strlen s0)); [discriminate | lia].
Qed.

Lemma optional_Some {A} (p : option json -> list Issue * option A) v x :
  (optional p v).2 = Some x -> optional p v = p v.
Proof. destruct v; [reflexivity | discriminate]. Qed.

Lemma create_ok_bounds b d :
  TaskCreateSchema_safeParse b = ParseOk d ->
  1 <= strlen (tc_title d) <= 120 /\
  (forall s, tc_description d = Some s -> strlen s <= 2000) /\
  tc_due_date d <> Some "".
Proof.
  unfold TaskCreateSchema_safeParse. destruct b as [| | | | |fields]; try discriminate.
  destruct (create_issues fields) eqn:Hi; [|discriminate].
  destruct (parse_title (member "title" fields)).2 as [t|] eqn:Ht; [|discriminate].
  destruct (parse_status (member "status" fields)).2 as [st|] eqn:Hst; [|discriminate].
  intros H. injection H as <-. cbn.
  apply create_parts in Hi as (H1 & H2 & _ & _ & _).
  split; [now apply (parse_title_bounds _ _ H1)|].
  split; [intros s; now apply parse_description_bounds|].
  destruct (member "due_date" fields) as [[]|]; cbn; try discriminate.
  destruct (String.eqb_spec s ""); [discriminate | congruence].
Qed.

Lemma update_ok_bounds b d :
  TaskUpdateSchema_safeParse b = UpdateOk d ->
  (forall s, tu_title d = Some s -> 1 <= strlen s <= 120) /\
  (forall s, tu_description d = Some s -> strlen s <= 2000).
Proof.
  unfold TaskUpdateSchema_safeParse. destruct b as [| | | | |fields]; try discriminate.
  destruct (update_issues fields) eqn:Hi; [|discriminate].
  intros H. injection H as <-. cbn.
  apply update_parts in Hi as (H1 & H2 & _ & _ & _).
  split.
  - intros s Hs. pose proof (optional_Some _ _ _ Hs) as E. rewrite E in H1, Hs.
    now apply (parse_title_bounds _ _ H1).
  - intros s; now apply parse_description_bounds.
Qed.

End ZodMore.

(** X20. Every body accepted by [TaskCreateSchema]
    is accepted by [TaskUpdateSchema], with the same values for the four
    fields. *)
Theorem update_accepts_what_create_accepts (b : json) (d : Zod.TaskCreate) :
  Zod.TaskCreateSchema_safeParse b = Zod.ParseOk d ->
  Zod.TaskUpdateSchema_safeParse b =
  Zod.UpdateOk (Zod.mkTaskUpdate (Some (Zod.tc_title d)) (Zod.tc_description d)
                                 (Some (Zod.tc_status d)) (Zod.tc_due_date d)).
Proof.
  unfold Zod.TaskCreateSchema_safeParse, Zod.TaskUpdateSchema_safeParse.
  destruct b as [| | | | |fields]; try discriminate.
  destruct (Zod.create_issues fields) eqn:Hi; [|discriminate].
  destruct (Zod.parse_title (member "title" fields)).2 as [t|] eqn:Ht; [|discriminate].
  destruct (Zod.parse_status (member "status" fields)).2 as [st|] eqn:Hst; [|discriminate].
  intros H. injection H as <-. cbn.
  apply create_parts in Hi as (H1 & H2 & H3 & H4 & H5).
  assert (Ot : Zod.optional Zod.parse_title (member "title" fields) =
               Zod.parse_title (member "title" fields)).
  { destruct (member "title" fields); [reflexivity | discriminate]. }
  assert (Os : Zod.optional Zod.parse_status (member "status" fields) =
               Zod.parse_status (member "status" fields)).
  { destruct (member "status" fields); [reflexivity | discriminate]. }
  unfold Zod.update_issues. rewrite Ot, Os, H1, H2, H3, H4, H5, Ht, Hst. reflexivity.
Qed.

Lemma update_accepts_what_create_accepts_witness :
  Zod.TaskCreateSchema_safeParse Sample.create_body = Zod.ParseOk Scenario.created /\
  Zod.TaskUpdateSchema_safeParse Sample.create_body =
  Zod.UpdateOk (Zod.mkTaskUpdate (Some "Buy milk") None (Some todo) None).
Proof.
  assert (Hparse : Zod.TaskCreateSchema_safeParse Sample.create_body =
                   Zod.ParseOk Scenario.created) by (vm_compute; reflexivity).
  split; [exact Hparse|].
  exact (update_accepts_what_create_accepts Sample.create_body Scenario.created Hparse).
Defined.

Lemma Forall_filter_keep {A} (P : A -> Prop) (Q : A -> Prop) `{forall x, Decision (Q x)}
  (l : list A) : Forall P l -> Forall P (filter Q l).
Proof.
  rewrite !Forall_forall. intros H0 x Hx. apply H0.
  now apply list_elem_of_filter in Hx as [_ Hx].
Qed.

(** X21. If every row of the table has a title of 1 to 120
    characters and a description of at most 2000, the same holds after any
    request to any task endpoint: the handlers write only validated
    titles and descriptions. *)
Theorem serve_keeps_rows_valid (e : Api.Endpoint) (req : Req) (w : World) :
  Forall (fun t => 1 <= Zod.strlen (title t) <= 120 /\
                   forall d, description t = Some d -> Zod.strlen d <= 2000) (tasks w) ->
  Forall (fun t => 1 <= Zod.strlen (title t) <= 120 /\
                   forall d, description t = Some d -> Zod.strlen d <= 2000)
         (tasks (Api.serve e req w).2).
Proof.
  intros Hv. destruct e; unfold_api; unfold_handlers; unfold_cache; split_run;
    reduce_run; try exact Hv.
  all: try (apply Forall_filter_keep; exact Hv).
  all: repeat match goal with
       | H : Zod.TaskCreateSchema_safeParse _ = Zod.ParseOk _ |- _ =>
           apply create_ok_bounds in H; destruct H as (? & ? & ?)
       | H : Zod.TaskUpdateSchema_safeParse _ = Zod.UpdateOk _ |- _ =>
           apply update_ok_bounds in H; destruct H as (? & ?)
       end.
  all: try (constructor; [cbn; split; auto | exact Hv]).
  all: apply Forall_fmap; eapply Forall_impl; [exact Hv|].
  all: cbn; intros x [Hxt Hxd]; destruct (_ && _); [|split; assumption].
  all: unfold Db.apply_update; cbn; split.
  all: try (destruct (Zod.tu_title _) eqn:?; cbn; auto).
  all: intros d'; destruct (Zod.tu_description _) eqn:?; [intros [= <-]; auto | auto].
Qed.

Lemma serve_keeps_rows_valid_witness :
  Forall (fun t => 1 <= Zod.strlen (title t) <= 120 /\
                   forall d, description t = Some d -> Zod.strlen d <= 2000)
         (tasks (Api.serve Api.CreateTask (Sample.req "u1" (Some Sample.create_body))
                   (Sample.world true)).2).
Proof.
  apply serve_keeps_rows_valid.
  repeat constructor; cbn; try lia; discriminate.
Defined.

(** X22. For user ids that are not empty and contain no
    colon, the rate-limit key determines the user id and the address: two
    callers share a key only if they are the same user at the same
    address. *)
Theorem createRateLimitKey_injective (u1 u2 ip1 ip2 : string) :
  u1 <> "" -> u2 <> "" ->
  ~ In ":"%char (list_ascii_of_string u1) ->
  ~ In ":"%char (list_ascii_of_string u2) ->
  Ratelimit.createRateLimitKey (Some u1) ip1 = Ratelimit.createRateLimitKey (Some u2) ip2 ->
  u1 = u2 /\ ip1 = ip2.
Proof.
  intros H1 H2. unfold Ratelimit.createRateLimitKey.
  apply String.eqb_neq in H1, H2. rewrite H1, H2. clear H1 H2.
  revert u2. induction u1 as [|a u1 IH]; intros [|b u2]; cbn; intros N1 N2 Heq.
  - injection Heq as ->. auto.
  - injection Heq as <- _. tauto.
  - injection Heq as -> _. tauto.
  - injection Heq as -> Heq. destruct (IH u2) as [-> ->]; auto.
Qed.

Lemma createRateLimitKey_injective_witness :
  Ratelimit.createRateLimitKey (Some "u1") "203.0.113.7" = "u1:203.0.113.7" /\
  ("u1" = "u1" /\ "203.0.113.7" = "203.0.113.7").
Proof.
  split; [reflexivity|].
  apply (createRateLimitKey_injective "u1" "u1" "203.0.113.7" "203.0.113.7");
    try discriminate; try reflexivity.
  all: cbn; intros H; decompose [or] H; try discriminate; contradiction.
Defined.

(** ** The middlewares and the logout route *)

Ltac listed := rewrite !elem_of_cons; repeat (first [left; reflexivity | right]).
Ltac not_listed :=
  rewrite !not_elem_of_cons; repeat (split; [discriminate|]); apply not_elem_of_nil.

Ltac lookup_chain H n :=
  repeat match type of H with
  | <[?k := _]> _ !! n = _ =>
      let Hne := fresh "Hne" in
      destruct (decide (k = n)) as [<- | Hne];
      [rewrite !elem_of_cons; tauto | rewrite lookup_insert_ne in H by exact Hne]
  end; rewrite lookup_empty in H; discriminate.

Section HeaderFacts.

Import Middleware.

Lemma set_all_lookup_ne k es hs :
  (forall kv, kv ∈ es -> lower kv.1 <> k) -> set_all es hs !! k = hs !! k.
Proof.
  revert hs. induction es as [|kv es IH]; intros hs H; [reflexivity|].
  cbn. change (fold_left _ es ?h) with (set_all es h).
  rewrite IH by (intros kv' Hin; apply H; now right).
  unfold set. apply lookup_insert_ne. apply H. now left.
Qed.

Lemma set_all_lookup_in es hs n v :
  NoDup ((fun kv => lower kv.1) <$> es) -> (n, v) ∈ es ->
  set_all es hs !! lower n = Some v.
Proof.
  revert hs. induction es as [|kv es IH]; intros hs Hnd Hin; [inversion Hin|].
  cbn in Hnd. apply NoDup_cons in Hnd as [Hnot Hnd].
  cbn. change (fold_left _ es ?h) with (set_all es h).
  apply elem_of_cons in Hin as [<- | Hin]; [|now apply IH].
  rewrite set_all_lookup_ne.
  - unfold set. cbn. apply lookup_insert_eq.
  - intros kv' Hkv' Heq. apply Hnot. cbn. rewrite <- Heq.
    apply list_elem_of_fmap. now exists kv'.
Qed.

Lemma set_all_map_lookup (m hs : gmap string string) n v :
  (forall n1 n2, is_Some (m !! n1) -> is_Some (m !! n2) -> lower n1 = lower n2 -> n1 = n2) ->
  m !! n = Some v -> set_all (map_to_list m) hs !! lower n = Some v.
Proof.
  intros Hinj Hn. apply set_all_lookup_in; [|now apply elem_of_map_to_list].
  apply NoDup_fmap_2_strong; [|apply NoDup_map_to_list].
  intros [n1 v1] [n2 v2] H1 H2 Heq. cbn in Heq.
  apply elem_of_map_to_list in H1, H2.
  assert (n1 = n2) as -> by (apply Hinj; eauto).
  congruence.
Qed.

Lemma cors_dom env o n :
  is_Some (Csp.getCORSHeaders env o !! n) -> n ∈ cors_names.
Proof.
  intros [v Hv]. revert Hv.
  assert (Hbase : Csp.base_headers !! n = Some v -> n ∈ cors_names).
  { unfold Csp.base_headers, cors_names. intros H. lookup_chain H n. }
  assert (Hallow : forall x, Csp.allow x Csp.base_headers !! n = Some v -> n ∈ cors_names).
  { intros x. unfold Csp.allow, Csp.base_headers, cors_names. intros H. lookup_chain H n. }
  rewrite getCORSHeaders_cases. destruct o as [o|]; [|exact Hbase].
  destruct (String.eqb o "null"); [apply Hallow|].
  destruct (_ && _); [apply Hallow | exact Hbase].
Qed.

Lemma lower_cors_inj n1 n2 :
  n1 ∈ cors_names -> n2 ∈ cors_names -> lower n1 = lower n2 -> n1 = n2.
Proof.
  unfold cors_names. rewrite !elem_of_cons, !elem_of_nil.
  intros H1 H2; decompose [or] H1; decompose [or] H2; subst; try contradiction;
    first [reflexivity | vm_compute; discriminate].
Qed.

End HeaderFacts.

(** X23. For a request that is not a preflight and whose URL
    mentions neither [/login] nor [/signup], the middleware returns the
    session response with [x-nonce] set to the nonce, the
    Content-Security-Policy of [getCSPHeader] for that same nonce,
    X-Frame-Options DENY, X-Content-Type-Options nosniff, every header of
    [getCORSHeaders] for the request's origin, and every other header of
    the session response as it was. *)
Theorem middleware_sets_headers (CORS_ORIGINS : option string) (nonce : string)
  (session : gmap string string) (req : Middleware.MwReq) :
  Middleware.auth_page (Middleware.url req) = false ->
  Middleware.method req <> "OPTIONS" ->
  exists hs,
    Middleware.middleware CORS_ORIGINS nonce session req = Middleware.Session hs /\
    hs !! "x-nonce" = Some nonce /\
    hs !! "content-security-policy" = Some (Security.getCSPHeader nonce) /\
    hs !! "x-frame-options" = Some "DENY" /\
    hs !! "x-content-type-options" = Some "nosniff" /\
    (forall n v,
       Csp.getCORSHeaders CORS_ORIGINS (Middleware.origin_or_undefined (Middleware.origin req))
         !! n = Some v ->
       hs !! Middleware.lower n = Some v) /\
    (forall k,
       k ∉ ["x-nonce"; "content-security-policy"; "x-content-type-options"; "referrer-policy";
            "permissions-policy"; "x-frame-options"; "strict-transport-security";
            "access-control-allow-credentials"; "access-control-allow-origin";
            "access-control-max-age"; "access-control-allow-headers";
            "access-control-allow-methods"] ->
       hs !! k = session !! k).
Proof.
  intros Hpage Hm. unfold Middleware.middleware. rewrite Hpage.
  apply String.eqb_neq in Hm. rewrite Hm.
  set (cors := Csp.getCORSHeaders _ _).
  eexists. split; [reflexivity|].
  assert (Hcors : forall k, (forall n, n ∈ Middleware.cors_names -> Middleware.lower n <> k) ->
            forall hs, Middleware.set_all (map_to_list cors) hs !! k = hs !! k).
  { intros k Hk hs. apply set_all_lookup_ne. intros [n v] Hin. cbn.
    apply Hk. apply elem_of_map_to_list in Hin. eapply cors_dom. eexists. exact Hin. }
  assert (Hsec : forall k hs,
            Middleware.set_all (Security.getSecurityHeaders nonce) hs !! k =
            if decide (k = "strict-transport-security")
            then Some "max-age=31536000; includeSubDomains"
            else if decide (k = "x-frame-options") then Some "DENY"
            else if decide (k = "permissions-policy")
                 then Some "camera=(), microphone=(), geolocation=()"
            else if decide (k = "referrer-policy") then Some "no-referrer"
            else if decide (k = "x-content-type-options") then Some "nosniff"
            else if decide (k = "content-security-policy")
                 then Some (Security.getCSPHeader nonce)
            else hs !! k).
  { intros k hs. unfold Security.getSecurityHeaders, Middleware.set_all, Middleware.set.
    cbn [fold_left fst snd].
    change (Middleware.lower "Strict-Transport-Security") with "strict-transport-security".
    change (Middleware.lower "X-Frame-Options") with "x-frame-options".
    change (Middleware.lower "Permissions-Policy") with "permissions-policy".
    change (Middleware.lower "Referrer-Policy") with "referrer-policy".
    change (Middleware.lower "X-Content-Type-Options") with "x-content-type-options".
    change (Middleware.lower "Content-Security-Policy") with "content-security-policy".
    repeat (destruct (decide (k = _)) as [-> | ?];
            [now rewrite lookup_insert_eq | rewrite lookup_insert_ne by congruence]).
    reflexivity. }
  assert (Hne : forall k, k ∉ ["access-control-allow-credentials"; "access-control-allow-origin";
            "access-control-max-age"; "access-control-allow-headers";
            "access-control-allow-methods"] ->
            forall n, n ∈ Middleware.cors_names -> Middleware.lower n <> k).
  { intros k Hk n Hn <-. apply Hk. unfold Middleware.cors_names in Hn.
    rewrite !elem_of_cons, elem_of_nil in Hn.
    decompose [or] Hn; subst; try contradiction; listed. }
  split; [|split; [|split; [|split; [|split]]]].
  - rewrite Hcors by (apply Hne; not_listed). rewrite Hsec.
    repeat (destruct (decide _) as [? | _]; [discriminate|]).
    unfold Middleware.set. apply lookup_insert_eq.
  - rewrite Hcors by (apply Hne; not_listed). rewrite Hsec.
    repeat (destruct (decide _) as [? | ?]; [first [discriminate | reflexivity]|]).
    congruence.
  - rewrite Hcors by (apply Hne; not_listed). rewrite Hsec.
    repeat (destruct (decide _) as [? | ?]; [first [discriminate | reflexivity]|]).
    congruence.
  - rewrite Hcors by (apply Hne; not_listed). rewrite Hsec.
    repeat (destruct (decide _) as [? | ?]; [first [discriminate | reflexivity]|]).
    congruence.
  - intros n v Hn. apply set_all_map_lookup; [|exact Hn].
    intros n1 n2 H1 H2. apply lower_cors_inj; eapply cors_dom; eassumption.
  - intros k Hk.
    rewrite Hcors
      by (apply Hne; intros Hin; apply Hk; do 7 apply elem_of_cons, or_intror; exact Hin).
    rewrite Hsec.
    repeat (destruct (decide _) as [-> | ?]; [exfalso; apply Hk; listed|]).
    unfold Middleware.set. apply lookup_insert_ne. intros <-. apply Hk. listed.
Qed.

Lemma middleware_sets_headers_witness :
  Middleware.auth_page (Middleware.url Scenario.page) = false /\
  exists hs,
    Middleware.middleware None "n0" ∅ Scenario.page = Middleware.Session hs /\
    hs !! "x-nonce" = Some "n0" /\
    hs !! "access-control-allow-origin" = Some "http://localhost:3000".
Proof.
  split; [reflexivity|].
  destruct (middleware_sets_headers None "n0" ∅ Scenario.page eq_refl ltac:(discriminate))
    as (hs & H1 & H2 & _ & _ & _ & H6 & _).
  exists hs. split; [exact H1|]. split; [exact H2|].
  apply (H6 "Access-Control-Allow-Origin"). vm_compute. reflexivity.
Defined.

(** X24. A request whose URL contains the text [/login] or
    [/signup] anywhere, query string included, passes both middlewares
    untouched: no header is set and no session is required, whatever the
    path and the method. *)
Theorem auth_page_text_bypasses (CORS_ORIGINS : option string) (nonce : string)
  (session : gmap string string) (req : Middleware.MwReq) (a b : string) :
  Middleware.url req = a +:+ "/login" +:+ b \/ Middleware.url req = a +:+ "/signup" +:+ b ->
  Middleware.middleware CORS_ORIGINS nonce session req = Middleware.Next /\
  Middleware.guard session req = Middleware.Next.
Proof.
  intros H.
  assert (Hp : Middleware.auth_page (Middleware.url req) = true).
  { unfold Middleware.auth_page. apply orb_true_iff.
    destruct H as [H | H]; [right | left]; apply contains_iff; eauto. }
  unfold Middleware.middleware, Middleware.guard. now rewrite Hp.
Qed.

Lemma auth_page_text_bypasses_witness :
  Middleware.isProtectedRoute (Middleware.pathname Scenario.disguised) = true /\
  Middleware.user Scenario.disguised = None /\
  Middleware.guard ∅ Scenario.disguised = Middleware.Next.
Proof.
  split; [reflexivity|]. split; [reflexivity|].
  destruct (auth_page_text_bypasses None "n0" ∅ Scenario.disguised
              "http://localhost:3000/api/tasks?next=" "") as (_ & H).
  - left. reflexivity.
  - exact H.
Defined.

Lemma isProtectedRoute_iff p :
  Middleware.isProtectedRoute p = true <->
  exists rest, p = "/dashboard" +:+ rest \/ p = "/tasks" +:+ rest \/ p = "/api/tasks" +:+ rest.
Proof.
  unfold Middleware.isProtectedRoute. rewrite !orb_true_iff, !is_prefix_iff. split.
  - intros [[[r H] | [r H]] | [r H]]; exists r; auto.
  - intros [r [H | [H | H]]]; eauto.
Qed.

Lemma auth_page_iff u :
  Middleware.auth_page u = false <->
  forall a b, u <> a +:+ "/login" +:+ b /\ u <> a +:+ "/signup" +:+ b.
Proof.
  unfold Middleware.auth_page. rewrite orb_false_iff. split.
  - intros [Hs Hl] a b. split; intros E.
    + assert (Glob.contains "/login" u = true) by (apply contains_iff; eauto). congruence.
    + assert (Glob.contains "/signup" u = true) by (apply contains_iff; eauto). congruence.
  - intros H. split.
    + destruct (Glob.contains "/signup" u) eqn:E; [|reflexivity].
      apply contains_iff in E as (a & b & E). now destruct (H a b).
    + destruct (Glob.contains "/login" u) eqn:E; [|reflexivity].
      apply contains_iff in E as (a & b & E). now destruct (H a b).
Qed.

(** X25. The guard redirects to [/login] exactly when there is
    no user, the path starts with [/dashboard], [/tasks] or [/api/tasks],
    and the URL contains neither [/login] nor [/signup]. *)
Theorem guard_redirects_iff (session : gmap string string) (req : Middleware.MwReq) :
  Middleware.guard session req = Middleware.Redirect "/login" <->
  Middleware.user req = None /\
  (exists rest, Middleware.pathname req = "/dashboard" +:+ rest \/
                Middleware.pathname req = "/tasks" +:+ rest \/
                Middleware.pathname req = "/api/tasks" +:+ rest) /\
  (forall a b, Middleware.url req <> a +:+ "/login" +:+ b /\
               Middleware.url req <> a +:+ "/signup" +:+ b).
Proof.
  rewrite <- isProtectedRoute_iff, <- auth_page_iff. unfold Middleware.guard.
  destruct (Middleware.auth_page _), (Middleware.isProtectedRoute _),
    (Middleware.user req); cbn; split; try discriminate; try tauto;
    intros (? & ? & ?); discriminate.
Qed.

(** X26. When the origin of the request URL is not
    empty, the logout route redirects to [http://localhost:3000], whatever
    the origin and the Host header are: to [/login] there, or to the
    dashboard with the error text when signing out failed. The other
    version of the route redirects to the request's own origin. *)
Theorem logout_redirects_to_localhost (nextUrl_origin : string) (host : option string) :
  nextUrl_origin <> "" ->
  Logout.POST nextUrl_origin host None = "http://localhost:3000/login" /\
  (forall e, Logout.POST nextUrl_origin host (Some e) =
             "http://localhost:3000/dashboard?error=Could not sign out") /\
  Logout.POST_plain nextUrl_origin None = nextUrl_origin +:+ "/login".
Proof.
  intros H. apply truthy_iff in H. unfold Logout.POST, Logout.origin. rewrite H.
  cbn. auto.
Qed.

Lemma logout_redirects_to_localhost_witness :
  Logout.POST "https://tasks.example.com" (Some "tasks.example.com") None
  = "http://localhost:3000/login".
Proof.
  destruct (logout_redirects_to_localhost "https://tasks.example.com"
              (Some "tasks.example.com") ltac:(discriminate)) as (H & _).
  exact H.
Defined.

(** ** The archival routes and the cache *)

Lemma archive_POST_frame (NODE_ENV : string) (authHeader : option string) (w : World) :
  let w' := (ArchiveRoute.POST NODE_ENV authHeader w).2 in
  cache w' = cache w /\ redis_up w' = redis_up w /\ limit_reply w' = limit_reply w /\
  now w' = now w /\ db_fault w' = db_fault w /\
  Forall (fun e => Pipeline.is_cache_event e = false) (Pipeline.new_events w w').
Proof.
  unfold ArchiveRoute.POST, ArchiveRoute.sweep, Db.archive_update, Db.reply, respond,
    console_error, console_log, get_now, set_tasks, bind, ret, emit, Pipeline.new_events.
  destruct (ArchiveRoute.rejected NODE_ENV authHeader); [|destruct (db_fault w) eqn:Hdb];
    cbn -[filter drop length]; rewrite <- ?app_assoc, drop_app_length;
    repeat split; auto; repeat constructor.
Qed.



Lemma archive_GET_run (NODE_ENV : string) (authHeader : option string) (w : World) :
  db_fault w = None ->
  let cutoff := ArchiveRoute.thirtyDaysAgo (now w) in
  let hits := filter (fun t => Db.archivable cutoff t = true) (tasks w) in
  payload (ArchiveRoute.GET NODE_ENV authHeader w).1 =
    PArchivable (Z.of_nat (length hits)) (Db.project <$> hits) cutoff /\
  tasks (ArchiveRoute.GET NODE_ENV authHeader w).2 = tasks w.
Proof.
  intros Hdb. unfold ArchiveRoute.GET, Db.archivable_select, Db.reply, respond,
    console_error, get_now, bind, ret, emit.
  rewrite Hdb. cbn -[filter]. rewrite !length_fmap. split; reflexivity.
Qed.

(** X28. With the table reachable, the preview of
    GET /api/admin/archive-tasks shows as many rows as the POST at the same
    instant archives, with the same ids and owners in the same order; the
    archived rows carry the instant of the sweep as [updated_at]; the
    preview changes no row; and a preview after the sweep shows nothing. *)
Theorem archive_preview_matches_sweep (NODE_ENV : string) (authHeader : option string)
  (w : World) :
  db_fault w = None ->
  ArchiveRoute.rejected NODE_ENV authHeader = false ->
  let preview := ArchiveRoute.GET NODE_ENV authHeader w in
  let swept := ArchiveRoute.POST NODE_ENV authHeader w in
  exists n shown archived_rows,
    payload preview.1 = PArchivable n shown (ArchiveRoute.thirtyDaysAgo (now w)) /\
    payload swept.1 = PArchived n archived_rows (ArchiveRoute.thirtyDaysAgo (now w)) /\
    Db.ar_id <$> shown = Db.ar_id <$> archived_rows /\
    Db.ar_user_id <$> shown = Db.ar_user_id <$> archived_rows /\
    Forall (fun r => Db.ar_updated_at r = now w) archived_rows /\
    tasks preview.2 = tasks w /\
    payload (ArchiveRoute.GET NODE_ENV authHeader swept.2).1 =
      PArchivable 0 [] (ArchiveRoute.thirtyDaysAgo (now w)).
Proof.
  intros Hdb Hrej preview swept.
  destruct (archive_GET_run NODE_ENV authHeader w Hdb) as [Hp Hpt].
  fold preview in Hp, Hpt.
  assert (Hs : swept = ArchiveRoute.sweep (ArchiveRoute.thirtyDaysAgo (now w)) w).
  { unfold swept, ArchiveRoute.POST. rewrite Hrej. reflexivity. }
  destruct (sweep_run (ArchiveRoute.thirtyDaysAgo (now w)) w Hdb) as [Hst Hsr].
  rewrite <- Hs in Hst, Hsr.
  destruct (archive_POST_frame NODE_ENV authHeader w) as (_ & _ & _ & Fn & Fdb & _).
  fold swept in Fn, Fdb.
  eexists _, _, _. split; [exact Hp|]. split; [now rewrite Hsr|].
  split; [rewrite <- !list_fmap_compose; reflexivity|].
  split; [rewrite <- !list_fmap_compose; reflexivity|].
  split; [rewrite <- list_fmap_compose; apply Forall_fmap, Forall_true; reflexivity|].
  split; [exact Hpt|].
  destruct (archive_GET_run NODE_ENV authHeader swept.2) as [Hg _]; [congruence|].
  rewrite Hg, Fn, Hst.
  rewrite (filter_none _ _ (swept_none _ _ _)). reflexivity.
Qed.

Lemma archive_preview_matches_sweep_witness :
  db_fault Sample.archive_world = None /\
  ArchiveRoute.rejected "development" None = false /\
  payload (ArchiveRoute.GET "development" None
             (ArchiveRoute.POST "development" None Sample.archive_world).2).1
  = PArchivable 0 [] (ArchiveRoute.thirtyDaysAgo (now Sample.archive_world)).
Proof.
  split; [reflexivity|]. split; [reflexivity|].
  destruct (archive_preview_matches_sweep "development" None Sample.archive_world
              eq_refl eq_refl) as (n & shown & rows & _ & _ & _ & _ & _ & _ & H).
  exact H.
Defined.
